(** * Complex.js: arbitrary-precision complex numbers over decimal.js

    A shallow embedding of the two implementations the repository holds:

    - [Instance]: src/complex.js, the class with instance methods
      ([a.add(b)], [z.sqrt()], ...), fields [re] and [im];
    - [Static]: src/unnamed/part_001, the class with coercing static
      functions ([Complex.add(a, b)], [Complex.sqrt(z)], ...), fields
      [real] and [imaginary], with its constants in src/unnamed/part_002.

    Both sit on decimal.js.  Its value type and the operations whose
    result decimal.js documents exactly (comparison, negation, correctly
    rounded [plus], [minus], [times], [div], [mod], [sqrt],
    [toSignificantDigits], [toString]) are modelled concretely in the
    first part of the file; the transcendental primitives are the fields
    of the class [Dec.Engine]. *)

From Stdlib Require Import ZArith Lia Bool Ascii String.
From Stdlib Require Import DecimalString.
Local Open Scope Z_scope.

(* ================================================================== *)
(** ** decimal.js values *)

(** The field [s] of a finite or infinite Decimal: 1 or -1. *)
Inductive sign : Type := Positive | Negative.

(** A Decimal object.  decimal.js stores a sign [s], a digit array [d]
    and the exponent of the leading digit; NaN has [s = NaN] and
    [d = null], the infinities have [s = +-1] and [d = null], zero has
    [d = [0]] and keeps a sign.  [Num s c e] is the finite non-zero value
    [s * c * 10^e]. *)
Inductive Decimal : Type :=
| NaN
| Inf (s : sign)
| Zero (s : sign)
| Num (s : sign) (c : positive) (e : Z).

Definition sign_eqb (a b : sign) : bool :=
  match a, b with
  | Positive, Positive | Negative, Negative => true
  | _, _ => false
  end.

Definition sign_neg (a : sign) : sign :=
  match a with Positive => Negative | Negative => Positive end.

Definition sign_mul (a b : sign) : sign :=
  if sign_eqb a b then Positive else Negative.

(** The signed coefficient of a finite value. *)
Definition signed (s : sign) (c : Z) : Z :=
  match s with Positive => c | Negative => - c end.

(** The decimal.js layer: configuration, rounding, and the methods of
    [Decimal.prototype] the complex classes call. *)
Module Dec.

(** *** Digits *)

(** Number of decimal digits of [c > 0]; the fuel is the binary size. *)
Fixpoint ndigits_aux (fuel : nat) (c : Z) : Z :=
  match fuel with
  | O => 1
  | S f => if c <? 10 then 1 else 1 + ndigits_aux f (c / 10)
  end.

Definition ndigits (c : positive) : Z :=
  ndigits_aux (Pos.size_nat c) (Z.pos c).

(** Trailing zeros move from the coefficient into the exponent:
    decimal.js never keeps them in [d]. *)
Fixpoint strip_aux (fuel : nat) (c e : Z) : Z * Z :=
  match fuel with
  | O => (c, e)
  | S f => if c mod 10 =? 0 then strip_aux f (c / 10) (e + 1) else (c, e)
  end.

Definition strip (c : positive) (e : Z) : positive * Z :=
  let '(c', e') := strip_aux (Pos.size_nat c) (Z.pos c) e in
  (Z.to_pos c', e').

(** *** Configuration

    Decimal.maxE, Decimal.minE, Decimal.toExpNeg and Decimal.toExpPos at
    their defaults; the rounding mode is the default ROUND_HALF_UP. *)
Definition maxE : Z := 9000000000000000.
Definition minE : Z := -9000000000000000.
Definition toExpNeg : Z := -7.
Definition toExpPos : Z := 21.

(** Exponent of the leading digit of [c * 10^e] (the field [e]). *)
Definition sci_exponent (c : positive) (e : Z) : Z := e + ndigits c - 1.

(** Overflow to Infinity and underflow to zero, as [finalise] ends. *)
Definition in_range (s : sign) (c : positive) (e : Z) : Decimal :=
  if sci_exponent c e >? maxE then Inf s
  else if sci_exponent c e <? minE then Zero s
  else Num s c e.

(** Round [c * 10^e] to [pr] significant digits, half up: the digit after
    the last kept one decides. *)
Definition round_digits (pr : Z) (c : positive) (e : Z) : positive * Z :=
  let d := ndigits c in
  if d <=? pr then (c, e)
  else
    let k := d - pr in
    (Z.to_pos ((Z.pos c + 5 * 10 ^ (k - 1)) / 10 ^ k), e + k).

(** [finalise(x, pr, rm)] on a finite non-zero value. *)
Definition finalise_num (pr : Z) (s : sign) (c : positive) (e : Z) : Decimal :=
  let '(c0, e0) := strip c e in
  let '(c1, e1) := round_digits pr c0 e0 in
  let '(c2, e2) := strip c1 e1 in
  in_range s c2 e2.

Definition finalise (pr : Z) (x : Decimal) : Decimal :=
  match x with
  | Num s c e => finalise_num pr s c e
  | _ => x
  end.

(** The exact value [m * 10^e] as a Decimal; [zs] is the sign
    decimal.js gives the zero result. *)
Definition of_mantissa (zs : sign) (m e : Z) : Decimal :=
  match m with
  | Z0 => Zero zs
  | Zpos c => Num Positive c e
  | Zneg c => Num Negative c e
  end.

(** The canonical digits of a value: what the object's [d] and [e] hold. *)
Definition normal (x : Decimal) : Decimal :=
  match x with
  | Num s c e => let '(c', e') := strip c e in Num s c' e'
  | _ => x
  end.

(** [new Decimal(n)] for an integer literal: exact, never rounded. *)
Definition of_Z (n : Z) : Decimal :=
  match n with
  | Z0 => Zero Positive
  | Zpos c => let '(c', e') := strip c 0 in Num Positive c' e'
  | Zneg c => let '(c', e') := strip c 0 in Num Negative c' e'
  end.

(** *** Predicates and comparison *)

Definition isNaN (x : Decimal) : bool :=
  match x with NaN => true | _ => false end.

Definition isZero (x : Decimal) : bool :=
  match x with Zero _ => true | _ => false end.

Definition isFinite (x : Decimal) : bool :=
  match x with Zero _ | Num _ _ _ => true | _ => false end.

(** The field [s]; [None] is the NaN sign. *)
Definition sign_of (x : Decimal) : option sign :=
  match x with
  | NaN => None
  | Inf s | Zero s | Num s _ _ => Some s
  end.

(** Both coefficients on the smaller of the two exponents. *)
Definition align (c1 : Z) (e1 : Z) (c2 : Z) (e2 : Z) : Z * Z * Z :=
  let k := Z.min e1 e2 in
  (c1 * 10 ^ (e1 - k), c2 * 10 ^ (e2 - k), k).

Definition cmp_sign (s : sign) : comparison :=
  match s with Positive => Gt | Negative => Lt end.

(** [x.cmp(y)]: [None] is decimal.js's NaN result. *)
Definition cmp (x y : Decimal) : option comparison :=
  match x, y with
  | NaN, _ | _, NaN => None
  | Inf sx, Inf sy =>
      Some (if sign_eqb sx sy then Eq else cmp_sign sx)
  | Inf sx, _ => Some (cmp_sign sx)
  | _, Inf sy => Some (cmp_sign (sign_neg sy))
  | Zero _, Zero _ => Some Eq
  | Zero _, Num sy _ _ => Some (cmp_sign (sign_neg sy))
  | Num sx _ _, Zero _ => Some (cmp_sign sx)
  | Num sx cx ex, Num sy cy ey =>
      let '(a, b, _) := align (signed sx (Z.pos cx)) ex (signed sy (Z.pos cy)) ey in
      Some (a ?= b)
  end.

(** [eq]/[equals], [lt]/[lessThan], [gt]/[greaterThan], [lte], [gte]. *)
Definition eq (x y : Decimal) : bool :=
  match cmp x y with Some Eq => true | _ => false end.

Definition lt (x y : Decimal) : bool :=
  match cmp x y with Some Lt => true | _ => false end.

Definition gt (x y : Decimal) : bool :=
  match cmp x y with Some Gt => true | _ => false end.

Definition lte (x y : Decimal) : bool :=
  match cmp x y with Some Lt | Some Eq => true | _ => false end.

Definition gte (x y : Decimal) : bool :=
  match cmp x y with Some Gt | Some Eq => true | _ => false end.

(** [x.isInt()]: finite with no fractional part. *)
Definition isInt (x : Decimal) : bool :=
  match x with
  | NaN | Inf _ => false
  | Zero _ => true
  | Num _ c e => (0 <=? e) || (Z.pos c mod 10 ^ (- e) =? 0)
  end.

(** [x] holds the integer [n].  decimal.js keeps no trailing zero among
    the digits, so an integer is stored with a non-negative exponent. *)
Definition integer (x : Decimal) (n : Z) : Prop :=
  match x with
  | NaN | Inf _ => False
  | Zero _ => n = 0
  | Num s c e => 0 <= e /\ n = signed s (Z.pos c) * 10 ^ e
  end.

(** [neg] and [abs] flip or clear the sign and never round. *)
Definition neg (x : Decimal) : Decimal :=
  match x with
  | NaN => NaN
  | Inf s => Inf (sign_neg s)
  | Zero s => Zero (sign_neg s)
  | Num s c e => Num (sign_neg s) c e
  end.

Definition abs (x : Decimal) : Decimal :=
  match x with
  | NaN => NaN
  | Inf _ => Inf Positive
  | Zero _ => Zero Positive
  | Num _ c e => Num Positive c e
  end.

(** *** Exact results

    The sum, difference and product before rounding, with decimal.js's
    case analyses on NaN, the infinities and the signed zeros. *)

Definition add_exact (x y : Decimal) : Decimal :=
  match x, y with
  | NaN, _ | _, NaN => NaN
  | Inf sx, Inf sy => if sign_eqb sx sy then Inf sx else NaN
  | Inf sx, _ => Inf sx
  | _, Inf sy => Inf sy
  | Zero sx, Zero sy => if sign_eqb sx sy then Zero sx else Zero Positive
  | Zero _, Num _ _ _ => y
  | Num _ _ _, Zero _ => x
  | Num sx cx ex, Num sy cy ey =>
      let '(a, b, k) := align (signed sx (Z.pos cx)) ex (signed sy (Z.pos cy)) ey in
      of_mantissa Positive (a + b) k
  end.

Definition sub_exact (x y : Decimal) : Decimal :=
  match x, y with
  | NaN, _ | _, NaN => NaN
  | Inf sx, Inf sy => if sign_eqb sx sy then NaN else Inf sx
  | Inf sx, _ => Inf sx
  | _, Inf sy => Inf (sign_neg sy)
  | Zero sx, Zero sy => if sign_eqb sx sy then Zero Positive else Zero sx
  | Zero _, Num sy cy ey => Num (sign_neg sy) cy ey
  | Num _ _ _, Zero _ => x
  | Num sx cx ex, Num sy cy ey =>
      let '(a, b, k) := align (signed sx (Z.pos cx)) ex (signed sy (Z.pos cy)) ey in
      of_mantissa Positive (a - b) k
  end.

Definition mul_exact (x y : Decimal) : Decimal :=
  match x, y with
  | NaN, _ | _, NaN => NaN
  | Inf _, Zero _ | Zero _, Inf _ => NaN
  | Inf sx, Inf sy | Inf sx, Num sy _ _ | Num sx _ _, Inf sy => Inf (sign_mul sx sy)
  | Zero sx, Zero sy | Zero sx, Num sy _ _ | Num sx _ _, Zero sy => Zero (sign_mul sx sy)
  | Num sx cx ex, Num sy cy ey => Num (sign_mul sx sy) (cx * cy) (ex + ey)
  end.

(** *** The engine

    [precision] is Decimal.precision, the number of significant digits
    every arithmetic result is rounded to (decimal.js accepts 1 to 1e9).
    The transcendental methods are the engine's own: the complex layer
    only composes them.  [hypot] is Decimal.hypot, which complex.js
    calls; [mjs_hypot] is math.js's [hypot] on two BigNumbers, which the
    static class calls: another algorithm (it scales by the largest
    argument and rounds at every step), whose results differ from
    those of Decimal.hypot. *)
Class Engine : Type := {
  precision : positive;
  precision_max : (precision <= 1000000000)%positive;
  pow_rest : Decimal -> Decimal -> Decimal;
  ln : Decimal -> Decimal;
  exp : Decimal -> Decimal;
  sin : Decimal -> Decimal;
  cos : Decimal -> Decimal;
  sinh : Decimal -> Decimal;
  cosh : Decimal -> Decimal;
  asin : Decimal -> Decimal;
  acos : Decimal -> Decimal;
  atan2 : Decimal -> Decimal -> Decimal;
  hypot : Decimal -> Decimal -> Decimal;
  mjs_hypot : Decimal -> Decimal -> Decimal
}.

(** *** Rounded arithmetic

    [add], [sub], [mul], [div], [mod] and [sqrt] return the exact result
    rounded once to [precision] significant digits. *)

Section Methods.
Context {eng : Engine}.

Definition pr : Z := Z.pos precision.

Definition add (x y : Decimal) : Decimal := finalise pr (add_exact x y).

Definition sub (x y : Decimal) : Decimal := finalise pr (sub_exact x y).

Definition mul (x y : Decimal) : Decimal := finalise pr (mul_exact x y).

(** [x] has at most [precision] significant digits and an exponent in
    range: rounding returns its value unchanged. *)
Definition representable (x : Decimal) : Prop := finalise pr x = normal x.

(** Long division: enough digits of the quotient for the digit after
    the [pr]-th to be exact. *)
Definition div (x y : Decimal) : Decimal :=
  match x, y with
  | NaN, _ | _, NaN => NaN
  | Inf _, Inf _ | Zero _, Zero _ => NaN
  | Zero sx, Inf sy | Zero sx, Num sy _ _ | Num sx _ _, Inf sy => Zero (sign_mul sx sy)
  | Inf sx, Zero sy | Inf sx, Num sy _ _ | Num sx _ _, Zero sy => Inf (sign_mul sx sy)
  | Num sx cx ex, Num sy cy ey =>
      let j := pr + 1 + ndigits cy in
      finalise pr (of_mantissa (sign_mul sx sy)
        (signed (sign_mul sx sy) (Z.pos cx * 10 ^ j / Z.pos cy)) (ex - ey - j))
  end.

(** [x.mod(y)] with Decimal.modulo at its default ROUND_DOWN: the
    remainder has the sign of the dividend. *)
Definition mod_ (x y : Decimal) : Decimal :=
  match x, y with
  | NaN, _ | Inf _, _ | _, NaN | _, Zero _ => NaN
  | Zero _, _ => x
  | Num sx cx ex, Inf _ => finalise_num pr sx cx ex
  | Num sx cx ex, Num sy cy ey =>
      let '(a, b, k) := align (signed sx (Z.pos cx)) ex (signed sy (Z.pos cy)) ey in
      finalise pr (of_mantissa Positive (Z.rem a b) k)
  end.

(** [x.sqrt()]: correctly rounded; NaN below zero, and the zeros and
    +Infinity are returned as they are. *)
Definition sqrt (x : Decimal) : Decimal :=
  match x with
  | NaN | Inf Negative | Num Negative _ _ => NaN
  | Inf Positive | Zero _ => x
  | Num Positive c e =>
      let '(c', e') := if Z.even e then (Z.pos c, e) else (Z.pos c * 10, e - 1) in
      let k := pr + 1 in
      finalise pr (of_mantissa Positive (Z.sqrt (c' * 10 ^ (2 * k))) (e' / 2 - k))
  end.

(** [x.pow(y)].  decimal.js hands NaN, infinite and zero operands to
    [Math.pow], returns [x] when [x] is 1, [finalise(x)] when [y] is 1,
    and squares by one exact product rounded once.  Those of these cases
    the complex layer reaches with an exponent that is zero, NaN or 2 are
    modelled; [pow_rest] is the engine on all other operands. *)
Definition pow (x y : Decimal) : Decimal :=
  match y with
  | Zero _ => of_Z 1
  | NaN => NaN
  | Inf _ => match x with NaN => NaN | _ => pow_rest x y end
  | Num _ _ _ =>
      match x with
      | NaN => if eq y (of_Z 2) then NaN else pow_rest x y
      | Zero _ => if eq y (of_Z 2) then Zero Positive else pow_rest x y
      | Inf _ => if eq y (of_Z 2) then Inf Positive else pow_rest x y
      | Num sx cx ex =>
          if eq x (of_Z 1) then x
          else if eq y (of_Z 1) then finalise_num pr sx cx ex
          else if eq y (of_Z 2) then finalise_num pr Positive (cx * cx) (ex + ex)
          else pow_rest x y
      end
  end.

(** [x.toSignificantDigits(sd)]: [finalise] to [sd] digits with the
    configured rounding mode, and to [precision] digits when [sd] is
    left out.  decimal.js refuses an [sd] that is not an integer from 1
    to MAX_DIGITS = 1e9 with a DecimalError: [None]. *)
Definition toSignificantDigits (x : Decimal) (sd : option Z) : option Decimal :=
  match sd with
  | None => Some (finalise pr x)
  | Some d => if (1 <=? d) && (d <=? 1000000000) then Some (finalise d x) else None
  end.

End Methods.

(** *** The sign field

    The complex classes assign to [x.s].  On an object without digits
    (NaN or an infinity) a sign of 1 or -1 leaves an infinity: NaN differs
    from Infinity by its sign alone.  An object whose [s] is NaN is NaN
    to decimal.js ([isNaN] tests [!this.s]). *)
Definition set_sign (s : sign) (x : Decimal) : Decimal :=
  match x with
  | NaN | Inf _ => Inf s
  | Zero _ => Zero s
  | Num _ c e => Num s c e
  end.

Definition assign_sign (s : option sign) (x : Decimal) : Decimal :=
  match s with
  | Some s' => set_sign s' x
  | None => NaN
  end.

(** *** Strings *)

Fixpoint zeros (n : nat) : string :=
  match n with O => EmptyString | S k => String "0" (zeros k) end.

Definition digits_string (c : positive) : string :=
  NilZero.string_of_uint (Pos.to_uint c).

Definition int_string (z : Z) : string :=
  NilZero.string_of_int (Z.to_int z).

(** [finiteToString(x, isExp)] without the sign. *)
Definition finite_string (c : positive) (e : Z) : string :=
  let '(c0, e0) := strip c e in
  let str := digits_string c0 in
  let n := String.length str in
  let len := Z.of_nat n in
  let ex := e0 + len - 1 in
  let point := Z.to_nat (ex + 1) in
  if (ex <=? toExpNeg) || (toExpPos <=? ex) then
    let mantissa :=
      if 1 <? len
      then (substring 0 1 str ++ "." ++ substring 1 (n - 1) str)%string
      else str in
    let mark := if ex <? 0 then "e"%string else "e+"%string in
    (mantissa ++ mark ++ int_string ex)%string
  else if ex <? 0 then
    ("0." ++ zeros (Z.to_nat (- ex - 1)) ++ str)%string
  else if len <=? ex then
    (str ++ zeros (Z.to_nat (ex + 1 - len)))%string
  else if ex + 1 <? len then
    (substring 0 point str ++ "." ++ substring point (n - point) str)%string
  else str.

Definition unsigned_string (x : Decimal) : string :=
  match x with
  | NaN => "NaN"
  | Inf _ => "Infinity"
  | Zero _ => "0"
  | Num _ c e => finite_string c e
  end.

(** [x.toString()]: a minus sign only on a negative non-zero value. *)
Definition toString (x : Decimal) : string :=
  match x with
  | Inf Negative | Num Negative _ _ => ("-" ++ unsigned_string x)%string
  | _ => unsigned_string x
  end.

(** [x.valueOf()], what string concatenation calls: as [toString], and
    negative zero keeps its sign. *)
Definition valueOf (x : Decimal) : string :=
  match x with
  | Zero Negative => "-0"
  | _ => toString x
  end.

End Dec.

(* ================================================================== *)
(** ** Outcomes of a call

    A method either returns or throws; the only throws in the two
    classes are TypeErrors of the JavaScript runtime and of the
    constructor's conversion. *)
Inductive error : Type := TypeError.

Inductive outcome (A : Type) : Type :=
| Returned (a : A)
| Thrown (e : error).
Arguments Returned {A} a.
Arguments Thrown {A} e.

(* ================================================================== *)
(** ** src/complex.js with src/constants.js *)
Module Instance.

(** [new Complex(re, im)] stores [new Decimal(re)] and [new Decimal(im)],
    copies of the Decimals it is given. *)
Record Complex : Type := mk { re : Decimal; im : Decimal }.

Definition ZERO : Decimal := Dec.of_Z 0.
Definition ONE_HALF : Decimal := Num Positive 5 (-1).
Definition NEG_ONE : Decimal := Dec.of_Z (-1).
Definition ONE : Decimal := Dec.of_Z 1.
Definition TWO : Decimal := Dec.of_Z 2.
Definition THREE : Decimal := Dec.of_Z 3.
Definition FOUR : Decimal := Dec.of_Z 4.
Definition TEN : Decimal := Dec.of_Z 10.

Definition I : Complex := mk ZERO ONE.
Definition NEG_I : Complex := mk ZERO NEG_ONE.

(** The class declares no static member. *)
Definition static_member (name : string) : option (Complex -> Complex -> Complex) :=
  None.

Section Methods.
Context {eng : Dec.Engine}.

Definition PI_OVER_TWO : Decimal := Dec.acos ZERO.
Definition E : Decimal := Dec.exp ONE.

Definition clone (this : Complex) : Complex := mk (re this) (im this).

Definition eq (this other : Complex) : bool :=
  Dec.eq (re this) (re other) && Dec.eq (im this) (im other).

Definition add (this other : Complex) : Complex :=
  mk (Dec.add (re this) (re other)) (Dec.add (im this) (im other)).

Definition sub (this other : Complex) : Complex :=
  mk (Dec.sub (re this) (re other)) (Dec.sub (im this) (im other)).

Definition mul (this other : Complex) : Complex :=
  mk (Dec.sub (Dec.mul (re this) (re other)) (Dec.mul (im this) (im other)))
     (Dec.add (Dec.mul (re this) (im other)) (Dec.mul (im this) (re other))).

Definition div (this other : Complex) : Complex :=
  let denominatorSum := Dec.add (Dec.pow (re other) TWO) (Dec.pow (im other) TWO) in
  mk (Dec.div (Dec.add (Dec.mul (re this) (re other)) (Dec.mul (im this) (im other)))
              denominatorSum)
     (Dec.div (Dec.sub (Dec.mul (im this) (re other)) (Dec.mul (re this) (im other)))
              denominatorSum).

Definition recip (this : Complex) : Complex :=
  let denominatorSum := Dec.add (Dec.pow (re this) TWO) (Dec.pow (im this) TWO) in
  mk (Dec.div (re this) denominatorSum)
     (Dec.div (Dec.neg (im this)) denominatorSum).

Definition mod_ (this : Complex) : Decimal := Dec.hypot (re this) (im this).

Definition arg (this : Complex) : Decimal := Dec.atan2 (im this) (re this).

(** The statements of [pow] after the fast path. *)
Definition pow_general (this other : Complex) : Complex :=
  let r := mod_ this in
  let cArg := arg this in
  let leftFactor :=
    Dec.mul (Dec.pow r (re other)) (Dec.pow E (Dec.neg (Dec.mul (im other) cArg))) in
  let ratio :=
    Dec.add (Dec.mul (re other) cArg)
            (Dec.div (Dec.mul (im other) (Dec.ln (Dec.pow r TWO))) TWO) in
  mk (Dec.mul (Dec.cos ratio) leftFactor) (Dec.mul (Dec.sin ratio) leftFactor).

Definition pow (this other : Complex) : Complex :=
  if Dec.eq (re this) ZERO && Dec.eq (im other) ZERO && Dec.isInt (re other) then
    let pow := Dec.pow (im this) (re other) in
    if Dec.eq (Dec.mod_ (re other) FOUR) ZERO then
      mk pow ZERO
    else if Dec.eq (Dec.mod_ (Dec.add (re other) ONE) FOUR) ZERO then
      mk ZERO (Dec.mul NEG_ONE pow)
    else if Dec.eq (Dec.mod_ (re other) TWO) ZERO then
      mk (Dec.mul NEG_ONE pow) ZERO
    else if Dec.eq (Dec.mod_ (Dec.add (re other) THREE) FOUR) ZERO then
      mk ZERO pow
    else pow_general this other
  else pow_general this other.

Definition sqrt (this : Complex) : Complex :=
  if Dec.eq (im this) ZERO then
    if Dec.gte (re this) ZERO then mk (Dec.sqrt (re this)) ZERO
    else mk ZERO (Dec.sqrt (Dec.abs (re this)))
  else pow this (mk ONE_HALF ZERO).

Definition conj (this : Complex) : Complex := mk (re this) (Dec.neg (im this)).

Definition ln (this : Complex) : Complex := mk (Dec.ln (mod_ this)) (arg this).

(** [log] calls [Complex.divide]; the callee is looked up among the
    static members of the class after the arguments are evaluated, and
    calling what is not a function is a TypeError. *)
Definition log (this : Complex) (n : option Complex) : outcome Complex :=
  let n := match n with Some n' => n' | None => mk TEN ZERO end in
  match static_member "divide" with
  | Some divide => Returned (divide (ln this) (ln n))
  | None => Thrown TypeError
  end.

Definition lerp (this other : Complex) (t : Decimal) : Complex :=
  let ratio := Dec.sub ONE t in
  mk (Dec.add (Dec.mul ratio (re this)) (Dec.mul t (re other)))
     (Dec.add (Dec.mul ratio (im this)) (Dec.mul t (im other))).

(** The real part is rounded first; an argument decimal.js refuses ends
    the call there. *)
Definition toSignificantDigits (this : Complex) (d : option Z) : option Complex :=
  match Dec.toSignificantDigits (re this) d with
  | None => None
  | Some re' =>
      match Dec.toSignificantDigits (im this) d with
      | None => None
      | Some im' => Some (mk re' im')
      end
  end.

Definition sin (this : Complex) : Complex :=
  mk (Dec.mul (Dec.sin (re this)) (Dec.cosh (im this)))
     (Dec.mul (Dec.cos (re this)) (Dec.sinh (im this))).

Definition cos (this : Complex) : Complex :=
  mk (Dec.mul (Dec.cos (re this)) (Dec.cosh (im this)))
     (Dec.neg (Dec.mul (Dec.sin (re this)) (Dec.sinh (im this)))).

Definition tan (this : Complex) : Complex := div (sin this) (cos this).
Definition csc (this : Complex) : Complex := recip (sin this).
Definition sec (this : Complex) : Complex := recip (cos this).
Definition cot (this : Complex) : Complex := recip (tan this).

(** The test that decides [result.im.s = -1] in [asin]. *)
Definition asin_flips (this : Complex) : bool :=
  Dec.lt (im this) ZERO || (Dec.gt (re this) ZERO && Dec.lte (im this) ZERO).

Definition asin (this : Complex) : Complex :=
  let rePositive := Dec.pow (Dec.add ONE (re this)) TWO in
  let reNegative := Dec.pow (Dec.sub ONE (re this)) TWO in
  let imSquared := Dec.pow (im this) TWO in
  let leftSquared := Dec.sqrt (Dec.add rePositive imSquared) in
  let rightSquared := Dec.sqrt (Dec.add reNegative imSquared) in
  let a := Dec.div (Dec.sub leftSquared rightSquared) TWO in
  let b := Dec.div (Dec.add leftSquared rightSquared) TWO in
  let result :=
    mk (Dec.asin a)
       (Dec.ln (Dec.add b (Dec.sqrt (Dec.sub (Dec.pow b TWO) ONE)))) in
  if asin_flips this
  then mk (re result) (Dec.set_sign Negative (im result))
  else result.

Definition acos (this : Complex) : Complex :=
  sub (mk PI_OVER_TWO ZERO) (asin this).

Definition atan (this : Complex) : Complex :=
  let reSquared := Dec.pow (re this) TWO in
  let imSquared := Dec.pow (im this) TWO in
  mk (Dec.div (Dec.atan2 (Dec.mul (re this) TWO)
                         (Dec.sub (Dec.sub ONE reSquared) imSquared))
              TWO)
     (Dec.div (Dec.ln (Dec.div
                 (Dec.add reSquared (Dec.pow (Dec.add ONE (im this)) TWO))
                 (Dec.add reSquared (Dec.pow (Dec.sub ONE (im this)) TWO))))
              FOUR).

Definition acsc (this : Complex) : Complex := asin (recip this).
Definition asec (this : Complex) : Complex := acos (recip this).
Definition acot (this : Complex) : Complex := atan (recip this).

Definition sinh (this : Complex) : Complex :=
  mk (Dec.mul (Dec.sinh (re this)) (Dec.cos (im this)))
     (Dec.mul (Dec.cosh (re this)) (Dec.sin (im this))).

Definition cosh (this : Complex) : Complex :=
  mk (Dec.mul (Dec.cosh (re this)) (Dec.cos (im this)))
     (Dec.mul (Dec.sinh (re this)) (Dec.sin (im this))).

Definition tanh (this : Complex) : Complex := div (sinh this) (cosh this).
Definition csch (this : Complex) : Complex := recip (sinh this).
Definition sech (this : Complex) : Complex := recip (cosh this).
Definition coth (this : Complex) : Complex := recip (tanh this).

Definition asinh (this : Complex) : Complex :=
  let result := mul (asin (mul this I)) NEG_I in
  let re' :=
    if Dec.eq (re this) ZERO && Dec.lt (im this) ZERO
    then Dec.set_sign Negative (re result)
    else Dec.assign_sign (Dec.sign_of (re this)) (re result) in
  mk re' (Dec.assign_sign (Dec.sign_of (im this)) (im result)).

Definition acosh (this : Complex) : Complex :=
  let num := sqrt (sub this (mk ONE ZERO)) in
  let den := sqrt (sub (mk ONE ZERO) this) in
  mul (div num den) (acos this).

Definition atanh (this : Complex) : Complex := mul (atan (mul this I)) NEG_I.

Definition acsch (this : Complex) : Complex := asinh (recip this).
Definition asech (this : Complex) : Complex := acosh (recip this).
Definition acoth (this : Complex) : Complex := atanh (recip this).

Definition toJSON (this : Complex) : string * string :=
  (Dec.toString (re this), Dec.toString (im this)).

(** [this.im + 'i'] and the like concatenate [valueOf()]. *)
Definition toString (this : Complex) : string :=
  if Dec.eq (im this) ZERO then Dec.toString (re this)
  else if Dec.eq (re this) ZERO then (Dec.valueOf (im this) ++ "i")%string
  else
    let str := Dec.toString (re this) in
    let str :=
      if Dec.lt (im this) ZERO
      then (str ++ " - " ++ Dec.valueOf (Dec.abs (im this)))%string
      else (str ++ " + " ++ Dec.valueOf (im this))%string in
    (str ++ "i")%string.

End Methods.
End Instance.

(* ================================================================== *)
(** ** src/unnamed/part_001 with the constants of src/unnamed/part_002

    [mJS] is math.js working on BigNumbers, which are decimal.js
    Decimals: [mJS.add(x, y)] is [x.plus(y)], [mJS.bignumber(x)] returns
    the BigNumber [x] itself, and likewise for [subtract], [divide],
    [pow], [sqrt], [sin], [cos], [asin], [atan2].  [mJS.hypot] is not
    Decimal.hypot: math.js has its own algorithm, the engine's
    [mjs_hypot].  The free functions [ln], [sinh], [cosh] and [atan2]
    the file calls are the engine's methods of the same name. *)
Module Static.

Record Complex : Type := mk { real : Decimal; imaginary : Decimal }.

(** What a static function accepts: a Decimal or a Complex. *)
Inductive value : Type :=
| VDecimal (d : Decimal)
| VComplex (c : Complex).
Coercion VDecimal : Decimal >-> value.
Coercion VComplex : Complex >-> value.

(** An argument of the constructor: a property the object does not have
    reads as [undefined]. *)
Inductive jsvalue : Type :=
| JUndefined
| JDecimal (d : Decimal).

Definition NAN : Decimal := NaN.
Definition INFINITY : Decimal := Inf Positive.
Definition ZERO : Decimal := Dec.of_Z 0.
Definition ONE_HALF : Decimal := Num Positive 5 (-1).
Definition NEG_ONE : Decimal := Dec.of_Z (-1).
Definition ONE : Decimal := Dec.of_Z 1.
Definition TWO : Decimal := Dec.of_Z 2.
Definition THREE : Decimal := Dec.of_Z 3.
Definition FOUR : Decimal := Dec.of_Z 4.
Definition TEN : Decimal := Dec.of_Z 10.

(** [new Complex(real, imaginary)]: [mJS.bignumber] has no conversion
    for [undefined] and throws. *)
Definition construct (real imaginary : jsvalue) : outcome Complex :=
  match real, imaginary with
  | JDecimal r, JDecimal i => Returned (mk r i)
  | _, _ => Thrown TypeError
  end.

(** [c.INFINITY]: a Complex has the fields [real] and [imaginary] and the
    methods of its prototype, and no property [INFINITY]. *)
Definition get_INFINITY (c : Complex) : jsvalue := JUndefined.

(** [Complex.i], [Complex.neg_i], [Complex.zero], [Complex.nan],
    [Complex.infinity]. *)
Definition i : Complex := mk ZERO ONE.
Definition neg_i : Complex := mk ZERO NEG_ONE.
Definition zero : Complex := mk ZERO ZERO.
Definition nan : Complex := mk NAN NAN.
Definition infinity : Complex := mk INFINITY INFINITY.

Definition convertToComplex (v : value) : Complex :=
  match v with
  | VComplex c => c
  | VDecimal d => mk d ZERO
  end.

Definition equals (c1 c2 : Complex) : bool :=
  Dec.eq (real c1) (real c2) && Dec.eq (imaginary c1) (imaginary c2).

Section Methods.
Context {eng : Dec.Engine}.

Definition PI_OVER_TWO : Decimal := Dec.div (Dec.acos (Dec.of_Z (-1))) (Dec.of_Z 2).
Definition E : Decimal := Dec.exp (Dec.of_Z 1).

Definition approxEquals (c1 c2 : Complex) : bool :=
  Dec.lt (Dec.abs (Dec.sub (real c1) (real c2))) (Num Positive 1 (-6))
  && Dec.lt (Dec.abs (Dec.sub (imaginary c1) (imaginary c2))) (Num Positive 1 (-6)).

Definition add (c1 c2 : value) : Complex :=
  let c1 := convertToComplex c1 in
  let c2 := convertToComplex c2 in
  mk (Dec.add (real c1) (real c2)) (Dec.add (imaginary c1) (imaginary c2)).

Definition subtract (c1 c2 : value) : Complex :=
  let c1 := convertToComplex c1 in
  let c2 := convertToComplex c2 in
  mk (Dec.sub (real c1) (real c2)) (Dec.sub (imaginary c1) (imaginary c2)).

Definition multiply (c1 c2 : value) : Complex :=
  let c1 := convertToComplex c1 in
  let c2 := convertToComplex c2 in
  let real' :=
    Dec.add (Dec.neg (Dec.mul (imaginary c1) (imaginary c2)))
            (Dec.mul (real c1) (real c2)) in
  let imaginary' :=
    Dec.add (Dec.mul (imaginary c1) (real c2)) (Dec.mul (real c1) (imaginary c2)) in
  mk real' imaginary'.

Definition divide (c1 c2 : value) : Complex :=
  let c1 := convertToComplex c1 in
  let c2 := convertToComplex c2 in
  let denominatorSum := Dec.add (Dec.pow (real c2) TWO) (Dec.pow (imaginary c2) TWO) in
  let real' :=
    Dec.div (Dec.add (Dec.mul (real c1) (real c2)) (Dec.mul (imaginary c1) (imaginary c2)))
            denominatorSum in
  let imaginary' :=
    Dec.div (Dec.sub (Dec.mul (imaginary c1) (real c2)) (Dec.mul (real c1) (imaginary c2)))
            denominatorSum in
  mk real' imaginary'.

Definition mod_ (this : Complex) : Decimal := Dec.mjs_hypot (real this) (imaginary this).

Definition arg (this : Complex) : Decimal := Dec.atan2 (imaginary this) (real this).

Definition conj (this : Complex) : Complex := mk (real this) (Dec.neg (imaginary this)).

(** The statements of [exponent] after the fast path. *)
Definition exponent_general (c p : Complex) : Complex :=
  let r := mod_ c in
  let cArg := arg c in
  let leftFactor :=
    Dec.mul (Dec.pow r (real p)) (Dec.pow E (Dec.neg (Dec.mul (imaginary p) cArg))) in
  let ratio :=
    Dec.add (Dec.mul (real p) cArg)
            (Dec.div (Dec.mul (imaginary p) (Dec.ln (Dec.pow r TWO))) TWO) in
  mk (Dec.mul (Dec.cos ratio) leftFactor) (Dec.mul (Dec.sin ratio) leftFactor).

Definition exponent (c p : value) : Complex :=
  let c := convertToComplex c in
  let p := convertToComplex p in
  if Dec.eq (real c) ZERO && Dec.eq (imaginary p) ZERO && Dec.isInt (real p) then
    let pow := Dec.pow (imaginary c) (real p) in
    if Dec.eq (Dec.mod_ (real p) FOUR) ZERO then
      mk pow ZERO
    else if Dec.eq (Dec.mod_ (Dec.add (real p) ONE) FOUR) ZERO then
      mk ZERO (Dec.mul NEG_ONE pow)
    else if Dec.eq (Dec.mod_ (real p) TWO) ZERO then
      mk (Dec.mul NEG_ONE pow) ZERO
    else if Dec.eq (Dec.mod_ (Dec.add (real p) THREE) FOUR) ZERO then
      mk ZERO pow
    else exponent_general c p
  else exponent_general c p.

Definition sqrt (c : value) : Complex :=
  let c := convertToComplex c in
  if Dec.eq (imaginary c) ZERO then
    if Dec.gte (real c) ZERO then mk (Dec.sqrt (real c)) ZERO
    else mk ZERO (Dec.sqrt (Dec.abs (real c)))
  else exponent c ONE_HALF.

Definition ln (c : value) : Complex :=
  let c := convertToComplex c in
  mk (Dec.ln (mod_ c)) (arg c).

Definition log (c : value) (b : option value) : Complex :=
  let b := match b with Some b' => b' | None => VDecimal TEN end in
  let c := convertToComplex c in
  let b := convertToComplex b in
  divide (ln c) (ln b).

Definition sin (c : value) : Complex :=
  let c := convertToComplex c in
  mk (Dec.mul (Dec.sin (real c)) (Dec.cosh (imaginary c)))
     (Dec.mul (Dec.cos (real c)) (Dec.sinh (imaginary c))).

Definition cos (c : value) : Complex :=
  let c := convertToComplex c in
  mk (Dec.mul (Dec.cos (real c)) (Dec.cosh (imaginary c)))
     (Dec.neg (Dec.mul (Dec.sin (real c)) (Dec.sinh (imaginary c)))).

Definition tan (c : value) : Complex := divide (sin c) (cos c).
Definition csc (c : value) : Complex := divide ONE (sin c).
Definition sec (c : value) : Complex := divide ONE (cos c).
Definition cot (c : value) : Complex := divide ONE (tan c).

Definition asin_flips (c : Complex) : bool :=
  Dec.lt (imaginary c) ZERO || (Dec.gt (real c) ZERO && Dec.lte (imaginary c) ZERO).

Definition asin (c : value) : Complex :=
  let c := convertToComplex c in
  let realPos := Dec.pow (Dec.add ONE (real c)) TWO in
  let realNeg := Dec.pow (Dec.sub ONE (real c)) TWO in
  let imSquared := Dec.pow (imaginary c) TWO in
  let leftSquared := Dec.sqrt (Dec.add realPos imSquared) in
  let rightSquared := Dec.sqrt (Dec.add realNeg imSquared) in
  let a := Dec.div (Dec.sub leftSquared rightSquared) TWO in
  let b := Dec.div (Dec.add leftSquared rightSquared) TWO in
  let result :=
    mk (Dec.asin a)
       (Dec.ln (Dec.add b (Dec.sqrt (Dec.sub (Dec.pow b TWO) ONE)))) in
  if asin_flips c
  then mk (real result) (Dec.set_sign Negative (imaginary result))
  else result.

Definition acos (c : value) : Complex := subtract PI_OVER_TWO (asin c).

Definition atan (c : value) : Complex :=
  let c := convertToComplex c in
  let realSquared := Dec.pow (real c) TWO in
  let imSquared := Dec.pow (imaginary c) TWO in
  mk (Dec.div (Dec.atan2 (Dec.mul (real c) TWO)
                         (Dec.sub (Dec.sub ONE realSquared) imSquared))
              TWO)
     (Dec.div (Dec.ln (Dec.div
                 (Dec.add realSquared (Dec.pow (Dec.add ONE (imaginary c)) TWO))
                 (Dec.add realSquared (Dec.pow (Dec.sub ONE (imaginary c)) TWO))))
              FOUR).

Definition acsc (c : value) : Complex := asin (divide ONE c).
Definition asec (c : value) : Complex := acos (divide ONE c).
Definition acot (c : value) : Complex := atan (divide ONE c).

Definition sinh (c : value) : Complex :=
  let c := convertToComplex c in
  mk (Dec.mul (Dec.sinh (real c)) (Dec.cos (imaginary c)))
     (Dec.mul (Dec.cosh (real c)) (Dec.sin (imaginary c))).

Definition cosh (c : value) : Complex :=
  let c := convertToComplex c in
  mk (Dec.mul (Dec.cosh (real c)) (Dec.cos (imaginary c)))
     (Dec.mul (Dec.sinh (real c)) (Dec.sin (imaginary c))).

Definition tanh (c : value) : Complex := divide (sinh c) (cosh c).
Definition csch (c : value) : Complex := divide ONE (sinh c).
Definition sech (c : value) : Complex := divide ONE (cosh c).
Definition coth (c : value) : Complex := divide ONE (tanh c).

Definition asinh (c : value) : Complex :=
  let c := convertToComplex c in
  let result := multiply neg_i (asin (multiply i c)) in
  let real' :=
    if Dec.eq (real c) ZERO && Dec.lt (imaginary c) ZERO
    then Dec.set_sign Negative (real result)
    else Dec.assign_sign (Dec.sign_of (real c)) (real result) in
  mk real' (Dec.assign_sign (Dec.sign_of (imaginary c)) (imaginary result)).

Definition acosh (c : value) : Complex :=
  multiply
    (divide (exponent (subtract c ONE) ONE_HALF) (exponent (subtract ONE c) ONE_HALF))
    (acos c).

Definition atanh (c : value) : Complex := multiply neg_i (atan (multiply i c)).

(** The reciprocal the three functions below pass on. *)
Definition reciprocal_of (c : Complex) : Complex :=
  let sum := Dec.add (Dec.pow (real c) TWO) (Dec.pow (imaginary c) TWO) in
  mk (Dec.div (real c) sum) (Dec.neg (Dec.div (imaginary c) sum)).

Definition acsch (c : value) : outcome Complex :=
  let c := convertToComplex c in
  if Dec.eq (imaginary c) ZERO then
    construct
      (if Dec.eq (real c) ZERO
       then get_INFINITY c
       else JDecimal (Dec.ln (Dec.add (real c)
                                (Dec.sqrt (Dec.add (Dec.pow (real c) TWO) ONE)))))
      (JDecimal ZERO)
  else Returned (asinh (reciprocal_of c)).

Definition asech (c : value) : Complex :=
  let c := convertToComplex c in
  let imIsZero := Dec.eq (imaginary c) ZERO in
  if Dec.eq (real c) ZERO && imIsZero then infinity
  else
    let result := acosh (reciprocal_of c) in
    if Dec.lt (real c) ZERO && imIsZero
    then mk (real result) (Dec.set_sign Positive (imaginary result))
    else result.

Definition acoth (c : value) : Complex :=
  let c := convertToComplex c in
  if Dec.eq (real c) ZERO && Dec.eq (imaginary c) ZERO then mk ZERO PI_OVER_TWO
  else atanh (reciprocal_of c).

Definition lerp (c1 c2 : value) (t : Decimal) : Complex :=
  let c1 := convertToComplex c1 in
  let c2 := convertToComplex c2 in
  let ratio := Dec.sub ONE t in
  mk (Dec.add (Dec.mul ratio (real c1)) (Dec.mul t (real c2)))
     (Dec.add (Dec.mul ratio (imaginary c1)) (Dec.mul t (imaginary c2))).

End Methods.

Definition toJSON (this : Complex) : string * string :=
  (Dec.toString (real this), Dec.toString (imaginary this)).

Definition toString (this : Complex) : string :=
  if Dec.eq (imaginary this) ZERO then Dec.toString (real this)
  else
    let str := "i"%string in
    let str :=
      if Dec.eq (imaginary this) NEG_ONE then "-i"%string
      else if negb (Dec.eq (imaginary this) ONE)
           then (Dec.valueOf (imaginary this) ++ str)%string
           else str in
    if Dec.gt (real this) ZERO then (str ++ "+" ++ Dec.valueOf (real this))%string
    else if Dec.lt (real this) ZERO
         then (str ++ "-" ++ Dec.valueOf (Dec.abs (real this)))%string
         else str.

End Static.

(* ================================================================== *)
(** ** decimal.js as the README runs it

    Decimal.precision at its default of 20 digits.  Of the
    transcendental methods the instance records the two results behind
    the README's [r.asin()] example, [asin(1)] and [ln(2 + sqrt(3))],
    and the two behind the constants PI_OVER_TWO of the two constant
    modules, [acos(-1)] and [acos(0)]; every other transcendental result
    is left as NaN, and no closed example below depends on one. *)
Module Readme.

Definition asin_of_one : Decimal := Num Positive 15707963267948966192 (-19).
Definition ln_arg : Decimal := Num Positive 37320508075688772935 (-19).
Definition ln_value : Decimal := Num Positive 13169578969248167086 (-19).
Definition acos_of_minus_one : Decimal := Num Positive 31415926535897932385 (-19).
Definition acos_of_zero : Decimal := Num Positive 15707963267948966192 (-19).

Definition precision_20_max : (20 <= 1000000000)%positive.
Proof. discriminate. Defined.

Definition engine : Dec.Engine :=
  {| Dec.precision := 20;
     Dec.precision_max := precision_20_max;
     Dec.pow_rest := fun _ _ => NaN;
     Dec.ln := fun x => if Dec.eq x ln_arg then ln_value else NaN;
     Dec.exp := fun _ => NaN;
     Dec.sin := fun _ => NaN;
     Dec.cos := fun _ => NaN;
     Dec.sinh := fun _ => NaN;
     Dec.cosh := fun _ => NaN;
     Dec.asin := fun x => if Dec.eq x (Dec.of_Z 1) then asin_of_one else NaN;
     Dec.acos := fun x =>
       if Dec.eq x (Dec.of_Z (-1)) then acos_of_minus_one
       else if Dec.isZero x then acos_of_zero
       else NaN;
     Dec.atan2 := fun _ _ => NaN;
     Dec.hypot := fun _ _ => NaN;
     Dec.mjs_hypot := fun _ _ => NaN |}.

End Readme.


(* ================================================================== *)
(** ** Vocabulary of the statements *)

(** An instance value as the static class holds it. *)
Definition lift (z : Instance.Complex) : Static.Complex :=
  Static.mk (Instance.re z) (Instance.im z).

(** The engine as the static class calls it: the same decimal.js, with
    math.js's [hypot] where complex.js calls Decimal.hypot. *)
Definition mathjs_engine (eng : Dec.Engine) : Dec.Engine :=
  {| Dec.precision := @Dec.precision eng;
     Dec.precision_max := @Dec.precision_max eng;
     Dec.pow_rest := @Dec.pow_rest eng;
     Dec.ln := @Dec.ln eng;
     Dec.exp := @Dec.exp eng;
     Dec.sin := @Dec.sin eng;
     Dec.cos := @Dec.cos eng;
     Dec.sinh := @Dec.sinh eng;
     Dec.cosh := @Dec.cosh eng;
     Dec.asin := @Dec.asin eng;
     Dec.acos := @Dec.acos eng;
     Dec.atan2 := @Dec.atan2 eng;
     Dec.hypot := @Dec.mjs_hypot eng;
     Dec.mjs_hypot := @Dec.mjs_hypot eng |}.

(** The powers of i: 1, i, -1, -i, by the residue of the exponent. *)
Definition i_cycle (n : Z) : Instance.Complex :=
  match n mod 4 with
  | 0 => Instance.mk (Dec.of_Z 1) (Dec.of_Z 0)
  | 1 => Instance.mk (Dec.of_Z 0) (Dec.of_Z 1)
  | 2 => Instance.mk (Dec.of_Z (-1)) (Dec.of_Z 0)
  | _ => Instance.mk (Dec.of_Z 0) (Dec.of_Z (-1))
  end.

Section Tables.
Context {eng : Dec.Engine}.

(** The result table of the fast path as the specification words it. *)
Definition spec_fast_path (magnitude : Decimal) (n : Z) : Instance.Complex :=
  match n mod 4 with
  | 0 => Instance.mk magnitude Instance.ZERO
  | 1 => Instance.mk Instance.ZERO (Dec.mul Instance.NEG_ONE magnitude)
  | 2 => Instance.mk (Dec.mul Instance.NEG_ONE magnitude) Instance.ZERO
  | _ => Instance.mk Instance.ZERO magnitude
  end.

(** The result table of the fast path as [pow] computes it; the negated
    magnitude is the engine's product [NEG_ONE.mul(magnitude)]. *)
Definition fast_path (magnitude : Decimal) (n : Z) : Instance.Complex :=
  match n mod 4 with
  | 0 => Instance.mk magnitude Instance.ZERO
  | 1 => Instance.mk Instance.ZERO magnitude
  | 2 => Instance.mk (Dec.mul Instance.NEG_ONE magnitude) Instance.ZERO
  | _ => Instance.mk Instance.ZERO (Dec.mul Instance.NEG_ONE magnitude)
  end.

(** The quantities of [asin] as the specification names them:
    [p = (1+re)^2 + im^2], [q = (1-re)^2 + im^2],
    [a = (sqrt p - sqrt q)/2], [b = (sqrt p + sqrt q)/2]. *)
Definition asin_p (z : Instance.Complex) : Decimal :=
  Dec.add (Dec.pow (Dec.add Instance.ONE (Instance.re z)) Instance.TWO)
          (Dec.pow (Instance.im z) Instance.TWO).

Definition asin_q (z : Instance.Complex) : Decimal :=
  Dec.add (Dec.pow (Dec.sub Instance.ONE (Instance.re z)) Instance.TWO)
          (Dec.pow (Instance.im z) Instance.TWO).

Definition asin_a (z : Instance.Complex) : Decimal :=
  Dec.div (Dec.sub (Dec.sqrt (asin_p z)) (Dec.sqrt (asin_q z))) Instance.TWO.

Definition asin_b (z : Instance.Complex) : Decimal :=
  Dec.div (Dec.add (Dec.sqrt (asin_p z)) (Dec.sqrt (asin_q z))) Instance.TWO.

(** [ln(b + sqrt(b^2 - 1))]. *)
Definition asin_log (z : Instance.Complex) : Decimal :=
  Dec.ln (Dec.add (asin_b z)
                  (Dec.sqrt (Dec.sub (Dec.pow (asin_b z) Instance.TWO) Instance.ONE))).

(** [asin] as the specification words its last step: the imaginary
    component negated when [im < 0] or ([re > 0] and [im <= 0]). *)
Definition spec_asin (z : Instance.Complex) : Instance.Complex :=
  Instance.mk (Dec.asin (asin_a z))
              (if Instance.asin_flips z then Dec.neg (asin_log z) else asin_log z).

End Tables.

(** The value a Decimal holds, apart from its representation: the
    canonical digits, and zero without its sign. *)
Definition canon (x : Decimal) : Decimal :=
  match Dec.normal x with
  | Zero _ => Zero Positive
  | y => y
  end.

(** Linear arithmetic over residues by literal moduli. *)
Ltac residues := Z.to_euclidean_division_equations; lia.

(* ================================================================== *)
(** ** Digits and canonical form *)
Module DecFacts.
Import Dec.

Lemma size_nat_bound (c : positive) : Z.pos c < 2 ^ Z.of_nat (Pos.size_nat c).
Proof.
  induction c as [c IH | c IH | ]; cbn [Pos.size_nat];
    rewrite ?Nat2Z.inj_succ, ?Z.pow_succ_r by lia; lia.
Qed.

Lemma pow10_pos (k : Z) : 0 <= k -> 0 < 10 ^ k.
Proof. intros; apply Z.pow_pos_nonneg; lia. Qed.

Lemma pow10_succ (k : Z) : 0 <= k -> 10 ^ (k + 1) = 10 * 10 ^ k.
Proof. intros; rewrite Z.pow_add_r by lia; lia. Qed.

Lemma strip_aux_spec (f : nat) :
  forall c e, 0 < c ->
    0 < fst (strip_aux f c e)
    /\ e <= snd (strip_aux f c e)
    /\ c = fst (strip_aux f c e) * 10 ^ (snd (strip_aux f c e) - e).
Proof.
  induction f as [| f IH]; intros c e Hc; cbn [strip_aux].
  - cbn [fst snd]. rewrite Z.sub_diag. cbn. lia.
  - destruct (c mod 10 =? 0) eqn:E.
    + apply Z.eqb_eq in E.
      assert (Hd : c = 10 * (c / 10)) by (pose proof (Z_div_mod_eq_full c 10); lia).
      assert (Hq : 0 < c / 10) by lia.
      destruct (IH (c / 10) (e + 1) Hq) as (H1 & H2 & H3).
      repeat split; try lia.
      replace (snd (strip_aux f (c / 10) (e + 1)) - e)
        with ((snd (strip_aux f (c / 10) (e + 1)) - (e + 1)) + 1) by lia.
      rewrite pow10_succ by lia. lia.
    + cbn [fst snd]. rewrite Z.sub_diag. cbn. lia.
Qed.

Lemma strip_aux_canonical (f : nat) :
  forall c e, 0 < c < 2 ^ Z.of_nat f -> fst (strip_aux f c e) mod 10 <> 0.
Proof.
  induction f as [| f IH]; intros c e Hc.
  - cbn in Hc. lia.
  - cbn [strip_aux]. destruct (c mod 10 =? 0) eqn:E.
    + apply Z.eqb_eq in E. apply IH.
      rewrite Nat2Z.inj_succ, Z.pow_succ_r in Hc by lia.
      pose proof (Z_div_mod_eq_full c 10). lia.
    + apply Z.eqb_neq in E. exact E.
Qed.

(** What [strip] returns: the same value, no trailing zero. *)
Lemma strip_spec (c : positive) (e : Z) :
  forall c' e', strip c e = (c', e') ->
    Z.pos c = Z.pos c' * 10 ^ (e' - e) /\ e <= e' /\ Z.pos c' mod 10 <> 0.
Proof.
  intros c' e'. unfold strip.
  pose proof (strip_aux_spec (Pos.size_nat c) (Z.pos c) e eq_refl) as (H1 & H2 & H3).
  pose proof (strip_aux_canonical (Pos.size_nat c) (Z.pos c) e
                (conj eq_refl (size_nat_bound c))) as H4.
  destruct (strip_aux (Pos.size_nat c) (Z.pos c) e) as [a b]; cbn [fst snd] in *.
  intros H; inversion H; subst; clear H.
  rewrite Z2Pos.id by lia. auto.
Qed.

Lemma strip_canonical_fix (c : positive) (e : Z) :
  Z.pos c mod 10 <> 0 -> strip c e = (c, e).
Proof.
  intros H. unfold strip.
  destruct (Pos.size_nat c); cbn [strip_aux].
  - reflexivity.
  - apply Z.eqb_neq in H. rewrite H. reflexivity.
Qed.

Lemma strip_idem (c : positive) (e : Z) :
  forall c' e', strip c e = (c', e') -> strip c' e' = (c', e').
Proof.
  intros c' e' H. apply strip_spec in H. apply strip_canonical_fix. tauto.
Qed.

(** Two coefficients without trailing zeros that carry the same value
    are the same. *)
Lemma canonical_unique (c1 c2 : positive) (e1 e2 k : Z) :
  k <= e1 -> k <= e2 ->
  Z.pos c1 mod 10 <> 0 -> Z.pos c2 mod 10 <> 0 ->
  Z.pos c1 * 10 ^ (e1 - k) = Z.pos c2 * 10 ^ (e2 - k) ->
  c1 = c2 /\ e1 = e2.
Proof.
  intros K1 K2 N1 N2 H.
  assert (A : forall (a b : positive) (x y : Z),
             k <= x -> x < y -> Z.pos a mod 10 <> 0 ->
             Z.pos a * 10 ^ (x - k) = Z.pos b * 10 ^ (y - k) -> False).
  { intros a b x y Kx Lxy Na Hab.
    replace (y - k) with ((y - x - 1) + 1 + (x - k)) in Hab by lia.
    rewrite !Z.pow_add_r in Hab by lia.
    pose proof (pow10_pos (x - k) ltac:(lia)) as P.
    assert (Ha : Z.pos a = Z.pos b * 10 ^ (y - x - 1) * 10) by nia.
    apply Na. rewrite Ha. apply Z_mod_mult. }
  destruct (Z.lt_trichotomy e1 e2) as [L | [L | L]].
  - exfalso. eapply (A c1 c2 e1 e2); eauto.
  - subst e2. split; [| reflexivity].
    pose proof (pow10_pos (e1 - k) ltac:(lia)) as P.
    assert (Z.pos c1 = Z.pos c2) by nia. congruence.
  - exfalso. eapply (A c2 c1 e2 e1); eauto.
Qed.

Lemma strip_unique (c1 c2 : positive) (e1 e2 k : Z) :
  k <= e1 -> k <= e2 ->
  Z.pos c1 * 10 ^ (e1 - k) = Z.pos c2 * 10 ^ (e2 - k) ->
  strip c1 e1 = strip c2 e2.
Proof.
  intros K1 K2 H.
  destruct (strip c1 e1) as [a1 x1] eqn:S1.
  destruct (strip c2 e2) as [a2 x2] eqn:S2.
  apply strip_spec in S1. apply strip_spec in S2.
  destruct S1 as (V1 & L1 & N1), S2 as (V2 & L2 & N2).
  rewrite V1, V2 in H.
  rewrite <- !Z.mul_assoc, <- !Z.pow_add_r in H by lia.
  replace (x1 - e1 + (e1 - k)) with (x1 - k) in H by lia.
  replace (x2 - e2 + (e2 - k)) with (x2 - k) in H by lia.
  destruct (canonical_unique a1 a2 x1 x2 k) as [-> ->]; auto; lia.
Qed.

Lemma ndigits_aux_pos (f : nat) (c : Z) : 1 <= ndigits_aux f c.
Proof.
  revert c; induction f as [| f IH]; intros c; cbn [ndigits_aux]; [lia |].
  destruct (c <? 10); [lia | specialize (IH (c / 10)); lia].
Qed.

Lemma ndigits_aux_spec (f : nat) :
  forall c, 0 < c < 2 ^ Z.of_nat f ->
    10 ^ (ndigits_aux f c - 1) <= c < 10 ^ ndigits_aux f c.
Proof.
  induction f as [| f IH]; intros c Hc.
  - cbn in Hc. lia.
  - cbn [ndigits_aux]. destruct (c <? 10) eqn:E.
    + apply Z.ltb_lt in E. cbn. lia.
    + apply Z.ltb_ge in E.
      rewrite Nat2Z.inj_succ, Z.pow_succ_r in Hc by lia.
      pose proof (Z_div_mod_eq_full c 10) as D.
      pose proof (Z.mod_pos_bound c 10 ltac:(lia)) as M.
      assert (Hq : 0 < c / 10 < 2 ^ Z.of_nat f) by lia.
      specialize (IH _ Hq).
      pose proof (ndigits_aux_pos f (c / 10)) as P.
      replace (1 + ndigits_aux f (c / 10) - 1)
        with ((ndigits_aux f (c / 10) - 1) + 1) by lia.
      replace (1 + ndigits_aux f (c / 10)) with (ndigits_aux f (c / 10) + 1) by lia.
      rewrite !pow10_succ by lia. lia.
Qed.

Lemma ndigits_spec (c : positive) :
  1 <= ndigits c /\ 10 ^ (ndigits c - 1) <= Z.pos c < 10 ^ ndigits c.
Proof.
  unfold ndigits. split; [apply ndigits_aux_pos |].
  apply ndigits_aux_spec. split; [reflexivity | apply size_nat_bound].
Qed.

Lemma ndigits_le (c : positive) (k : Z) :
  0 <= k -> Z.pos c < 10 ^ k -> ndigits c <= k.
Proof.
  intros Hk Hc. destruct (ndigits_spec c) as (P & L & _).
  destruct (Z_le_gt_dec (ndigits c) k) as [|G]; [assumption | exfalso].
  assert (10 ^ k <= 10 ^ (ndigits c - 1)) by (apply Z.pow_le_mono_r; lia).
  lia.
Qed.

(** *** Rounding leaves short values alone *)

Section Rounding.
Context {eng : Engine}.

Lemma pr_pos : 1 <= pr.
Proof. unfold pr. lia. Qed.

Lemma pr_max : pr <= 1000000000.
Proof. exact precision_max. Qed.

Lemma finalise_num_exact (s : sign) (c c0 : positive) (e e0 : Z) :
  strip c e = (c0, e0) ->
  ndigits c0 <= pr ->
  minE <= sci_exponent c0 e0 <= maxE ->
  finalise_num pr s c e = Num s c0 e0.
Proof.
  intros S D R. unfold finalise_num, round_digits. rewrite S.
  apply Z.leb_le in D. rewrite D.
  rewrite (strip_idem _ _ _ _ S). unfold in_range.
  rewrite Z.gtb_ltb.
  destruct R as [R1 R2].
  apply Z.ltb_ge in R1, R2. rewrite R1, R2. reflexivity.
Qed.

(** [finalise] depends on the value alone. *)
Lemma finalise_num_strip (s : sign) (c c0 : positive) (e e0 : Z) :
  strip c e = (c0, e0) -> finalise_num pr s c e = finalise_num pr s c0 e0.
Proof.
  intros S. unfold finalise_num. rewrite S, (strip_idem _ _ _ _ S). reflexivity.
Qed.

Lemma finalise_normal (x : Decimal) : finalise pr (normal x) = finalise pr x.
Proof.
  destruct x as [| s | s | s c e]; cbn [normal finalise]; try reflexivity.
  destruct (strip c e) as [c0 e0] eqn:S. cbn [finalise].
  symmetry. apply finalise_num_strip, S.
Qed.

Lemma finalise_int (s : sign) (c : positive) :
  Z.pos c < 10 ^ pr ->
  finalise_num pr s c 0 = let '(c', e') := strip c 0 in Num s c' e'.
Proof.
  intros B. destruct (strip c 0) as [c0 e0] eqn:S.
  pose proof (strip_spec _ _ _ _ S) as (V & L & N).
  rewrite Z.sub_0_r in V.
  pose proof pr_pos as P1. pose proof pr_max as P2.
  pose proof (pow10_pos e0 L) as Q.
  destruct (ndigits_spec c0) as (D1 & D2 & D3).
  assert (B0 : Z.pos c0 < 10 ^ pr) by nia.
  apply (finalise_num_exact s c c0 0 e0 S).
  - apply ndigits_le; lia.
  - unfold sci_exponent, minE, maxE. split; [lia |].
    assert (H : 10 ^ (ndigits c0 - 1 + e0) < 10 ^ pr).
    { rewrite Z.pow_add_r by lia. nia. }
    apply Z.pow_lt_mono_r_iff in H; lia.
Qed.

Lemma finalise_mantissa_int (m : Z) :
  Z.abs m < 10 ^ pr -> finalise pr (of_mantissa Positive m 0) = of_Z m.
Proof.
  intros B. destruct m as [| c | c]; cbn [of_mantissa finalise of_Z].
  - reflexivity.
  - apply finalise_int. lia.
  - apply finalise_int. lia.
Qed.

(** *** Integers *)

Lemma of_Z_canonical (c : positive) :
  Z.pos c mod 10 <> 0 -> of_Z (Z.pos c) = Num Positive c 0.
Proof. intros H. cbn [of_Z]. rewrite strip_canonical_fix by assumption. reflexivity. Qed.

Lemma of_Z_cases (n : Z) :
  (n = 0 /\ of_Z n = Zero Positive)
  \/ exists s c e, of_Z n = Num s c e /\ 0 <= e /\ signed s (Z.pos c) * 10 ^ e = n.
Proof.
  destruct n as [| c | c]; [left; auto | right | right]; cbn [of_Z];
    destruct (strip c 0) as [c0 e0] eqn:S;
    pose proof (strip_spec _ _ _ _ S) as (V & L & N);
    rewrite Z.sub_0_r in V.
  - exists Positive, c0, e0. cbn [signed]. repeat split; lia.
  - exists Negative, c0, e0. cbn [signed]. repeat split; lia.
Qed.

Lemma eq_of_Z_zero (r : Z) : eq (of_Z r) (Zero Positive) = (r =? 0).
Proof.
  destruct r as [| c | c]; cbn [of_Z]; [reflexivity | |];
    destruct (strip c 0) as [c0 e0]; reflexivity.
Qed.

Lemma integer_of_Z (n : Z) : integer (of_Z n) n.
Proof.
  destruct (of_Z_cases n) as [[-> ->] | (s & c & e & -> & L & V)]; cbn [integer].
  - reflexivity.
  - split; [assumption | symmetry; assumption].
Qed.

Lemma isInt_integer (x : Decimal) (n : Z) : integer x n -> isInt x = true.
Proof.
  destruct x as [| s | s | s c e]; cbn [integer isInt]; try tauto.
  intros [L _]. apply Z.leb_le in L. rewrite L. reflexivity.
Qed.

(** Adding a one-digit literal to an integer is exact while the sum has
    at most [precision] digits. *)
Lemma add_integer (x : Decimal) (n : Z) (j : positive) :
  integer x n ->
  Z.pos j mod 10 <> 0 ->
  Z.pos j < 10 ^ pr ->
  Z.abs (n + Z.pos j) < 10 ^ pr ->
  add x (of_Z (Z.pos j)) = of_Z (n + Z.pos j).
Proof.
  intros Hx Nj Bj B. rewrite (of_Z_canonical j Nj). unfold add.
  destruct x as [| s | s | s c e]; cbn [integer] in Hx; try contradiction.
  - subst n. cbn [add_exact finalise]. rewrite finalise_int by assumption.
    rewrite Z.add_0_l. reflexivity.
  - destruct Hx as [L V]. cbn [add_exact]. unfold align.
    rewrite Z.min_r by lia. rewrite !Z.sub_0_r. cbn [signed].
    change (10 ^ 0) with 1. rewrite Z.mul_1_r, <- V.
    apply finalise_mantissa_int, B.
Qed.

(** The remainder of an integer by a small literal is exact. *)
Lemma mod_integer (x : Decimal) (n : Z) (d : positive) :
  integer x n ->
  Z.pos d mod 10 <> 0 ->
  Z.pos d < 10 ^ pr ->
  eq (mod_ x (of_Z (Z.pos d))) (Zero Positive) = (Z.rem n (Z.pos d) =? 0).
Proof.
  intros Hx Nd Bd. rewrite (of_Z_canonical d Nd).
  destruct x as [| s | s | s c e]; cbn [integer] in Hx; try contradiction.
  - subst n. reflexivity.
  - destruct Hx as [L V]. cbn [mod_]. unfold align.
    rewrite Z.min_r by lia. rewrite !Z.sub_0_r. cbn [signed].
    change (10 ^ 0) with 1. rewrite Z.mul_1_r, <- V.
    rewrite finalise_mantissa_int.
    + apply eq_of_Z_zero.
    + pose proof (Z.rem_bound_abs n (Z.pos d) ltac:(lia)). lia.
Qed.

(** *** Exact sums and differences *)

Lemma finalise_mantissa_value (zs s : sign) (D k2 k ex : Z) (cx : positive) :
  k <= k2 -> k <= ex ->
  D * 10 ^ (k2 - k) = signed s (Z.pos cx) * 10 ^ (ex - k) ->
  finalise pr (of_mantissa zs D k2) = finalise_num pr s cx ex.
Proof.
  intros K2 Kx H.
  pose proof (pow10_pos (k2 - k) ltac:(lia)) as P2.
  pose proof (pow10_pos (ex - k) ltac:(lia)) as Px.
  assert (U : forall p : positive,
             Z.pos p * 10 ^ (k2 - k) = Z.pos cx * 10 ^ (ex - k) ->
             forall t, finalise_num pr t p k2 = finalise_num pr t cx ex).
  { intros p Hp t.
    destruct (strip p k2) as [a x] eqn:S1.
    rewrite (finalise_num_strip t p a k2 x S1).
    rewrite (strip_unique p cx k2 ex k K2 Kx Hp) in S1.
    symmetry. apply finalise_num_strip, S1. }
  destruct D as [| p | p], s; cbn [signed of_mantissa finalise] in *; try nia.
  - apply U. lia.
  - apply U. lia.
Qed.

Lemma eq_normal (x : Decimal) : isNaN x = false -> eq (normal x) x = true.
Proof.
  destruct x as [| s | s | s c e]; intros H; try discriminate H.
  - destruct s; reflexivity.
  - reflexivity.
  - cbn [normal]. destruct (strip c e) as [c0 e0] eqn:S.
    pose proof (strip_spec _ _ _ _ S) as (V & L & _).
    unfold eq, cmp, align. rewrite Z.min_r by lia.
    rewrite Z.sub_diag. change (10 ^ 0) with 1. rewrite Z.mul_1_r.
    replace (signed s (Z.pos c0) * 10 ^ (e0 - e)) with (signed s (Z.pos c))
      by (destruct s; cbn [signed]; lia).
    rewrite Z.compare_refl. reflexivity.
Qed.

Lemma add_sub_component (x y : Decimal) :
  isFinite x = true -> isFinite y = true ->
  representable x -> representable (add_exact x y) ->
  eq (sub (add x y) y) x = true.
Proof.
  unfold representable, add, sub. intros Fx Fy Rx Rs. rewrite Rs.
  destruct x as [| sx | sx | sx cx ex]; try discriminate Fx;
  destruct y as [| sy | sy | sy cy ey]; try discriminate Fy.
  - destruct sx, sy; reflexivity.
  - cbn [add_exact normal]. destruct (strip cy ey) as [c0 e0] eqn:S.
    pose proof (strip_spec _ _ _ _ S) as (V & L & _).
    cbn [sub_exact]. unfold align. rewrite Z.min_r by lia.
    rewrite Z.sub_diag. change (10 ^ 0) with 1. rewrite Z.mul_1_r.
    replace (signed sy (Z.pos c0) * 10 ^ (e0 - ey) - signed sy (Z.pos cy)) with 0
      by (destruct sy; cbn [signed]; lia).
    reflexivity.
  - pose proof (eq_normal (Num sx cx ex) eq_refl) as Q.
    cbn [add_exact normal finalise] in *.
    destruct (strip cx ex) as [c0 e0] eqn:S. cbn [sub_exact finalise].
    rewrite <- (finalise_num_strip sx cx c0 ex e0 S), Rx. exact Q.
  - cbn [add_exact]. unfold align.
    set (k := Z.min ex ey).
    set (A := signed sx (Z.pos cx) * 10 ^ (ex - k)).
    set (B := signed sy (Z.pos cy) * 10 ^ (ey - k)).
    assert (Kx : k <= ex) by (unfold k; lia).
    assert (Ky : k <= ey) by (unfold k; lia).
    assert (E : finalise pr (sub_exact (normal (of_mantissa Positive (A + B) k))
                                       (Num sy cy ey))
                = finalise_num pr sx cx ex).
    { destruct (A + B) as [| p | p] eqn:M; cbn [of_mantissa normal].
      - cbn [sub_exact finalise].
        pose proof (pow10_pos (ex - k) ltac:(lia)) as Px.
        pose proof (pow10_pos (ey - k) ltac:(lia)) as Py.
        assert (Hs : sign_neg sy = sx)
          by (unfold A, B in M; destruct sx, sy; cbn [signed sign_neg] in *; nia || reflexivity).
        rewrite Hs.
        destruct (strip cy ey) as [a x] eqn:S1.
        rewrite (finalise_num_strip sx cy a ey x S1).
        rewrite (strip_unique cy cx ey ex k Ky Kx) in S1
          by (unfold A, B in M; destruct sx, sy; cbn [signed] in *; nia).
        symmetry. apply finalise_num_strip, S1.
      - destruct (strip p k) as [c0 e0] eqn:S.
        pose proof (strip_spec _ _ _ _ S) as (V & L & _).
        cbn [sub_exact]. unfold align.
        apply (finalise_mantissa_value Positive sx _ _ k ex cx); [lia | lia |].
        fold A. rewrite Z.mul_sub_distr_r, <- !Z.mul_assoc, <- !Z.pow_add_r by lia.
        replace (e0 - Z.min e0 ey + (Z.min e0 ey - k)) with (e0 - k) by lia.
        replace (ey - Z.min e0 ey + (Z.min e0 ey - k)) with (ey - k) by lia.
        fold B. cbn [signed]. lia.
      - destruct (strip p k) as [c0 e0] eqn:S.
        pose proof (strip_spec _ _ _ _ S) as (V & L & _).
        cbn [sub_exact]. unfold align.
        apply (finalise_mantissa_value Positive sx _ _ k ex cx); [lia | lia |].
        fold A. rewrite Z.mul_sub_distr_r, <- !Z.mul_assoc, <- !Z.pow_add_r by lia.
        replace (e0 - Z.min e0 ey + (Z.min e0 ey - k)) with (e0 - k) by lia.
        replace (ey - Z.min e0 ey + (Z.min e0 ey - k)) with (ey - k) by lia.
        fold B. cbn [signed]. lia. }
    rewrite E. change (finalise_num pr sx cx ex) with (finalise pr (Num sx cx ex)).
    rewrite Rx. apply eq_normal. reflexivity.
Qed.

End Rounding.

(** *** Algebra of the exact operations *)

Lemma sign_mul_comm (a b : sign) : sign_mul a b = sign_mul b a.
Proof. destruct a, b; reflexivity. Qed.

Lemma add_exact_comm (x y : Decimal) : add_exact x y = add_exact y x.
Proof.
  destruct x as [| sx | sx | sx cx ex], y as [| sy | sy | sy cy ey];
    try reflexivity; try (destruct sx, sy; reflexivity).
  cbn [add_exact]. unfold align. rewrite (Z.min_comm ey ex), (Z.add_comm (_ * _) (_ * _)).
  reflexivity.
Qed.

Lemma mul_exact_comm (x y : Decimal) : mul_exact x y = mul_exact y x.
Proof.
  destruct x as [| sx | sx | sx cx ex], y as [| sy | sy | sy cy ey];
    try reflexivity; cbn [mul_exact]; rewrite (sign_mul_comm sx sy); try reflexivity.
  rewrite (Pos.mul_comm cx cy), (Z.add_comm ex ey). reflexivity.
Qed.

Lemma signed_neg (s : sign) (c : Z) : signed (sign_neg s) c = - signed s c.
Proof. destruct s; cbn [signed sign_neg]; lia. Qed.

Lemma sub_exact_add_neg (x y : Decimal) : sub_exact x y = add_exact (neg y) x.
Proof.
  destruct x as [| sx | sx | sx cx ex], y as [| sy | sy | sy cy ey];
    try reflexivity; try (destruct sx, sy; reflexivity).
  cbn [sub_exact add_exact neg]. unfold align.
  rewrite signed_neg, (Z.min_comm ey ex). f_equal. lia.
Qed.

Lemma cmp_refl (x : Decimal) : isNaN x = false -> cmp x x = Some Eq.
Proof.
  destruct x as [| s | s | s c e]; intros H; try discriminate H.
  - destruct s; reflexivity.
  - reflexivity.
  - cbn [cmp]. unfold align. rewrite Z.compare_refl. reflexivity.
Qed.

Lemma eq_refl_iff (x : Decimal) : eq x x = true <-> isNaN x = false.
Proof.
  split.
  - destruct x; [discriminate | reflexivity ..].
  - intros H. unfold eq. rewrite cmp_refl by assumption. reflexivity.
Qed.

Section Algebra.
Context {eng : Engine}.

Lemma add_comm (x y : Decimal) : add x y = add y x.
Proof. unfold add. rewrite add_exact_comm. reflexivity. Qed.

Lemma mul_comm (x y : Decimal) : mul x y = mul y x.
Proof. unfold mul. rewrite mul_exact_comm. reflexivity. Qed.

Lemma sub_add_neg (x y : Decimal) : sub x y = add (neg y) x.
Proof. unfold sub, add. rewrite sub_exact_add_neg. reflexivity. Qed.

End Algebra.

End DecFacts.

(* ================================================================== *)
(** ** The complex layer *)
Module ComplexFacts.

Lemma lt_not_eq (x y : Decimal) : Dec.lt x y = true -> Dec.eq x y = false.
Proof. unfold Dec.lt, Dec.eq. destruct (Dec.cmp x y) as [[]|]; congruence. Qed.

Lemma lt_not_gte (x y : Decimal) : Dec.lt x y = true -> Dec.gte x y = false.
Proof. unfold Dec.lt, Dec.gte. destruct (Dec.cmp x y) as [[]|]; congruence. Qed.

Section WithEngine.
Context {eng : Dec.Engine}.

Lemma pow_zero_two (s : sign) : Dec.pow (Zero s) (Dec.of_Z 2) = Zero Positive.
Proof. reflexivity. Qed.

(** A perfect square of few digits has its exact root. *)
Lemma sqrt_perfect_square (r : positive) :
  Z.pos r < 10 ^ Dec.pr ->
  Dec.sqrt (Num Positive (r * r) 0) = Dec.of_Z (Z.pos r).
Proof.
  intros B. unfold Dec.sqrt. cbn [Z.even].
  pose proof DecFacts.pr_pos as P.
  set (k := Dec.pr + 1).
  assert (Hk : 0 <= k) by (unfold k; lia).
  replace (Z.pos (r * r) * 10 ^ (2 * k))
    with ((Z.pos r * 10 ^ k) * (Z.pos r * 10 ^ k)).
  2:{ replace (2 * k) with (k + k) by lia. rewrite Z.pow_add_r by lia. lia. }
  pose proof (DecFacts.pow10_pos k Hk) as Q.
  rewrite Z.sqrt_square by lia.
  change (0 / 2) with 0.
  rewrite (DecFacts.finalise_mantissa_value Positive Positive _ _ (0 - k) 0 r);
    [| lia | lia |].
  - apply DecFacts.finalise_int, B.
  - cbn [signed]. rewrite Z.sub_diag. change (10 ^ 0) with 1.
    replace (0 - (0 - k)) with k by lia. lia.
Qed.

Lemma sqrt_four : Dec.sqrt (Dec.of_Z 4) = Dec.of_Z 2.
Proof.
  apply (sqrt_perfect_square 2).
  pose proof DecFacts.pr_pos as P.
  assert (10 ^ 1 <= 10 ^ Dec.pr) by (apply Z.pow_le_mono_r; lia). lia.
Qed.

Lemma sqrt_one : Dec.sqrt (Dec.of_Z 1) = Dec.of_Z 1.
Proof.
  apply (sqrt_perfect_square 1).
  pose proof DecFacts.pr_pos as P.
  assert (10 ^ 1 <= 10 ^ Dec.pr) by (apply Z.pow_le_mono_r; lia). lia.
Qed.

(** With a zero divisor both numerators are zero or NaN, and the
    denominator is zero: the quotients are NaN. *)
Lemma div_zero_components (s1 s2 : sign) (x y : Decimal) :
  Dec.div (Dec.add (Dec.mul x (Zero s1)) (Dec.mul y (Zero s2)))
          (Dec.add (Dec.pow (Zero s1) (Dec.of_Z 2)) (Dec.pow (Zero s2) (Dec.of_Z 2)))
  = NaN
  /\ Dec.div (Dec.sub (Dec.mul y (Zero s1)) (Dec.mul x (Zero s2)))
             (Dec.add (Dec.pow (Zero s1) (Dec.of_Z 2)) (Dec.pow (Zero s2) (Dec.of_Z 2)))
     = NaN.
Proof.
  rewrite !pow_zero_two.
  destruct x as [| sx | sx | sx cx ex], y as [| sy | sy | sy cy ey];
    try (split; reflexivity);
    destruct s1, s2; try (split; reflexivity);
    destruct sx; try (split; reflexivity);
    destruct sy; split; reflexivity.
Qed.

Lemma instance_div_zero (a : Instance.Complex) (s1 s2 : sign) :
  Instance.div a (Instance.mk (Zero s1) (Zero s2)) = Instance.mk NaN NaN.
Proof.
  destruct a as [x y]. unfold Instance.div, Instance.TWO.
  cbn [Instance.re Instance.im].
  destruct (div_zero_components s1 s2 x y) as [-> ->]. reflexivity.
Qed.

Lemma static_divide_zero (a : Static.Complex) (s1 s2 : sign) :
  Static.divide (Static.VComplex a) (Static.VComplex (Static.mk (Zero s1) (Zero s2)))
  = Static.mk NaN NaN.
Proof.
  destruct a as [x y]. unfold Static.divide, Static.TWO.
  cbn [Static.convertToComplex Static.real Static.imaginary].
  destruct (div_zero_components s1 s2 x y) as [-> ->]. reflexivity.
Qed.

End WithEngine.
End ComplexFacts.

(* ================================================================== *)
(** ** The two classes side by side *)
Module Agreement.
Section WithEngine.
Context {eng : Dec.Engine}.

Lemma instance_mul_comm (a b : Instance.Complex) :
  Instance.mul a b = Instance.mul b a.
Proof.
  unfold Instance.mul. f_equal.
  - rewrite (DecFacts.mul_comm (Instance.re a)), (DecFacts.mul_comm (Instance.im a)).
    reflexivity.
  - rewrite (DecFacts.mul_comm (Instance.re a)), (DecFacts.mul_comm (Instance.im a)).
    apply DecFacts.add_comm.
Qed.

Lemma multiply_lift (a b : Instance.Complex) :
  Static.multiply (Static.VComplex (lift a)) (Static.VComplex (lift b))
  = lift (Instance.mul a b).
Proof.
  unfold Static.multiply, Instance.mul, lift.
  cbn [Static.convertToComplex Static.real Static.imaginary Instance.re Instance.im].
  f_equal.
  - symmetry. apply DecFacts.sub_add_neg.
  - apply DecFacts.add_comm.
Qed.

Lemma multiply_lift_swap (a b : Instance.Complex) :
  Static.multiply (Static.VComplex (lift a)) (Static.VComplex (lift b))
  = lift (Instance.mul b a).
Proof. rewrite multiply_lift, instance_mul_comm. reflexivity. Qed.

Lemma asin_lift (a : Instance.Complex) :
  Static.asin (Static.VComplex (lift a)) = lift (Instance.asin a).
Proof.
  unfold Static.asin, Instance.asin, Static.asin_flips, Instance.asin_flips, lift.
  cbn [Static.convertToComplex Static.real Static.imaginary Instance.re Instance.im].
  unfold Static.ZERO, Instance.ZERO.
  match goal with |- context [if ?b then _ else _] => destruct b end; reflexivity.
Qed.

Lemma atan_lift (a : Instance.Complex) :
  Static.atan (Static.VComplex (lift a)) = lift (Instance.atan a).
Proof. reflexivity. Qed.

Lemma asinh_lift (a : Instance.Complex) :
  Static.asinh (Static.VComplex (lift a)) = lift (Instance.asinh a).
Proof.
  unfold Static.asinh, Instance.asinh. cbn [Static.convertToComplex].
  change Static.i with (lift Instance.I).
  change Static.neg_i with (lift Instance.NEG_I).
  rewrite multiply_lift_swap, asin_lift, multiply_lift_swap.
  reflexivity.
Qed.

Lemma atanh_lift (a : Instance.Complex) :
  Static.atanh (Static.VComplex (lift a)) = lift (Instance.atanh a).
Proof.
  unfold Static.atanh, Instance.atanh.
  change Static.i with (lift Instance.I).
  change Static.neg_i with (lift Instance.NEG_I).
  rewrite multiply_lift_swap, atan_lift, multiply_lift_swap.
  reflexivity.
Qed.

(** The static class computes the formulas of complex.js over
    [mathjs_engine]; the arithmetic of the two engines is the same. *)
Ltac same_arithmetic :=
  change (@Dec.add (mathjs_engine eng)) with (@Dec.add eng);
  change (@Dec.sub (mathjs_engine eng)) with (@Dec.sub eng);
  change (@Dec.mul (mathjs_engine eng)) with (@Dec.mul eng);
  change (@Dec.div (mathjs_engine eng)) with (@Dec.div eng);
  change (@Dec.mod_ (mathjs_engine eng)) with (@Dec.mod_ eng);
  change (@Dec.sqrt (mathjs_engine eng)) with (@Dec.sqrt eng);
  change (@Dec.pow (mathjs_engine eng)) with (@Dec.pow eng).

Lemma exponent_lift (a b : Instance.Complex) :
  Static.exponent (Static.VComplex (lift a)) (Static.VComplex (lift b))
  = lift (Instance.pow (eng := mathjs_engine eng) a b).
Proof.
  unfold Static.exponent, Instance.pow, lift.
  cbn [Static.convertToComplex Static.real Static.imaginary Instance.re Instance.im].
  unfold Static.ZERO, Instance.ZERO, Static.FOUR, Instance.FOUR, Static.TWO, Instance.TWO,
    Static.ONE, Instance.ONE, Static.THREE, Instance.THREE.
  same_arithmetic.
  repeat match goal with |- context [if ?b then _ else _] => destruct b end;
    reflexivity.
Qed.


(** On the real axis [sqrt] does not reach the modulus. *)
Lemma sqrt_lift_real_axis (a : Instance.Complex) :
  Dec.eq (Instance.im a) Instance.ZERO = true ->
  Static.sqrt (Static.VComplex (lift a)) = lift (Instance.sqrt a).
Proof.
  intros H. unfold Static.sqrt, Instance.sqrt.
  cbn [Static.convertToComplex].
  change (Static.imaginary (lift a)) with (Instance.im a).
  change (Static.real (lift a)) with (Instance.re a).
  change Static.ZERO with Instance.ZERO.
  rewrite H. destruct (Dec.gte (Instance.re a) Instance.ZERO); reflexivity.
Qed.


End WithEngine.
End Agreement.

(* ================================================================== *)
(** ** The fast path of [pow] *)
Module FastPath.
Section WithEngine.
Context {eng : Dec.Engine}.

Lemma rem_zero_mod (n d : Z) : d <> 0 -> (Z.rem n d =? 0) = (n mod d =? 0).
Proof.
  intros Hd. apply eq_true_iff_eq.
  rewrite !Z.eqb_eq, Z.rem_divide, Z.mod_divide by assumption. tauto.
Qed.

Lemma digit_below_precision (d : positive) : Z.pos d < 10 -> Z.pos d < 10 ^ Dec.pr.
Proof.
  intros H. pose proof DecFacts.pr_pos as P.
  assert (10 ^ 1 <= 10 ^ Dec.pr) by (apply Z.pow_le_mono_r; lia). lia.
Qed.

(** Within the precision the four residue tests of the fast path are
    exact, and select by [n mod 4]. *)
Lemma pow_table (base exponent : Instance.Complex) (n : Z) :
  Dec.eq (Instance.re base) Instance.ZERO = true ->
  Dec.eq (Instance.im exponent) Instance.ZERO = true ->
  Dec.integer (Instance.re exponent) n ->
  Z.abs n + 3 < 10 ^ Dec.pr ->
  Instance.pow base exponent
  = fast_path (Dec.pow (Instance.im base) (Instance.re exponent)) n.
Proof.
  intros Hb He Hn B. unfold Instance.pow.
  rewrite Hb, He, (DecFacts.isInt_integer _ n Hn).
  cbn [andb].
  unfold Instance.ZERO, Instance.ONE, Instance.TWO, Instance.THREE, Instance.FOUR.
  change (Dec.of_Z 0) with (Zero Positive).
  assert (D1 : Z.pos 1 < 10 ^ Dec.pr) by (apply digit_below_precision; lia).
  assert (D2 : Z.pos 2 < 10 ^ Dec.pr) by (apply digit_below_precision; lia).
  assert (D3 : Z.pos 3 < 10 ^ Dec.pr) by (apply digit_below_precision; lia).
  assert (D4 : Z.pos 4 < 10 ^ Dec.pr) by (apply digit_below_precision; lia).
  rewrite (DecFacts.add_integer _ n 1 Hn), (DecFacts.add_integer _ n 3 Hn)
    by (try discriminate; lia).
  rewrite (DecFacts.mod_integer _ n 4 Hn),
    (DecFacts.mod_integer _ (n + 1) 4 (DecFacts.integer_of_Z _)),
    (DecFacts.mod_integer _ n 2 Hn),
    (DecFacts.mod_integer _ (n + 3) 4 (DecFacts.integer_of_Z _))
    by (try discriminate; lia).
  rewrite !rem_zero_mod by lia.
  unfold fast_path.
  change (Dec.of_Z 0) with (Zero Positive).
  unfold Instance.ZERO, Instance.NEG_ONE. change (Dec.of_Z 0) with (Zero Positive).
  pose proof (Z.mod_pos_bound n 4 ltac:(lia)) as R.
  assert (C : n mod 4 = 0 \/ n mod 4 = 1 \/ n mod 4 = 2 \/ n mod 4 = 3) by lia.
  clear - C.
  destruct C as [C | [C | [C | C]]]; rewrite C; cbn [Z.eqb Pos.eqb].
  - reflexivity.
  - replace ((n + 1) mod 4 =? 0) with false by (symmetry; apply Z.eqb_neq; residues).
    replace (n mod 2 =? 0) with false by (symmetry; apply Z.eqb_neq; residues).
    replace ((n + 3) mod 4 =? 0) with true by (symmetry; apply Z.eqb_eq; residues).
    reflexivity.
  - replace ((n + 1) mod 4 =? 0) with false by (symmetry; apply Z.eqb_neq; residues).
    replace (n mod 2 =? 0) with true by (symmetry; apply Z.eqb_eq; residues).
    reflexivity.
  - replace ((n + 1) mod 4 =? 0) with true by (symmetry; apply Z.eqb_eq; residues).
    reflexivity.
Qed.

Lemma pow_one (n : Z) : Dec.pow (Dec.of_Z 1) (Dec.of_Z n) = Dec.of_Z 1.
Proof.
  destruct (DecFacts.of_Z_cases n) as [[_ ->] | (s & c & e & -> & _)]; reflexivity.
Qed.

Lemma neg_one_times_one : Dec.mul (Dec.of_Z (-1)) (Dec.of_Z 1) = Dec.of_Z (-1).
Proof.
  unfold Dec.mul. change (Dec.mul_exact (Dec.of_Z (-1)) (Dec.of_Z 1)) with (Num Negative 1 0).
  cbn [Dec.finalise]. rewrite DecFacts.finalise_int by (apply digit_below_precision; lia).
  reflexivity.
Qed.

(** Within the precision the integer powers of i run through the
    4-cycle. *)
Lemma pow_i_cycle (n : Z) :
  Z.abs n + 3 < 10 ^ Dec.pr ->
  Instance.pow Instance.I (Instance.mk (Dec.of_Z n) Instance.ZERO) = i_cycle n.
Proof.
  intros B.
  rewrite (pow_table _ _ n) by (reflexivity || assumption || apply DecFacts.integer_of_Z).
  cbn [Instance.im Instance.re Instance.I]. unfold Instance.ONE.
  rewrite pow_one. unfold fast_path, i_cycle, Instance.NEG_ONE, Instance.ZERO.
  rewrite neg_one_times_one. reflexivity.
Qed.

End WithEngine.
End FastPath.

(* ================================================================== *)
(** ** The claims *)

(** C1 (amended).  With [base.re] equal to zero, [exponent.im] equal to
    zero and [exponent.re] an integer [n] with [|n| + 3 < 10^precision],
    [pow] (and the static [exponent]) computes
    [magnitude = base.im ^ exponent.re] and returns by the residue of [n]
    modulo 4: 0 gives [(magnitude, 0)], 1 gives [(0, magnitude)], 2 gives
    [(-magnitude, 0)] and 3 gives [(0, -magnitude)], the negated
    magnitude being the product [NEG_ONE.mul(magnitude)]. *)
Theorem pow_fast_path_table {eng : Dec.Engine}
    (base exponent : Instance.Complex) (n : Z) :
  Dec.eq (Instance.re base) Instance.ZERO = true ->
  Dec.eq (Instance.im exponent) Instance.ZERO = true ->
  Dec.integer (Instance.re exponent) n ->
  Z.abs n + 3 < 10 ^ Dec.pr ->
  Instance.pow base exponent
  = fast_path (Dec.pow (Instance.im base) (Instance.re exponent)) n
  /\ Static.exponent (Static.VComplex (lift base)) (Static.VComplex (lift exponent))
     = lift (fast_path (Dec.pow (Instance.im base) (Instance.re exponent)) n).
Proof.
  intros Hb He Hn B.
  rewrite Agreement.exponent_lift.
  rewrite (FastPath.pow_table (eng := mathjs_engine eng) base exponent n Hb He Hn B).
  rewrite (FastPath.pow_table base exponent n Hb He Hn B).
  split; reflexivity.
Qed.

(** An instance of C1's hypotheses: [i^5] at 20 digits. *)
Lemma pow_fast_path_table_witness :
  Instance.pow (eng := Readme.engine)
    (Instance.mk (Dec.of_Z 0) (Dec.of_Z 1)) (Instance.mk (Dec.of_Z 5) (Dec.of_Z 0))
  = fast_path (eng := Readme.engine)
      (Dec.pow (eng := Readme.engine) (Dec.of_Z 1) (Dec.of_Z 5)) 5
  /\ Static.exponent (eng := Readme.engine)
       (Static.VComplex (lift (Instance.mk (Dec.of_Z 0) (Dec.of_Z 1))))
       (Static.VComplex (lift (Instance.mk (Dec.of_Z 5) (Dec.of_Z 0))))
     = lift (fast_path (eng := Readme.engine)
               (Dec.pow (eng := Readme.engine) (Dec.of_Z 1) (Dec.of_Z 5)) 5).
Proof.
  apply (pow_fast_path_table (eng := Readme.engine)
           (Instance.mk (Dec.of_Z 0) (Dec.of_Z 1))
           (Instance.mk (Dec.of_Z 5) (Dec.of_Z 0)) 5);
    try reflexivity.
  split; reflexivity.
Defined.

(** The specification's table fails at [i^1], which is [i]: the table
    gives [(0, -1)] at residue 1. *)
Lemma spec_fast_path_fails_at_i :
  Instance.pow (eng := Readme.engine)
    Instance.I (Instance.mk (Dec.of_Z 1) Instance.ZERO)
  <> spec_fast_path (eng := Readme.engine)
       (Dec.pow (eng := Readme.engine) (Instance.im Instance.I) (Dec.of_Z 1)) 1.
Proof. vm_compute. discriminate. Qed.

(** C2.  While [|n| + 3 < 10^precision] the integer powers of i run
    through the 4-cycle 1, i, -1, -i, at every precision and in both
    directions; in particular [pow(i,0) = (1,0)], [pow(i,1) = (0,1)] and
    [pow(i,5) = (0,1)].  Beyond that they do not: at decimal.js's default
    precision of 20 digits the exponent [n = 100000000000000000001] has
    residue 1, so [i^n] is [i], and [pow] returns [-i], because
    [n.add(ONE)] is rounded to [1e20], a multiple of 4, and the branch of
    residue 3 is taken. *)
Theorem pow_i_cycle_within_precision_only :
  (forall (eng : Dec.Engine) (n : Z),
      Z.abs n + 3 < 10 ^ Dec.pr ->
      Instance.pow Instance.I (Instance.mk (Dec.of_Z n) Instance.ZERO) = i_cycle n)
  /\ (forall eng : Dec.Engine,
        Instance.pow Instance.I (Instance.mk (Dec.of_Z 0) Instance.ZERO)
        = Instance.mk (Dec.of_Z 1) (Dec.of_Z 0)
        /\ Instance.pow Instance.I (Instance.mk (Dec.of_Z 1) Instance.ZERO)
           = Instance.mk (Dec.of_Z 0) (Dec.of_Z 1)
        /\ Instance.pow Instance.I (Instance.mk (Dec.of_Z 5) Instance.ZERO)
           = Instance.mk (Dec.of_Z 0) (Dec.of_Z 1))
  /\ 100000000000000000001 mod 4 = 1
  /\ i_cycle 100000000000000000001 = Instance.mk (Dec.of_Z 0) (Dec.of_Z 1)
  /\ Dec.add (eng := Readme.engine) (Dec.of_Z 100000000000000000001) Instance.ONE
     = Num Positive 1 20
  /\ Instance.pow (eng := Readme.engine)
       Instance.I (Instance.mk (Dec.of_Z 100000000000000000001) Instance.ZERO)
     = Instance.mk (Dec.of_Z 0) (Dec.of_Z (-1)).
Proof.
  split; [intros eng n B; apply FastPath.pow_i_cycle, B |].
  split.
  { intros eng.
    assert (B : 8 < 10 ^ Dec.pr) by (apply (FastPath.digit_below_precision 8); lia).
    repeat split; rewrite FastPath.pow_i_cycle by (cbn [Z.abs]; lia); reflexivity. }
  repeat split; vm_compute; reflexivity.
Qed.





(** At 20 digits the two constants PI_OVER_TWO differ in the last digit:
    [acos(-1)/2] rounds to 1.5707963267948966193 and [acos(0)] is
    1.5707963267948966192. *)
Example pi_over_two_constants_differ :
  Static.PI_OVER_TWO (eng := Readme.engine) = Num Positive 15707963267948966193 (-19)
  /\ Instance.PI_OVER_TWO (eng := Readme.engine) = Num Positive 15707963267948966192 (-19).
Proof. split; vm_compute; reflexivity. Qed.

(** So [acos(2)] has real part 1e-19 in the static class and 0 in
    complex.js. *)
Example acos_differs_between_classes :
  Static.acos (eng := Readme.engine)
    (Static.VComplex (lift (Instance.mk (Dec.of_Z 2) (Dec.of_Z 0))))
  = Static.mk (Num Positive 1 (-19)) (Num Positive 13169578969248167086 (-19))
  /\ Instance.acos (eng := Readme.engine) (Instance.mk (Dec.of_Z 2) (Dec.of_Z 0))
     = Instance.mk (Zero Positive) (Num Positive 13169578969248167086 (-19)).
Proof. split; vm_compute; reflexivity. Qed.

(** C5 (amended).  The static class returns fixed values at the origin
    for [asech] (the constant [Complex.infinity]) and [acoth]
    ([(0, PI_OVER_TWO)]), and on a negative purely real input [asech]
    sets the sign of the imaginary part of [acosh(1/c)] to +1.  The
    instance methods have no special case: [acsch], [asech] and [acoth]
    are [asinh], [acosh] and [atanh] of the reciprocal everywhere, and
    [acsch] of the origin has two NaN components. *)
Theorem inverse_reciprocal_hyperbolic_special_cases {eng : Dec.Engine}
    (c : Static.Complex) (z : Instance.Complex) :
  Static.asech (Static.VComplex Static.zero) = Static.infinity
  /\ Static.acoth (Static.VComplex Static.zero) = Static.mk Static.ZERO Static.PI_OVER_TWO
  /\ (Dec.lt (Static.real c) Static.ZERO = true ->
      Dec.eq (Static.imaginary c) Static.ZERO = true ->
      Static.asech (Static.VComplex c)
      = Static.mk
          (Static.real (Static.acosh (Static.VComplex (Static.reciprocal_of c))))
          (Dec.set_sign Positive
             (Static.imaginary (Static.acosh (Static.VComplex (Static.reciprocal_of c)))))
      /\ Dec.sign_of (Static.imaginary (Static.asech (Static.VComplex c))) = Some Positive)
  /\ Instance.acsch z = Instance.asinh (Instance.recip z)
  /\ Instance.asech z = Instance.acosh (Instance.recip z)
  /\ Instance.acoth z = Instance.atanh (Instance.recip z)
  /\ Instance.acsch (Instance.mk Instance.ZERO Instance.ZERO) = Instance.mk NaN NaN.
Proof.
  split; [reflexivity |]. split; [reflexivity |].
  split.
  { intros Hr Hi.
    assert (E : Static.asech (Static.VComplex c)
                = Static.mk
                    (Static.real (Static.acosh (Static.VComplex (Static.reciprocal_of c))))
                    (Dec.set_sign Positive
                       (Static.imaginary
                          (Static.acosh (Static.VComplex (Static.reciprocal_of c)))))).
    { unfold Static.asech. cbn [Static.convertToComplex].
      rewrite (ComplexFacts.lt_not_eq _ _ Hr), Hr, Hi. reflexivity. }
    split; [exact E |]. rewrite E. cbn [Static.imaginary].
    destruct (Static.imaginary (Static.acosh (Static.VComplex (Static.reciprocal_of c))));
      reflexivity. }
  repeat split.
Qed.

(** At the origin the instance [acsch] is not the specification's
    [(Infinity, 0)]. *)
Lemma instance_acsch_origin_not_infinity :
  Instance.acsch (eng := Readme.engine) (Instance.mk Instance.ZERO Instance.ZERO)
  <> Instance.mk (Inf Positive) Instance.ZERO.
Proof. vm_compute. discriminate. Qed.

(** C6 (amended).  For finite [a] and [b], when the components of [a]
    fit the precision and both componentwise sums [a + b] are exact at
    the precision (no digit is rounded away and the exponent stays in
    range), [a.add(b).sub(b)] equals [a] by [eq]. *)
Theorem add_sub_roundtrip {eng : Dec.Engine} (a b : Instance.Complex) :
  Dec.isFinite (Instance.re a) = true ->
  Dec.isFinite (Instance.im a) = true ->
  Dec.isFinite (Instance.re b) = true ->
  Dec.isFinite (Instance.im b) = true ->
  Dec.representable (Instance.re a) ->
  Dec.representable (Instance.im a) ->
  Dec.representable (Dec.add_exact (Instance.re a) (Instance.re b)) ->
  Dec.representable (Dec.add_exact (Instance.im a) (Instance.im b)) ->
  Instance.eq (Instance.sub (Instance.add a b) b) a = true
  /\ Static.equals
       (Static.subtract
          (Static.VComplex (Static.add (Static.VComplex (lift a)) (Static.VComplex (lift b))))
          (Static.VComplex (lift b)))
       (lift a) = true.
Proof.
  intros F1 F2 F3 F4 R1 R2 R3 R4.
  assert (H : Dec.eq (Dec.sub (Dec.add (Instance.re a) (Instance.re b)) (Instance.re b))
                     (Instance.re a)
              && Dec.eq (Dec.sub (Dec.add (Instance.im a) (Instance.im b)) (Instance.im b))
                        (Instance.im a) = true).
  { rewrite !DecFacts.add_sub_component by assumption. reflexivity. }
  split; exact H.
Qed.

(** An instance of C6's hypotheses: [a = 1.5 - 2i], [b = 0.25 + 7i]. *)
Lemma add_sub_roundtrip_witness :
  Instance.eq
    (Instance.sub (eng := Readme.engine)
       (Instance.add (eng := Readme.engine)
          (Instance.mk (Num Positive 15 (-1)) (Dec.of_Z (-2)))
          (Instance.mk (Num Positive 25 (-2)) (Dec.of_Z 7)))
       (Instance.mk (Num Positive 25 (-2)) (Dec.of_Z 7)))
    (Instance.mk (Num Positive 15 (-1)) (Dec.of_Z (-2))) = true.
Proof.
  apply (add_sub_roundtrip (eng := Readme.engine)
           (Instance.mk (Num Positive 15 (-1)) (Dec.of_Z (-2)))
           (Instance.mk (Num Positive 25 (-2)) (Dec.of_Z 7)));
    reflexivity.
Defined.

(** At 20 digits [1e-20 + 1] is rounded to [1], and subtracting [1]
    again leaves [0], not [1e-20]. *)
Lemma add_sub_loses_small_operand :
  Instance.eq
    (Instance.sub (eng := Readme.engine)
       (Instance.add (eng := Readme.engine)
          (Instance.mk (Num Positive 1 (-20)) (Dec.of_Z 0))
          (Instance.mk (Dec.of_Z 1) (Dec.of_Z 0)))
       (Instance.mk (Dec.of_Z 1) (Dec.of_Z 0)))
    (Instance.mk (Num Positive 1 (-20)) (Dec.of_Z 0)) = false.
Proof. vm_compute. reflexivity. Qed.

(** Nor on the infinities: [(1 + Infinity) - Infinity] is NaN. *)
Example add_sub_infinity :
  Instance.sub (eng := Readme.engine)
    (Instance.add (eng := Readme.engine)
       (Instance.mk (Dec.of_Z 1) (Dec.of_Z 0)) (Instance.mk (Inf Positive) (Dec.of_Z 0)))
    (Instance.mk (Inf Positive) (Dec.of_Z 0))
  = Instance.mk NaN (Dec.of_Z 0).
Proof. vm_compute. reflexivity. Qed.



Example asin_minus_infinity :
  asin_b (eng := Readme.engine)
    (Instance.mk (Num Positive 641033002252269952246 (-21)) (Dec.of_Z 0))
  = Num Positive 99999999999999999995 (-20)
  /\ Instance.im
       (Instance.asin (eng := Readme.engine)
          (Instance.mk (Num Positive 641033002252269952246 (-21)) (Dec.of_Z 0)))
     = Inf Negative
  /\ Instance.im
       (spec_asin (eng := Readme.engine)
          (Instance.mk (Num Positive 641033002252269952246 (-21)) (Dec.of_Z 0)))
     = NaN
  /\ Instance.asin (eng := Readme.engine) (Instance.mk NaN (Dec.of_Z (-1)))
     = Instance.mk NaN (Inf Negative).
Proof. repeat split; vm_compute; reflexivity. Qed.

(** The README's engine meets the premises on [asin(1)] and
    [ln(2 + sqrt(3))], and prints the README's [r.asin()]. *)
Example readme_asin_two :
  Instance.asin (eng := Readme.engine) (Instance.mk (Dec.of_Z 2) (Dec.of_Z 0))
  = Instance.mk (Num Positive 15707963267948966192 (-19))
                (Num Negative 13169578969248167086 (-19)).
Proof. vm_compute. reflexivity. Qed.

(** C8.  Division by the zero complex number returns: for every [a] and
    either sign of the zero components the result is [(NaN, NaN)], in
    both classes.  The instance method [log] does not return: for every
    receiver and base it throws a TypeError, because complex.js calls
    [Complex.divide] and defines no such static method; the static
    [acsch] throws at the origin, where it reads the missing property
    [c.INFINITY]. *)
Theorem div_by_zero_returns_log_throws {eng : Dec.Engine}
    (a : Instance.Complex) (s1 s2 : sign) (n : option Instance.Complex) :
  Instance.div a (Instance.mk (Zero s1) (Zero s2)) = Instance.mk NaN NaN
  /\ Static.divide (Static.VComplex (lift a))
       (Static.VComplex (Static.mk (Zero s1) (Zero s2))) = Static.mk NaN NaN
  /\ Instance.log a n = Thrown TypeError
  /\ Static.acsch (Static.VComplex Static.zero) = Thrown TypeError.
Proof.
  split; [apply ComplexFacts.instance_div_zero |].
  split; [apply ComplexFacts.static_divide_zero |].
  split; reflexivity.
Qed.

(** C9.  [sqrt] on the real axis and off it: with [im] equal to zero the
    result is [(sqrt(re), 0)] when [re >= 0] and [(0, sqrt(|re|))] when
    [re < 0]; otherwise it is [pow(z, 0.5)].  At every precision
    [sqrt(-1)] is exactly [(0, 1)] and [sqrt(4)] is exactly [(2, 0)].
    The static [Complex.sqrt] has the same three cases: on the real axis
    it returns the components the instance method returns, and off it
    [Complex.exponent(c, ONE_HALF)]. *)
Theorem sqrt_real_axis {eng : Dec.Engine} (z : Instance.Complex) :
  (Dec.eq (Instance.im z) Instance.ZERO = true ->
   Dec.gte (Instance.re z) Instance.ZERO = true ->
   Instance.sqrt z = Instance.mk (Dec.sqrt (Instance.re z)) Instance.ZERO)
  /\ (Dec.eq (Instance.im z) Instance.ZERO = true ->
      Dec.lt (Instance.re z) Instance.ZERO = true ->
      Instance.sqrt z = Instance.mk Instance.ZERO (Dec.sqrt (Dec.abs (Instance.re z))))
  /\ (Dec.eq (Instance.im z) Instance.ZERO = false ->
      Instance.sqrt z = Instance.pow z (Instance.mk Instance.ONE_HALF Instance.ZERO))
  /\ Instance.sqrt (Instance.mk (Dec.of_Z (-1)) Instance.ZERO)
     = Instance.mk Instance.ZERO Instance.ONE
  /\ Instance.sqrt (Instance.mk (Dec.of_Z 4) Instance.ZERO)
     = Instance.mk Instance.TWO Instance.ZERO
  /\ (Dec.eq (Instance.im z) Instance.ZERO = true ->
      Static.sqrt (Static.VComplex (lift z)) = lift (Instance.sqrt z))
  /\ (Dec.eq (Instance.im z) Instance.ZERO = false ->
      Static.sqrt (Static.VComplex (lift z))
      = Static.exponent (Static.VComplex (lift z)) (Static.VDecimal Static.ONE_HALF))
  /\ Static.sqrt (Static.VComplex (Static.mk (Dec.of_Z (-1)) Static.ZERO))
     = Static.mk Static.ZERO Static.ONE
  /\ Static.sqrt (Static.VComplex (Static.mk (Dec.of_Z 4) Static.ZERO))
     = Static.mk Static.TWO Static.ZERO.
Proof.
  assert (M : Instance.sqrt (Instance.mk (Dec.of_Z (-1)) Instance.ZERO)
              = Instance.mk Instance.ZERO Instance.ONE).
  { unfold Instance.sqrt. cbn [Instance.im Instance.re].
    change (Dec.eq Instance.ZERO Instance.ZERO) with true.
    change (Dec.gte (Dec.of_Z (-1)) Instance.ZERO) with false.
    cbv iota. change (Dec.abs (Dec.of_Z (-1))) with (Dec.of_Z 1).
    rewrite ComplexFacts.sqrt_one. reflexivity. }
  assert (F : Instance.sqrt (Instance.mk (Dec.of_Z 4) Instance.ZERO)
              = Instance.mk Instance.TWO Instance.ZERO).
  { unfold Instance.sqrt. cbn [Instance.im Instance.re].
    change (Dec.eq Instance.ZERO Instance.ZERO) with true.
    change (Dec.gte (Dec.of_Z 4) Instance.ZERO) with true.
    cbv iota. rewrite ComplexFacts.sqrt_four. reflexivity. }
  split; [| split; [| split; [| split; [exact M | split; [exact F |]]]]].
  - intros Hi Hr. unfold Instance.sqrt. rewrite Hi, Hr. reflexivity.
  - intros Hi Hr. unfold Instance.sqrt.
    rewrite Hi, (ComplexFacts.lt_not_gte _ _ Hr). reflexivity.
  - intros Hi. unfold Instance.sqrt. rewrite Hi. reflexivity.
  - split; [apply Agreement.sqrt_lift_real_axis |]. split; [| split].
    + intros Hi. unfold Static.sqrt. cbn [Static.convertToComplex].
      change (Static.imaginary (lift z)) with (Instance.im z).
      change Static.ZERO with Instance.ZERO. rewrite Hi. reflexivity.
    + change (Static.mk (Dec.of_Z (-1)) Static.ZERO)
        with (lift (Instance.mk (Dec.of_Z (-1)) Instance.ZERO)).
      rewrite Agreement.sqrt_lift_real_axis by reflexivity. rewrite M. reflexivity.
    + change (Static.mk (Dec.of_Z 4) Static.ZERO)
        with (lift (Instance.mk (Dec.of_Z 4) Instance.ZERO)).
      rewrite Agreement.sqrt_lift_real_axis by reflexivity. rewrite F. reflexivity.
Qed.

(** C10.  Equality is reflexive exactly away from NaN: [z.eq(z)], and
    [Complex.equals(z, z)] in the static class, return true if and only
    if neither component of [z] is NaN; the constant [Complex.nan] is not
    equal to itself. *)
Theorem eq_reflexive_iff_no_nan (z : Instance.Complex) :
  (Instance.eq z z = true
   <-> Dec.isNaN (Instance.re z) = false /\ Dec.isNaN (Instance.im z) = false)
  /\ (Static.equals (lift z) (lift z) = true
      <-> Dec.isNaN (Instance.re z) = false /\ Dec.isNaN (Instance.im z) = false)
  /\ Static.equals Static.nan Static.nan = false.
Proof.
  assert (H : Dec.eq (Instance.re z) (Instance.re z) && Dec.eq (Instance.im z) (Instance.im z) = true
              <-> Dec.isNaN (Instance.re z) = false /\ Dec.isNaN (Instance.im z) = false).
  { rewrite andb_true_iff, !DecFacts.eq_refl_iff. tauto. }
  split; [exact H | split; [exact H | reflexivity]].
Qed.

(* ================================================================== *)
(** ** Signs, values and equality of Decimals *)
Module Laws.
Import Dec.

Lemma neg_involutive (x : Decimal) : neg (neg x) = x.
Proof. destruct x as [| [] | [] | [] c e]; reflexivity. Qed.

Lemma in_range_neg (s : sign) (c : positive) (e : Z) :
  in_range (sign_neg s) c e = neg (in_range s c e).
Proof.
  unfold in_range. destruct (sci_exponent c e >? maxE); [reflexivity |].
  destruct (sci_exponent c e <? minE); reflexivity.
Qed.

Lemma in_range_abs (s : sign) (c : positive) (e : Z) :
  in_range Positive c e = abs (in_range s c e).
Proof.
  unfold in_range. destruct (sci_exponent c e >? maxE); [reflexivity |].
  destruct (sci_exponent c e <? minE); reflexivity.
Qed.

Lemma finalise_num_neg (p : Z) (s : sign) (c : positive) (e : Z) :
  finalise_num p (sign_neg s) c e = neg (finalise_num p s c e).
Proof.
  unfold finalise_num. destruct (strip c e) as [c0 e0].
  destruct (round_digits p c0 e0) as [c1 e1]. destruct (strip c1 e1).
  apply in_range_neg.
Qed.

Lemma finalise_num_abs (p : Z) (s : sign) (c : positive) (e : Z) :
  finalise_num p Positive c e = abs (finalise_num p s c e).
Proof.
  unfold finalise_num. destruct (strip c e) as [c0 e0].
  destruct (round_digits p c0 e0) as [c1 e1]. destruct (strip c1 e1).
  apply in_range_abs.
Qed.

(** Rounding is symmetric about zero. *)
Lemma finalise_neg (p : Z) (x : Decimal) : finalise p (neg x) = neg (finalise p x).
Proof.
  destruct x as [| s | s | s c e]; cbn [neg finalise]; try reflexivity.
  apply finalise_num_neg.
Qed.

Lemma finalise_abs (p : Z) (x : Decimal) : finalise p (abs x) = abs (finalise p x).
Proof.
  destruct x as [| s | s | s c e]; cbn [abs finalise]; try reflexivity.
  apply finalise_num_abs.
Qed.

(** The sign of a rounded value is the sign it had. *)
Lemma finalise_num_sign (p : Z) (s : sign) (c : positive) (e : Z) :
  sign_of (finalise_num p s c e) = Some s.
Proof.
  unfold finalise_num. destruct (strip c e) as [c0 e0].
  destruct (round_digits p c0 e0) as [c1 e1]. destruct (strip c1 e1) as [c2 e2].
  unfold in_range. destruct (sci_exponent c2 e2 >? maxE); [reflexivity |].
  destruct (sci_exponent c2 e2 <? minE); reflexivity.
Qed.

Lemma finalise_sign (p : Z) (x : Decimal) : sign_of (finalise p x) = sign_of x.
Proof.
  destruct x as [| s | s | s c e]; cbn [finalise]; try reflexivity.
  apply finalise_num_sign.
Qed.

Lemma finalise_isNaN (p : Z) (x : Decimal) : isNaN (finalise p x) = isNaN x.
Proof.
  pose proof (finalise_sign p x) as H.
  destruct x as [| s | s | s c e]; try reflexivity.
  cbn [isNaN]. destruct (finalise p (Num s c e)); [discriminate H | reflexivity ..].
Qed.

(** Comparison with zero reads the sign. *)
Lemma lt_zero (x : Decimal) (t : sign) :
  lt x (Zero t) = match x with Inf Negative | Num Negative _ _ => true | _ => false end.
Proof. destruct x as [| [] | [] | [] c e]; reflexivity. Qed.

Lemma gt_zero (x : Decimal) (t : sign) :
  gt x (Zero t) = match x with Inf Positive | Num Positive _ _ => true | _ => false end.
Proof. destruct x as [| [] | [] | [] c e]; reflexivity. Qed.

Lemma eq_zero (x : Decimal) (t : sign) : eq x (Zero t) = isZero x.
Proof. destruct x as [| [] | [] | [] c e]; reflexivity. Qed.

Lemma lt_zero_sign (x : Decimal) (t : sign) :
  sign_of x = Some Positive -> lt x (Zero t) = false.
Proof.
  rewrite lt_zero. destruct x as [| [] | [] | [] c e]; cbn [sign_of];
    intros H; try reflexivity; discriminate H.
Qed.

(** *** Equality is equality of values *)

Lemma strip_value_eq (c d : positive) (e f k : Z) :
  k <= e -> k <= f ->
  strip c e = strip d f ->
  Z.pos c * 10 ^ (e - k) = Z.pos d * 10 ^ (f - k).
Proof.
  intros Ke Kf H.
  destruct (strip c e) as [c0 e0] eqn:S1. symmetry in H.
  pose proof (DecFacts.strip_spec _ _ _ _ S1) as (V1 & L1 & _).
  pose proof (DecFacts.strip_spec _ _ _ _ H) as (V2 & L2 & _).
  rewrite V1, V2, <- !Z.mul_assoc, <- !Z.pow_add_r by lia.
  f_equal. f_equal. lia.
Qed.

Lemma canon_isNaN (x : Decimal) : isNaN (canon x) = isNaN x.
Proof.
  destruct x as [| s | s | s c e]; try reflexivity.
  unfold canon. cbn [normal]. destruct (strip c e). reflexivity.
Qed.

Lemma canon_num (s : sign) (c c0 : positive) (e e0 : Z) :
  strip c e = (c0, e0) -> canon (Num s c e) = Num s c0 e0.
Proof. intros S. unfold canon. cbn [normal]. rewrite S. reflexivity. Qed.

Lemma eq_num_canon (s t : sign) (c d : positive) (e f : Z) :
  eq (Num s c e) (Num t d f) = true <-> s = t /\ strip c e = strip d f.
Proof.
  unfold eq, cmp, align.
  set (k := Z.min e f).
  assert (Ke : k <= e) by (unfold k; lia).
  assert (Kf : k <= f) by (unfold k; lia).
  pose proof (DecFacts.pow10_pos (e - k) ltac:(lia)) as P.
  pose proof (DecFacts.pow10_pos (f - k) ltac:(lia)) as Q.
  assert (Pc : 0 < Z.pos c * 10 ^ (e - k)) by (apply Z.mul_pos_pos; lia).
  assert (Qd : 0 < Z.pos d * 10 ^ (f - k)) by (apply Z.mul_pos_pos; lia).
  split.
  - intros H.
    destruct (signed s (Z.pos c) * 10 ^ (e - k) ?= signed t (Z.pos d) * 10 ^ (f - k))
      eqn:C; try discriminate H.
    apply Z.compare_eq in C.
    destruct s, t; cbn [signed] in C; try lia;
      (split; [reflexivity | apply (DecFacts.strip_unique c d e f k Ke Kf); lia]).
  - intros [-> S].
    pose proof (strip_value_eq c d e f k Ke Kf S) as V.
    replace (signed t (Z.pos c) * 10 ^ (e - k)) with (signed t (Z.pos d) * 10 ^ (f - k))
      by (destruct t; cbn [signed]; lia).
    rewrite Z.compare_refl. reflexivity.
Qed.

(** [x.eq(y)] holds exactly when neither is NaN and both hold the same
    value. *)
Lemma eq_canon (x y : Decimal) :
  eq x y = true <-> isNaN x = false /\ isNaN y = false /\ canon x = canon y.
Proof.
  destruct x as [| sx | sx | sx cx ex], y as [| sy | sy | sy cy ey];
    try (split; [intros H; discriminate H | intros (H1 & H2 & H3); discriminate]).
  - destruct sx, sy; (split; [intros H; try discriminate H; auto
                             | intros (H1 & H2 & H3); try discriminate H3; reflexivity]).
  - split; [destruct sx; intros H; discriminate H |].
    intros (_ & _ & H). unfold canon in H. cbn [normal] in H. discriminate H.
  - split; [destruct sx, sy; intros H; discriminate H |].
    intros (_ & _ & H). unfold canon in H. cbn [normal] in H.
    destruct (strip cy ey). discriminate H.
  - split; [destruct sy; intros H; discriminate H |].
    intros (_ & _ & H). unfold canon in H. cbn [normal] in H. discriminate H.
  - split; [intros _; auto | reflexivity].
  - split; [destruct sy; intros H; discriminate H |].
    intros (_ & _ & H). unfold canon in H. cbn [normal] in H.
    destruct (strip cy ey). discriminate H.
  - split; [destruct sx, sy; intros H; discriminate H |].
    intros (_ & _ & H). unfold canon in H. cbn [normal] in H.
    destruct (strip cx ex). discriminate H.
  - split; [destruct sx; intros H; discriminate H |].
    intros (_ & _ & H). unfold canon in H. cbn [normal] in H.
    destruct (strip cx ex). discriminate H.
  - rewrite eq_num_canon.
    destruct (strip cx ex) as [c0 e0] eqn:S1, (strip cy ey) as [d0 f0] eqn:S2.
    rewrite (canon_num _ _ _ _ _ S1), (canon_num _ _ _ _ _ S2).
    split.
    + intros [-> H]. inversion H; subst. auto.
    + intros (_ & _ & H). inversion H; subst. auto.
Qed.

Lemma eq_sym (x y : Decimal) : eq x y = eq y x.
Proof.
  apply eq_true_iff_eq. rewrite !eq_canon.
  split; intros (H1 & H2 & H3); auto.
Qed.

Lemma eq_trans (x y z : Decimal) : eq x y = true -> eq y z = true -> eq x z = true.
Proof.
  rewrite !eq_canon. intros (H1 & H2 & H3) (_ & H4 & H5).
  repeat split; try assumption. congruence.
Qed.

Lemma canon_idem (x : Decimal) : canon (canon x) = canon x.
Proof.
  destruct x as [| s | s | s c e]; try reflexivity.
  destruct (strip c e) as [c0 e0] eqn:S.
  rewrite (canon_num _ _ _ _ _ S). apply canon_num, (DecFacts.strip_idem _ _ _ _ S).
Qed.

Lemma eq_canon_l (x y : Decimal) : eq (canon x) y = eq x y.
Proof.
  apply eq_true_iff_eq. rewrite !eq_canon, canon_idem, canon_isNaN. tauto.
Qed.

Lemma isZero_canon (x : Decimal) : isZero (canon x) = isZero x.
Proof.
  destruct x as [| s | s | s c e]; try reflexivity.
  unfold canon. cbn [normal]. destruct (strip c e). reflexivity.
Qed.

Lemma lt_zero_canon (x : Decimal) (t : sign) : lt (canon x) (Zero t) = lt x (Zero t).
Proof.
  rewrite !lt_zero. destruct x as [| [] | [] | [] c e]; try reflexivity;
    unfold canon; cbn [normal]; destruct (strip c e); reflexivity.
Qed.

Lemma gt_zero_canon (x : Decimal) (t : sign) : gt (canon x) (Zero t) = gt x (Zero t).
Proof.
  rewrite !gt_zero. destruct x as [| [] | [] | [] c e]; try reflexivity;
    unfold canon; cbn [normal]; destruct (strip c e); reflexivity.
Qed.

(** *** Strings read the value *)

Lemma finite_string_strip (c c0 : positive) (e e0 : Z) :
  strip c e = (c0, e0) -> finite_string c0 e0 = finite_string c e.
Proof.
  intros S. unfold finite_string. rewrite S, (DecFacts.strip_idem _ _ _ _ S).
  reflexivity.
Qed.

Lemma toString_canon (x : Decimal) : toString (canon x) = toString x.
Proof.
  destruct x as [| [] | [] | [] c e]; try reflexivity;
    destruct (strip c e) as [c0 e0] eqn:S;
    rewrite (canon_num _ _ _ _ _ S); cbn [toString unsigned_string];
    rewrite (finite_string_strip _ _ _ _ S); reflexivity.
Qed.

Lemma valueOf_canon (x : Decimal) : isZero x = false -> valueOf (canon x) = valueOf x.
Proof.
  destruct x as [| [] | [] | [] c e]; intros H; try discriminate H; try reflexivity;
    destruct (strip c e) as [c0 e0] eqn:S;
    rewrite (canon_num _ _ _ _ _ S); cbn [valueOf toString unsigned_string];
    rewrite (finite_string_strip _ _ _ _ S); reflexivity.
Qed.

Lemma valueOf_abs_canon (x : Decimal) : valueOf (abs (canon x)) = valueOf (abs x).
Proof.
  destruct x as [| [] | [] | [] c e]; try reflexivity;
    destruct (strip c e) as [c0 e0] eqn:S;
    rewrite (canon_num _ _ _ _ _ S); cbn [abs valueOf toString unsigned_string];
    rewrite (finite_string_strip _ _ _ _ S); reflexivity.
Qed.

(** *** Rounding twice *)

Lemma finalise_num_short (p : Z) (s : sign) (c c0 : positive) (e e0 : Z) :
  strip c e = (c0, e0) -> ndigits c0 <= p ->
  finalise_num p s c e = in_range s c0 e0.
Proof.
  intros S D. unfold finalise_num, round_digits. rewrite S.
  apply Z.leb_le in D. rewrite D, (DecFacts.strip_idem _ _ _ _ S). reflexivity.
Qed.

Lemma pow10_mod10 (p : Z) : 1 <= p -> 10 ^ p mod 10 = 0.
Proof.
  intros H. replace p with ((p - 1) + 1) by lia.
  rewrite DecFacts.pow10_succ by lia. rewrite Z.mul_comm. apply Z_mod_mult.
Qed.

(** Rounding to [p] digits leaves a coefficient of at most [10^p]. *)
Lemma round_digits_bound (p : Z) (c : positive) (e : Z) :
  1 <= p -> Z.pos (fst (round_digits p c e)) <= 10 ^ p.
Proof.
  intros P. unfold round_digits.
  destruct (DecFacts.ndigits_spec c) as (D1 & D2 & D3).
  destruct (ndigits c <=? p) eqn:L; cbn [fst].
  - apply Z.leb_le in L.
    assert (10 ^ ndigits c <= 10 ^ p) by (apply Z.pow_le_mono_r; lia). lia.
  - apply Z.leb_gt in L.
    set (k := ndigits c - p) in *.
    assert (K : 1 <= k) by (unfold k; lia).
    pose proof (DecFacts.pow10_pos (k - 1) ltac:(lia)) as Q1.
    pose proof (DecFacts.pow10_pos p ltac:(lia)) as Qp.
    assert (Ek : 10 ^ k = 10 * 10 ^ (k - 1)).
    { replace k with ((k - 1) + 1) at 1 by lia. apply DecFacts.pow10_succ. lia. }
    assert (Ed : 10 ^ ndigits c = 10 ^ p * 10 ^ k).
    { rewrite <- Z.pow_add_r by lia. f_equal. unfold k. lia. }
    assert (Ed1 : 10 ^ (ndigits c - 1) = 10 ^ (p - 1) * 10 ^ k).
    { rewrite <- Z.pow_add_r by lia. f_equal. unfold k. lia. }
    pose proof (DecFacts.pow10_pos (p - 1) ltac:(lia)) as Qp1.
    assert (Lo : 1 <= (Z.pos c + 5 * 10 ^ (k - 1)) / 10 ^ k).
    { apply Z.div_le_lower_bound; nia. }
    assert (Hi : (Z.pos c + 5 * 10 ^ (k - 1)) / 10 ^ k < 10 ^ p + 1).
    { apply Z.div_lt_upper_bound; nia. }
    rewrite Z2Pos.id by lia. lia.
Qed.

(** What [finalise] returns: canonical digits, at most [p] of them. *)
Lemma finalise_num_rounded (p : Z) (s : sign) (c : positive) (e : Z) :
  1 <= p ->
  exists c2 e2,
    finalise_num p s c e = in_range s c2 e2
    /\ strip c2 e2 = (c2, e2) /\ ndigits c2 <= p.
Proof.
  intros P. unfold finalise_num.
  destruct (strip c e) as [c0 e0].
  pose proof (round_digits_bound p c0 e0 P) as B.
  destruct (round_digits p c0 e0) as [c1 e1]. cbn [fst] in B.
  destruct (strip c1 e1) as [c2 e2] eqn:S.
  exists c2, e2. split; [reflexivity |]. split; [apply (DecFacts.strip_idem _ _ _ _ S) |].
  pose proof (DecFacts.strip_spec _ _ _ _ S) as (V & L & N).
  pose proof (DecFacts.pow10_pos (e2 - e1) ltac:(lia)) as Q.
  apply DecFacts.ndigits_le; [lia |].
  assert (Z.pos c2 <= Z.pos c1) by nia.
  assert (Z.pos c2 <> 10 ^ p).
  { intros E. apply N. rewrite E. apply pow10_mod10, P. }
  lia.
Qed.

(** A value rounded to [p] digits is unchanged by rounding to [p] or
    more digits. *)
Lemma finalise_fixed (p q : Z) (x : Decimal) :
  1 <= p -> p <= q -> finalise q (finalise p x) = finalise p x.
Proof.
  intros P Q. destruct x as [| s | s | s c e]; try reflexivity.
  cbn [finalise].
  destruct (finalise_num_rounded p s c e P) as (c2 & e2 & -> & S & D).
  unfold in_range.
  destruct (sci_exponent c2 e2 >? maxE) eqn:A; [reflexivity |].
  destruct (sci_exponent c2 e2 <? minE) eqn:B; [reflexivity |].
  cbn [finalise]. rewrite (finalise_num_short q s c2 c2 e2 e2 S) by lia.
  unfold in_range. rewrite A, B. reflexivity.
Qed.

Lemma finalise_canonical (p : Z) (x : Decimal) :
  1 <= p -> normal (finalise p x) = finalise p x.
Proof.
  intros P. destruct x as [| s | s | s c e]; try reflexivity.
  cbn [finalise].
  destruct (finalise_num_rounded p s c e P) as (c2 & e2 & -> & S & D).
  unfold in_range.
  destruct (sci_exponent c2 e2 >? maxE); [reflexivity |].
  destruct (sci_exponent c2 e2 <? minE); [reflexivity |].
  cbn [normal]. rewrite S. reflexivity.
Qed.

(** *** Negation, zero and one in the rounded operations *)

Lemma sign_mul_neg_r (a b : sign) : sign_mul a (sign_neg b) = sign_neg (sign_mul a b).
Proof. destruct a, b; reflexivity. Qed.

Lemma sign_mul_diag (a : sign) : sign_mul a a = Positive.
Proof. destruct a; reflexivity. Qed.

Lemma mul_exact_neg_r (x y : Decimal) : mul_exact x (neg y) = neg (mul_exact x y).
Proof.
  destruct x as [| sx | sx | sx cx ex], y as [| sy | sy | sy cy ey];
    cbn [mul_exact neg]; rewrite ?sign_mul_neg_r; reflexivity.
Qed.

Section Arithmetic.
Context {eng : Engine}.

Lemma mul_neg_r (x y : Decimal) : mul x (neg y) = neg (mul x y).
Proof. unfold mul. rewrite mul_exact_neg_r. apply finalise_neg. Qed.

Lemma mul_neg_l (x y : Decimal) : mul (neg x) y = neg (mul x y).
Proof. rewrite (DecFacts.mul_comm (neg x)), mul_neg_r, (DecFacts.mul_comm y). reflexivity. Qed.

Lemma mul_neg_neg (x y : Decimal) : mul (neg x) (neg y) = mul x y.
Proof. rewrite mul_neg_l, mul_neg_r. apply neg_involutive. Qed.

(** A value and its negation sum to +0; on NaN and on the infinities the
    sum is NaN. *)
Lemma add_neg_self (m : Decimal) :
  add (neg m) m = if isFinite m then Zero Positive else NaN.
Proof.
  unfold add. destruct m as [| s | s | s c e]; cbn [neg isFinite].
  - reflexivity.
  - destruct s; reflexivity.
  - destruct s; reflexivity.
  - cbn [add_exact]. unfold align. rewrite DecFacts.signed_neg.
    replace (- signed s (Z.pos c) * 10 ^ (e - Z.min e e)
             + signed s (Z.pos c) * 10 ^ (e - Z.min e e)) with 0 by lia.
    reflexivity.
Qed.

Lemma sub_self (m : Decimal) :
  sub m m = if isFinite m then Zero Positive else NaN.
Proof. rewrite DecFacts.sub_add_neg. apply add_neg_self. Qed.

Lemma finalise_mantissa_scale (zs : sign) (M M' k k' : Z) :
  k <= k' -> M' * 10 ^ (k' - k) = M ->
  finalise pr (of_mantissa zs M' k') = finalise pr (of_mantissa zs M k).
Proof.
  intros K H.
  pose proof (DecFacts.pow10_pos (k' - k) ltac:(lia)) as P.
  destruct M as [| p | p].
  - assert (M' = 0) by nia. subst M'. reflexivity.
  - cbn [of_mantissa finalise].
    apply (DecFacts.finalise_mantissa_value zs Positive M' k' k k p); [lia | lia |].
    rewrite Z.sub_diag. cbn [signed]. change (10 ^ 0) with 1. lia.
  - cbn [of_mantissa finalise].
    apply (DecFacts.finalise_mantissa_value zs Negative M' k' k k p); [lia | lia |].
    rewrite Z.sub_diag. cbn [signed]. change (10 ^ 0) with 1. lia.
Qed.

(** The sum depends on the values of the operands, not on how they are
    held. *)
Lemma add_normal_l (x y : Decimal) : add (normal x) y = add x y.
Proof.
  unfold add. destruct x as [| sx | sx | sx cx ex]; try reflexivity.
  cbn [normal]. destruct (strip cx ex) as [c0 e0] eqn:S.
  pose proof (DecFacts.strip_spec _ _ _ _ S) as (V & L & _).
  destruct y as [| sy | sy | sy cy ey]; try reflexivity.
  - cbn [add_exact finalise]. symmetry. apply DecFacts.finalise_num_strip, S.
  - cbn [add_exact]. unfold align.
    apply finalise_mantissa_scale; [lia |].
    rewrite Z.mul_add_distr_r, <- !Z.mul_assoc, <- !Z.pow_add_r by lia.
    replace (e0 - Z.min e0 ey + (Z.min e0 ey - Z.min ex ey)) with (e0 - Z.min ex ey) by lia.
    replace (ey - Z.min e0 ey + (Z.min e0 ey - Z.min ex ey)) with (ey - Z.min ex ey) by lia.
    f_equal.
    replace (e0 - Z.min ex ey) with ((e0 - ex) + (ex - Z.min ex ey)) by lia.
    rewrite Z.pow_add_r by lia.
    destruct sx; cbn [signed]; rewrite V; lia.
Qed.

Lemma add_normal_r (x y : Decimal) : add x (normal y) = add x y.
Proof. rewrite DecFacts.add_comm, add_normal_l. apply DecFacts.add_comm. Qed.

Lemma one_below_precision : Z.pos 1 < 10 ^ pr.
Proof.
  pose proof DecFacts.pr_pos as P.
  assert (10 ^ 1 <= 10 ^ pr) by (apply Z.pow_le_mono_r; lia). lia.
Qed.

Lemma finalise_one (s : sign) : finalise_num pr s 1 0 = Num s 1 0.
Proof. rewrite DecFacts.finalise_int by apply one_below_precision. reflexivity. Qed.

(** [ONE.mul(x)] is [x] rounded to the precision. *)
Lemma mul_one_l (x : Decimal) : mul (of_Z 1) x = finalise pr x.
Proof.
  unfold mul. destruct x as [| [] | [] | [] c e]; reflexivity.
Qed.

Lemma mul_zero_l (s : sign) (x : Decimal) :
  isFinite x = true -> isZero (mul (Zero s) x) = true.
Proof. destruct x as [| t | t | t c e]; intros H; try discriminate H; reflexivity. Qed.

(** [x.pow(TWO)] holds the value of [x.mul(x)]. *)
Lemma pow_two_normal (x : Decimal) : normal (pow x (of_Z 2)) = normal (mul x x).
Proof.
  destruct x as [| [] | [] | s c e]; try reflexivity.
  assert (P : pow (Num s c e) (of_Z 2)
              = if eq (Num s c e) (of_Z 1) then Num s c e
                else finalise_num pr Positive (c * c) (e + e)) by reflexivity.
  rewrite P. clear P.
  unfold mul. cbn [mul_exact finalise]. rewrite sign_mul_diag.
  destruct (eq (Num s c e) (of_Z 1)) eqn:E; [| reflexivity].
  change (of_Z 1) with (Num Positive 1 0) in E.
  apply eq_num_canon in E. destruct E as [-> S].
  change (strip 1 0) with (1%positive, 0) in S.
  pose proof (DecFacts.strip_spec _ _ _ _ S) as (V & L & _).
  assert (S2 : strip (c * c) (e + e) = (1%positive, 0)).
  { change (1%positive, 0) with (strip 1 0).
    apply (DecFacts.strip_unique (c * c) 1 (e + e) 0 (e + e)); [lia | lia |].
    rewrite Z.sub_diag. change (10 ^ 0) with 1.
    replace (0 - (e + e)) with ((0 - e) + (0 - e)) by lia.
    rewrite Z.pow_add_r by lia. rewrite Pos2Z.inj_mul, V. lia. }
  rewrite (DecFacts.finalise_num_strip Positive _ _ _ _ S2), finalise_one.
  cbn [normal]. rewrite S. reflexivity.
Qed.

(** A finite non-zero value divided by itself is exactly 1. *)
Lemma div_self (n : Decimal) :
  isFinite n = true -> isZero n = false -> div n n = of_Z 1.
Proof.
  destruct n as [| s | s | s c e]; intros F Z; try discriminate.
  unfold div. rewrite sign_mul_diag. cbn [signed].
  set (j := pr + 1 + ndigits c).
  assert (J : 0 <= j).
  { pose proof DecFacts.pr_pos. destruct (DecFacts.ndigits_spec c). unfold j. lia. }
  rewrite (Z.mul_comm (Z.pos c)), Z.div_mul by lia.
  rewrite (DecFacts.finalise_mantissa_value Positive Positive _ _ (- j) 0 1);
    [apply finalise_one | lia | lia |].
  cbn [signed]. replace (e - e - j - - j) with 0 by lia.
  replace (0 - - j) with j by lia. change (10 ^ 0) with 1. lia.
Qed.

(** The squares and their sum are never negative. *)
Lemma mul_diag_sign (x : Decimal) :
  sign_of (mul x x) = if isNaN x then None else Some Positive.
Proof.
  unfold mul. rewrite finalise_sign.
  destruct x as [| s | s | s c e]; cbn [mul_exact sign_of isNaN];
    rewrite ?sign_mul_diag; reflexivity.
Qed.

Lemma add_sign_positive (x y : Decimal) :
  sign_of x = Some Positive -> sign_of y = Some Positive ->
  sign_of (add x y) = Some Positive.
Proof.
  unfold add. rewrite finalise_sign.
  destruct x as [| sx | sx | sx cx ex]; cbn [sign_of]; intros Hx; inversion Hx; subst;
  destruct y as [| sy | sy | sy cy ey]; cbn [sign_of]; intros Hy; inversion Hy; subst;
    try reflexivity.
  cbn [add_exact]. unfold align. cbn [signed].
  set (k := Z.min ex ey).
  pose proof (DecFacts.pow10_pos (ex - k) ltac:(unfold k; lia)) as P.
  pose proof (DecFacts.pow10_pos (ey - k) ltac:(unfold k; lia)) as Q.
  assert (A : 0 < Z.pos cx * 10 ^ (ex - k)) by (apply Z.mul_pos_pos; lia).
  assert (B : 0 < Z.pos cy * 10 ^ (ey - k)) by (apply Z.mul_pos_pos; lia).
  destruct (Z.pos cx * 10 ^ (ex - k) + Z.pos cy * 10 ^ (ey - k)) eqn:E;
    try lia. reflexivity.
Qed.

Lemma mul_diag_isNaN (x : Decimal) : isNaN (mul x x) = isNaN x.
Proof. unfold mul. rewrite finalise_isNaN. destruct x; reflexivity. Qed.

Lemma add_finite_inv (x y : Decimal) :
  isFinite (add x y) = true -> isNaN x = false /\ isNaN y = false.
Proof.
  unfold add.
  destruct x as [| sx | sx | sx cx ex], y as [| sy | sy | sy cy ey];
    cbn [add_exact finalise isFinite isNaN]; intros H; try discriminate H;
    split; reflexivity.
Qed.

Lemma eq_neg_self (x : Decimal) : eq (neg x) x = isZero x.
Proof.
  destruct x as [| [] | [] | s c e]; try reflexivity.
  cbn [neg isZero]. destruct (eq (Num (sign_neg s) c e) (Num s c e)) eqn:E; [| reflexivity].
  apply eq_num_canon in E. destruct E as [E _]. destruct s; discriminate E.
Qed.

(** Every arithmetic result is already rounded: rounding it again to the
    precision returns it. *)
Lemma add_fixed (x y : Decimal) : finalise pr (add x y) = add x y.
Proof. apply finalise_fixed; [apply DecFacts.pr_pos | lia]. Qed.

Lemma sub_fixed (x y : Decimal) : finalise pr (sub x y) = sub x y.
Proof. apply finalise_fixed; [apply DecFacts.pr_pos | lia]. Qed.

Lemma mul_fixed (x y : Decimal) : finalise pr (mul x y) = mul x y.
Proof. apply finalise_fixed; [apply DecFacts.pr_pos | lia]. Qed.

Lemma div_fixed (x y : Decimal) : finalise pr (div x y) = div x y.
Proof.
  destruct x as [| sx | sx | sx cx ex], y as [| sy | sy | sy cy ey]; try reflexivity.
  unfold div. apply finalise_fixed; [apply DecFacts.pr_pos | lia].
Qed.

Lemma sign_mul_neg_l (a b : sign) : sign_mul (sign_neg a) b = sign_neg (sign_mul a b).
Proof. destruct a, b; reflexivity. Qed.

(** The quotient of a negated dividend is the negated quotient, the sign
    of a zero quotient included. *)
Lemma div_neg_l (x y : Decimal) : div (neg x) y = neg (div x y).
Proof.
  destruct x as [| sx | sx | sx cx ex], y as [| sy | sy | sy cy ey];
    cbn [div neg]; rewrite ?sign_mul_neg_l; try reflexivity.
  rewrite <- finalise_neg. f_equal.
  rewrite DecFacts.signed_neg.
  destruct (signed (sign_mul sx sy) (Z.pos cx * 10 ^ (pr + 1 + ndigits cy) / Z.pos cy));
    reflexivity.
Qed.

(** *** One over a value *)

Lemma add_zero_fixed (x z : Decimal) :
  finalise pr x = x -> isZero z = true ->
  add x z = x \/ (isZero x = true /\ isZero (add x z) = true).
Proof.
  intros R Z. destruct z as [| t | t | t d f]; try discriminate Z.
  destruct x as [| s | s | s c e].
  - left; reflexivity.
  - left; reflexivity.
  - right. split; [reflexivity | destruct s, t; reflexivity].
  - left. exact R.
Qed.

Lemma zero_sub_fixed (y z : Decimal) :
  finalise pr y = y -> isZero z = true ->
  sub z y = neg y \/ (isZero (neg y) = true /\ isZero (sub z y) = true).
Proof.
  intros R Z. destruct z as [| t | t | t d f]; try discriminate Z.
  destruct y as [| s | s | s c e].
  - left; reflexivity.
  - left; reflexivity.
  - right. split; [reflexivity | destruct s, t; reflexivity].
  - left. unfold sub. cbn [sub_exact].
    change (Num (sign_neg s) c e) with (neg (Num s c e)).
    rewrite finalise_neg, R. reflexivity.
Qed.

Lemma div_zero_canon (a b d : Decimal) :
  isZero a = true -> isZero b = true -> canon (div a d) = canon (div b d).
Proof.
  destruct a as [| | s |]; intros A; try discriminate A.
  destruct b as [| | t |]; intros B; try discriminate B.
  destruct d as [| u | u | u c e]; reflexivity.
Qed.

Lemma signed_mul (s : sign) (a b : Z) : signed s (a * b) = signed s a * b.
Proof. destruct s; cbn [signed]; lia. Qed.

(** [x.div(ONE)] is [x] rounded to the precision. *)
Lemma div_one_r (x : Decimal) : div x (of_Z 1) = finalise pr x.
Proof.
  change (of_Z 1) with (Num Positive 1 0).
  destruct x as [| [] | [] | s c e]; try reflexivity.
  unfold div.
  replace (sign_mul s Positive) with s by (destruct s; reflexivity).
  set (j := pr + 1 + ndigits 1).
  assert (J : 0 <= j).
  { pose proof DecFacts.pr_pos. destruct (DecFacts.ndigits_spec 1). unfold j. lia. }
  rewrite Z.div_1_r, signed_mul. cbn [finalise].
  apply (DecFacts.finalise_mantissa_value s s _ _ (e - 0 - j) e c); [lia | lia |].
  rewrite Z.sub_diag. change (10 ^ 0) with 1.
  replace (e - (e - 0 - j)) with j by lia. lia.
Qed.

Lemma one_denominator :
  add (pow (of_Z 1) (of_Z 2)) (pow (of_Z 0) (of_Z 2)) = of_Z 1.
Proof.
  change (pow (of_Z 1) (of_Z 2)) with (Num Positive 1 0).
  change (pow (of_Z 0) (of_Z 2)) with (Zero Positive).
  unfold add. cbn [add_exact finalise]. apply finalise_one.
Qed.

(** The product of a value's canonical digits with themselves rounds as
    the product of the digits. *)
Lemma square_of_normal (c c0 : positive) (e e0 : Z) :
  strip c e = (c0, e0) ->
  finalise_num pr Positive (c0 * c0) (e0 + e0) = finalise_num pr Positive (c * c) (e + e).
Proof.
  intros S. pose proof (DecFacts.strip_spec _ _ _ _ S) as (V & L & _).
  destruct (strip (c0 * c0) (e0 + e0)) as [a x] eqn:S1.
  rewrite (DecFacts.finalise_num_strip Positive _ _ _ _ S1).
  rewrite (DecFacts.strip_unique (c0 * c0) (c * c) (e0 + e0) (e + e) (e + e)) in S1;
    [symmetry; apply DecFacts.finalise_num_strip, S1 | lia | lia |].
  rewrite Z.sub_diag. change (10 ^ 0) with 1.
  replace (e0 + e0 - (e + e)) with ((e0 - e) + (e0 - e)) by lia.
  rewrite Z.pow_add_r by lia. rewrite !Pos2Z.inj_mul, V. lia.
Qed.

(** Adding a rounded value to a negative zero returns the value. *)
Lemma neg_zero_add_fixed (m : Decimal) :
  finalise pr m = m -> add (Zero Negative) m = m.
Proof.
  intros R. destruct m as [| s | s | s c e]; try reflexivity.
  - destruct s; reflexivity.
  - exact R.
Qed.

(** *** Differences *)

Lemma abs_sub_exact_swap (x y : Decimal) : abs (sub_exact x y) = abs (sub_exact y x).
Proof.
  destruct x as [| sx | sx | sx cx ex], y as [| sy | sy | sy cy ey];
    try reflexivity; try (destruct sx, sy; reflexivity).
  cbn [sub_exact]. unfold align. rewrite (Z.min_comm ey ex).
  set (A := signed sx (Z.pos cx) * 10 ^ (ex - Z.min ex ey)).
  set (B := signed sy (Z.pos cy) * 10 ^ (ey - Z.min ex ey)).
  replace (B - A) with (- (A - B)) by lia.
  destruct (A - B); reflexivity.
Qed.

Lemma abs_sub_swap (x y : Decimal) : abs (sub x y) = abs (sub y x).
Proof. unfold sub. rewrite <- !finalise_abs, abs_sub_exact_swap. reflexivity. Qed.

(** A difference below a finite bound is a difference of finite values. *)
Lemma lt_abs_sub_finite (x y : Decimal) (c : positive) (e : Z) :
  lt (abs (sub x y)) (Num Positive c e) = true ->
  isFinite x = true /\ isFinite y = true.
Proof.
  intros H.
  destruct x as [| sx | sx | sx cx ex], y as [| sy | sy | sy cy ey];
    first [split; reflexivity | exfalso; try destruct sx; try destruct sy; discriminate H].
Qed.

Lemma eq_sub_zero (x y : Decimal) :
  eq x y = true -> isFinite x = true -> isZero (sub x y) = true.
Proof.
  destruct x as [| [] | [] | sx cx ex], y as [| [] | [] | sy cy ey];
    intros H F; try discriminate F; try discriminate H; try reflexivity.
  - destruct sy; discriminate H.
  - destruct sy; discriminate H.
  - destruct sx; discriminate H.
  - destruct sx; discriminate H.
  - unfold eq, cmp in H. unfold sub. cbn [sub_exact]. unfold align in *.
    destruct (signed sx (Z.pos cx) * 10 ^ (ex - Z.min ex ey)
              ?= signed sy (Z.pos cy) * 10 ^ (ey - Z.min ex ey)) eqn:C;
      try discriminate H.
    apply Z.compare_eq in C. rewrite C, Z.sub_diag. reflexivity.
Qed.

Lemma zero_below (z : Decimal) (c : positive) (e : Z) :
  isZero z = true -> lt (abs z) (Num Positive c e) = true.
Proof. destruct z as [| [] | [] | [] d f]; intros H; try discriminate H; reflexivity. Qed.

(** *** Adding a zero; the round trip through a difference *)

Lemma sub_one_zero : sub (of_Z 1) (Zero Positive) = of_Z 1.
Proof. unfold sub. cbn [of_Z sub_exact finalise]. apply finalise_one. Qed.

Lemma add_zero_r_eq (x z : Decimal) :
  isNaN x = false -> representable x -> isZero z = true ->
  eq (add (finalise pr x) z) x = true.
Proof.
  unfold representable. intros N R Z.
  destruct z as [| t | t | t d f]; try discriminate Z.
  destruct x as [| [] | [] | s c e]; try discriminate N;
    try (destruct t; reflexivity).
  rewrite R. cbn [normal]. destruct (strip c e) as [c0 e0] eqn:S.
  unfold add. cbn [add_exact finalise].
  rewrite <- (DecFacts.finalise_num_strip s c c0 e e0 S).
  change (finalise_num pr s c e) with (finalise pr (Num s c e)).
  rewrite R. cbn [normal]. rewrite S.
  apply eq_num_canon. split; [reflexivity |].
  rewrite S. apply (DecFacts.strip_idem _ _ _ _ S).
Qed.

Lemma isFinite_neg (y : Decimal) : isFinite (neg y) = isFinite y.
Proof. destruct y; reflexivity. Qed.

Lemma sub_add_component (x y : Decimal) :
  isFinite x = true -> isFinite y = true ->
  representable x -> representable (sub_exact x y) ->
  eq (add (sub x y) y) x = true.
Proof.
  intros Fx Fy Rx Rs.
  assert (E : add (sub x y) y = sub (add x (neg y)) (neg y)).
  { rewrite (DecFacts.sub_add_neg (add x (neg y))), neg_involutive.
    rewrite (DecFacts.sub_add_neg x y), (DecFacts.add_comm (neg y) x).
    apply DecFacts.add_comm. }
  rewrite E. apply DecFacts.add_sub_component; try assumption.
  - rewrite isFinite_neg. exact Fy.
  - rewrite DecFacts.add_exact_comm, <- DecFacts.sub_exact_add_neg. exact Rs.
Qed.

Lemma representable_neg (x : Decimal) : representable x -> representable (neg x).
Proof.
  unfold representable. intros R. rewrite finalise_neg, R.
  destruct x as [| s | s | s c e]; try reflexivity.
  cbn [normal neg]. destruct (strip c e). reflexivity.
Qed.

Lemma sub_zero_r_eq (x z : Decimal) :
  isNaN x = false -> representable x -> isZero z = true ->
  eq (sub (finalise pr x) z) x = true.
Proof.
  intros N R Z. rewrite DecFacts.sub_add_neg, DecFacts.add_comm.
  apply add_zero_r_eq; try assumption. destruct z; try discriminate Z. reflexivity.
Qed.

Lemma zero_sub_eq (x z : Decimal) :
  isNaN x = false -> representable x -> isZero z = true ->
  eq (sub z (finalise pr x)) (neg x) = true.
Proof.
  intros N R Z. rewrite DecFacts.sub_add_neg, <- finalise_neg.
  apply add_zero_r_eq; [destruct x; try discriminate N; reflexivity
                       | apply representable_neg, R | exact Z].
Qed.

(** Negating both operands negates the sum, up to the sign of a zero. *)
Lemma add_exact_neg_neg (x y : Decimal) :
  add_exact (neg x) (neg y) = neg (add_exact x y)
  \/ (isZero (add_exact (neg x) (neg y)) = true /\ isZero (add_exact x y) = true).
Proof.
  destruct x as [| [] | [] | sx cx ex], y as [| [] | [] | sy cy ey];
    try (left; reflexivity); try (right; split; reflexivity).
  cbn [add_exact neg]. unfold align. rewrite !DecFacts.signed_neg.
  set (A := signed sx (Z.pos cx) * 10 ^ (ex - Z.min ex ey)).
  set (B := signed sy (Z.pos cy) * 10 ^ (ey - Z.min ex ey)).
  replace (- signed sx (Z.pos cx) * 10 ^ (ex - Z.min ex ey)
           + - signed sy (Z.pos cy) * 10 ^ (ey - Z.min ex ey))
    with (- (A + B)) by (unfold A, B; lia).
  destruct (A + B); [right; split; reflexivity | left; reflexivity | left; reflexivity].
Qed.

Lemma add_neg_neg_eq (x y : Decimal) :
  eq (add (neg x) (neg y)) (neg (add x y)) = negb (isNaN (add x y)).
Proof.
  unfold add. rewrite <- finalise_neg, (finalise_isNaN pr (add_exact x y)).
  destruct (add_exact_neg_neg x y) as [-> | [Z1 Z2]].
  - destruct (isNaN (add_exact x y)) eqn:N.
    + destruct (add_exact x y); try discriminate N. reflexivity.
    + cbn [negb]. apply DecFacts.eq_refl_iff.
      rewrite finalise_isNaN. destruct (add_exact x y); try discriminate N; reflexivity.
  - destruct (add_exact (neg x) (neg y)) as [| | t |]; try discriminate Z1.
    destruct (add_exact x y) as [| | t' |]; try discriminate Z2. reflexivity.
Qed.

(** *** Interpolation at the two ends *)

Lemma finite_not_nan (x : Decimal) : isFinite x = true -> isNaN x = false.
Proof. destruct x; intros H; try discriminate H; reflexivity. Qed.

Lemma lerp_component_zero (x y : Decimal) :
  isFinite x = true -> isFinite y = true -> representable x ->
  eq (add (mul (sub (of_Z 1) (of_Z 0)) x) (mul (of_Z 0) y)) x = true.
Proof.
  intros Fx Fy R. change (of_Z 0) with (Zero Positive).
  rewrite sub_one_zero, mul_one_l.
  apply add_zero_r_eq; [apply finite_not_nan, Fx | exact R | apply mul_zero_l, Fy].
Qed.

Lemma lerp_component_one (x y : Decimal) :
  isFinite x = true -> isFinite y = true -> representable y ->
  eq (add (mul (sub (of_Z 1) (of_Z 1)) x) (mul (of_Z 1) y)) y = true.
Proof.
  intros Fx Fy R. rewrite sub_self. change (isFinite (of_Z 1)) with true. cbv iota.
  rewrite mul_one_l, DecFacts.add_comm.
  apply add_zero_r_eq; [apply finite_not_nan, Fy | exact R | apply mul_zero_l, Fx].
Qed.

(** *** Square roots *)

(** The root of an exact square is the rounded base. *)
Lemma sqrt_exact_square (c : positive) (e : Z) :
  sqrt (Num Positive (c * c) (e + e)) = finalise_num pr Positive c e.
Proof.
  unfold sqrt.
  replace (Z.even (e + e)) with true
    by (replace (e + e) with (2 * e) by lia; rewrite Z.even_mul; reflexivity).
  pose proof DecFacts.pr_pos as P.
  set (k := pr + 1).
  assert (Hk : 0 <= k) by (unfold k; lia).
  replace (Z.pos (c * c) * 10 ^ (2 * k))
    with ((Z.pos c * 10 ^ k) * (Z.pos c * 10 ^ k)).
  2:{ replace (2 * k) with (k + k) by lia. rewrite Z.pow_add_r by lia. lia. }
  pose proof (DecFacts.pow10_pos k Hk) as Q.
  rewrite Z.sqrt_square by lia.
  replace ((e + e) / 2) with e
    by (replace (e + e) with (e * 2) by lia; rewrite Z.div_mul; lia).
  apply (DecFacts.finalise_mantissa_value Positive Positive _ _ (e - k) e c); [lia | lia |].
  cbn [signed]. rewrite Z.sub_diag. change (10 ^ 0) with 1.
  replace (e - (e - k)) with k by lia. lia.
Qed.

(** The engine's square root is never below zero. *)
Lemma sqrt_not_negative (x : Decimal) (t : sign) : lt (sqrt x) (Zero t) = false.
Proof.
  destruct x as [| [] | [] | [] c e]; try reflexivity.
  unfold sqrt.
  destruct (if Z.even e then (Z.pos c, e) else (Z.pos c * 10, e - 1)) as [c' e'].
  pose proof (Z.sqrt_nonneg (c' * 10 ^ (2 * (pr + 1)))) as N.
  destruct (Z.sqrt (c' * 10 ^ (2 * (pr + 1)))) as [| p | p]; try lia.
  - reflexivity.
  - apply lt_zero_sign. cbn [of_mantissa finalise]. apply finalise_num_sign.
Qed.

End Arithmetic.

(** *** The sign field *)

Lemma sign_of_set_sign (s : sign) (x : Decimal) : sign_of (set_sign s x) = Some s.
Proof. destruct x; reflexivity. Qed.

Lemma sign_of_assign_sign (s : option sign) (x : Decimal) :
  sign_of (assign_sign s x) = s.
Proof. destruct s; [apply sign_of_set_sign | reflexivity]. Qed.

Lemma isNaN_sign_of (x : Decimal) :
  isNaN x = match sign_of x with None => true | Some _ => false end.
Proof. destruct x; reflexivity. Qed.

(** *** The printed forms read the values of the components *)

Lemma toString_value (x x' : Decimal) : canon x = canon x' -> toString x = toString x'.
Proof. intros H. rewrite <- (toString_canon x), H. apply toString_canon. Qed.

Lemma instance_toString_value (x y x' y' : Decimal) :
  canon x = canon x' -> canon y = canon y' ->
  Instance.toString (Instance.mk x y) = Instance.toString (Instance.mk x' y').
Proof.
  intros Hx Hy. unfold Instance.toString. cbn [Instance.re Instance.im].
  change Instance.ZERO with (Zero Positive). rewrite !eq_zero.
  rewrite <- (isZero_canon y), <- (isZero_canon y'), Hy.
  destruct (isZero (canon y')) eqn:Zy.
  - apply toString_value, Hx.
  - assert (Z1 : isZero y = false) by (rewrite <- isZero_canon, Hy; exact Zy).
    assert (Z2 : isZero y' = false) by (rewrite <- isZero_canon; exact Zy).
    rewrite <- (isZero_canon x), <- (isZero_canon x'), Hx.
    rewrite <- (valueOf_canon y Z1), <- (valueOf_canon y' Z2), Hy.
    rewrite <- (lt_zero_canon y), <- (lt_zero_canon y'), Hy.
    rewrite (toString_value x x' Hx).
    rewrite <- (valueOf_abs_canon y), <- (valueOf_abs_canon y'), Hy.
    reflexivity.
Qed.

Lemma zero_not_signed (x : Decimal) (t : sign) :
  isZero x = true -> gt x (Zero t) = false /\ lt x (Zero t) = false.
Proof. destruct x as [| [] | [] | [] c e]; intros H; try discriminate H; split; reflexivity. Qed.

Lemma static_toString_value (x y x' y' : Decimal) :
  canon x = canon x' -> canon y = canon y' ->
  Static.toString (Static.mk x y) = Static.toString (Static.mk x' y').
Proof.
  intros Hx Hy. unfold Static.toString. cbn [Static.real Static.imaginary].
  change Static.ZERO with (Zero Positive). rewrite !eq_zero.
  rewrite <- (isZero_canon y), <- (isZero_canon y'), Hy.
  destruct (isZero (canon y')) eqn:Zy.
  - apply toString_value, Hx.
  - assert (Z1 : isZero y = false) by (rewrite <- isZero_canon, Hy; exact Zy).
    assert (Z2 : isZero y' = false) by (rewrite <- isZero_canon; exact Zy).
    rewrite <- (eq_canon_l y Static.NEG_ONE), <- (eq_canon_l y' Static.NEG_ONE), Hy.
    rewrite <- (eq_canon_l y Static.ONE), <- (eq_canon_l y' Static.ONE), Hy.
    rewrite <- (valueOf_canon y Z1), <- (valueOf_canon y' Z2), Hy.
    rewrite <- (valueOf_abs_canon x), <- (valueOf_abs_canon x'), Hx.
    destruct (isZero x) eqn:Zx.
    + assert (Zx' : isZero x' = true) by (rewrite <- isZero_canon, <- Hx, isZero_canon; exact Zx).
      destruct (zero_not_signed x Positive Zx) as [-> ->].
      destruct (zero_not_signed x' Positive Zx') as [-> ->].
      reflexivity.
    + assert (Zx' : isZero x' = false) by (rewrite <- isZero_canon, <- Hx, isZero_canon; exact Zx).
      rewrite <- (valueOf_canon x Zx), <- (valueOf_canon x' Zx'), Hx.
      rewrite <- (gt_zero_canon x), <- (gt_zero_canon x'), Hx.
      rewrite <- (lt_zero_canon x), <- (lt_zero_canon x'), Hx.
      reflexivity.
Qed.

End Laws.

(* ================================================================== *)
(** ** Further properties *)

(** X1.  Division by a zero divisor returns [(NaN, NaN)] for every
    dividend and either sign of the divisor's zero components, in both
    classes: the numerators are zero or NaN and the denominator is zero. *)
Theorem div_by_zero_is_nan {eng : Dec.Engine} (a : Instance.Complex) (s1 s2 : sign) :
  Instance.div a (Instance.mk (Zero s1) (Zero s2)) = Instance.mk NaN NaN
  /\ Static.divide (Static.VComplex (lift a))
       (Static.VComplex (Static.mk (Zero s1) (Zero s2))) = Static.mk NaN NaN.
Proof.
  split; [apply ComplexFacts.instance_div_zero | apply ComplexFacts.static_divide_zero].
Qed.

(** X2.  Multiplication is commutative on all inputs, NaN, infinities
    and signed zeros included, in both classes. *)
Theorem mul_commutative {eng : Dec.Engine} (a b : Instance.Complex) :
  Instance.mul a b = Instance.mul b a
  /\ Static.multiply (Static.VComplex (lift a)) (Static.VComplex (lift b))
     = Static.multiply (Static.VComplex (lift b)) (Static.VComplex (lift a)).
Proof.
  split; [apply Agreement.instance_mul_comm |].
  rewrite Agreement.multiply_lift, Agreement.multiply_lift_swap. reflexivity.
Qed.

(** X3.  Addition is commutative on all inputs, NaN, infinities and
    signed zeros included, in both classes. *)
Theorem add_commutative {eng : Dec.Engine} (a b : Instance.Complex) :
  Instance.add a b = Instance.add b a
  /\ Static.add (Static.VComplex (lift a)) (Static.VComplex (lift b))
     = Static.add (Static.VComplex (lift b)) (Static.VComplex (lift a)).
Proof.
  split.
  - unfold Instance.add.
    rewrite (DecFacts.add_comm (Instance.re a)), (DecFacts.add_comm (Instance.im a)).
    reflexivity.
  - unfold Static.add, lift.
    cbn [Static.convertToComplex Static.real Static.imaginary].
    rewrite (DecFacts.add_comm (Instance.re a)), (DecFacts.add_comm (Instance.im a)).
    reflexivity.
Qed.

(** X4.  [conj] is an involution: conjugating twice returns the very
    same components, NaN, infinities and the sign of zero included, in
    both classes.  A value equals its own conjugate exactly when its
    imaginary part is a zero and its real part is not NaN. *)
Theorem conj_involution (z : Instance.Complex) :
  Instance.conj (Instance.conj z) = z
  /\ Static.conj (Static.conj (lift z)) = lift z
  /\ (Instance.eq (Instance.conj z) z = true
      <-> Dec.isNaN (Instance.re z) = false /\ Dec.isZero (Instance.im z) = true).
Proof.
  destruct z as [x y]. unfold Instance.conj, Static.conj, Instance.eq, lift.
  cbn [Instance.re Instance.im Static.real Static.imaginary].
  rewrite Laws.neg_involutive, Laws.eq_neg_self, andb_true_iff, DecFacts.eq_refl_iff.
  repeat split; tauto.
Qed.

(** X5.  A value times its conjugate is real: the imaginary component of
    [z.mul(z.conj())] is exactly +0 when the product [re * im] is finite
    (and NaN when it is not), and the real component is the rounded sum
    of the two rounded squares.  [Complex.multiply] returns the same. *)
Theorem mul_conj_is_real {eng : Dec.Engine} (z : Instance.Complex) :
  Instance.mul z (Instance.conj z)
  = Instance.mk
      (Dec.add (Dec.mul (Instance.im z) (Instance.im z))
               (Dec.mul (Instance.re z) (Instance.re z)))
      (if Dec.isFinite (Dec.mul (Instance.re z) (Instance.im z))
       then Zero Positive else NaN)
  /\ Static.multiply (Static.VComplex (lift z)) (Static.VComplex (Static.conj (lift z)))
     = lift (Instance.mul z (Instance.conj z)).
Proof.
  split.
  - destruct z as [x y]. unfold Instance.mul, Instance.conj.
    cbn [Instance.re Instance.im]. f_equal.
    + rewrite Laws.mul_neg_r, DecFacts.sub_add_neg, Laws.neg_involutive. reflexivity.
    + rewrite Laws.mul_neg_r, (DecFacts.mul_comm y x). apply Laws.add_neg_self.
  - change (Static.conj (lift z)) with (lift (Instance.conj z)).
    apply Agreement.multiply_lift.
Qed.

(** X6.  A value divided by itself is exactly [1 + 0i]: whenever the
    denominator [re^2 + im^2] the method computes is finite and not zero
    and the product [im * re] is finite, [z.div(z)] has real component 1
    and imaginary component +0, at every precision.  [Complex.divide]
    returns the same. *)
Theorem div_self_is_one {eng : Dec.Engine} (z : Instance.Complex) :
  let denominatorSum :=
    Dec.add (Dec.pow (Instance.re z) Instance.TWO) (Dec.pow (Instance.im z) Instance.TWO) in
  Dec.isFinite denominatorSum = true ->
  Dec.isZero denominatorSum = false ->
  Dec.isFinite (Dec.mul (Instance.im z) (Instance.re z)) = true ->
  Instance.div z z = Instance.mk Instance.ONE Instance.ZERO
  /\ Static.divide (Static.VComplex (lift z)) (Static.VComplex (lift z))
     = Static.mk Static.ONE Static.ZERO.
Proof.
  destruct z as [x y]. cbn [Instance.re Instance.im]. cbv zeta.
  assert (D : Dec.add (Dec.pow x Instance.TWO) (Dec.pow y Instance.TWO)
              = Dec.add (Dec.mul x x) (Dec.mul y y)).
  { rewrite <- Laws.add_normal_l, <- Laws.add_normal_r.
    unfold Instance.TWO. rewrite !Laws.pow_two_normal.
    rewrite Laws.add_normal_l, Laws.add_normal_r. reflexivity. }
  intros F Z M.
  assert (R : Dec.div (Dec.add (Dec.mul x x) (Dec.mul y y))
                      (Dec.add (Dec.pow x Instance.TWO) (Dec.pow y Instance.TWO))
              = Instance.ONE).
  { rewrite D in *. apply Laws.div_self; assumption. }
  assert (I : Dec.div (Dec.sub (Dec.mul y x) (Dec.mul x y))
                      (Dec.add (Dec.pow x Instance.TWO) (Dec.pow y Instance.TWO))
              = Instance.ZERO).
  { rewrite (DecFacts.mul_comm x y), Laws.sub_self, M, D.
    rewrite D in F, Z.
    destruct (Laws.add_finite_inv _ _ F) as [Nx Ny].
    rewrite Laws.mul_diag_isNaN in Nx, Ny.
    pose proof (Laws.add_sign_positive (Dec.mul x x) (Dec.mul y y)) as S.
    rewrite !Laws.mul_diag_sign, Nx, Ny in S. specialize (S eq_refl eq_refl).
    destruct (Dec.add (Dec.mul x x) (Dec.mul y y)) as [| s | s | s c e];
      try discriminate; cbn [Dec.sign_of] in S; inversion S. reflexivity. }
  split.
  - unfold Instance.div. cbn [Instance.re Instance.im]. rewrite R, I. reflexivity.
  - unfold Static.divide, lift.
    cbn [Static.convertToComplex Static.real Static.imaginary Instance.re Instance.im].
    change Static.TWO with Instance.TWO. rewrite R, I. reflexivity.
Qed.

(** An instance of X6's hypotheses: [z = 4 + 7i] at 20 digits. *)
Lemma div_self_is_one_witness :
  Instance.div (eng := Readme.engine)
    (Instance.mk (Dec.of_Z 4) (Dec.of_Z 7)) (Instance.mk (Dec.of_Z 4) (Dec.of_Z 7))
  = Instance.mk Instance.ONE Instance.ZERO
  /\ Static.divide (eng := Readme.engine)
       (Static.VComplex (lift (Instance.mk (Dec.of_Z 4) (Dec.of_Z 7))))
       (Static.VComplex (lift (Instance.mk (Dec.of_Z 4) (Dec.of_Z 7))))
     = Static.mk Static.ONE Static.ZERO.
Proof.
  apply (div_self_is_one (eng := Readme.engine) (Instance.mk (Dec.of_Z 4) (Dec.of_Z 7)));
    vm_compute; reflexivity.
Defined.

(** X7.  [eq] is equality of values.  [a.eq(b)] holds exactly when no
    component of [a] is NaN and the components of [a] and [b] hold the
    same values, whatever the sign of a zero; so [eq] is symmetric and
    transitive.  [Complex.equals] is the same test. *)
Theorem eq_is_value_equality (a b c : Instance.Complex) :
  (Instance.eq a b = true
   <-> Dec.isNaN (Instance.re a) = false /\ Dec.isNaN (Instance.im a) = false
       /\ canon (Instance.re a) = canon (Instance.re b)
       /\ canon (Instance.im a) = canon (Instance.im b))
  /\ Instance.eq a b = Instance.eq b a
  /\ (Instance.eq a b = true -> Instance.eq b c = true -> Instance.eq a c = true)
  /\ Static.equals (lift a) (lift b) = Instance.eq a b.
Proof.
  destruct a as [x y], b as [x' y'], c as [x'' y''].
  unfold Instance.eq, Static.equals, lift.
  cbn [Instance.re Instance.im Static.real Static.imaginary].
  split; [| split; [| split; [| reflexivity]]].
  - rewrite andb_true_iff, !Laws.eq_canon. split.
    + intros [(H1 & H2 & H3) (H4 & H5 & H6)]. auto.
    + intros (H1 & H2 & H3 & H4).
      pose proof (Laws.canon_isNaN x') as N1. pose proof (Laws.canon_isNaN y') as N2.
      rewrite <- H3, Laws.canon_isNaN, H1 in N1.
      rewrite <- H4, Laws.canon_isNaN, H2 in N2. auto.
  - rewrite (Laws.eq_sym x x'), (Laws.eq_sym y y'). reflexivity.
  - rewrite !andb_true_iff. intros [H1 H2] [H3 H4].
    split; eapply Laws.eq_trans; eassumption.
Qed.

(** X8.  Equal values print equally: when [a.eq(b)], [toString] and
    [toJSON] return the same strings for [a] and for [b], in both
    classes; the sign of a zero component and the way the digits are
    held do not show. *)
Theorem eq_prints_equal (a b : Instance.Complex) :
  Instance.eq a b = true ->
  Instance.toString a = Instance.toString b
  /\ Instance.toJSON a = Instance.toJSON b
  /\ Static.toString (lift a) = Static.toString (lift b)
  /\ Static.toJSON (lift a) = Static.toJSON (lift b).
Proof.
  destruct a as [x y], b as [x' y'].
  unfold Instance.eq, lift. cbn [Instance.re Instance.im].
  rewrite andb_true_iff, !Laws.eq_canon.
  intros [(_ & _ & Hx) (_ & _ & Hy)].
  split; [apply Laws.instance_toString_value; assumption |].
  split; [unfold Instance.toJSON; cbn [Instance.re Instance.im];
          rewrite (Laws.toString_value _ _ Hx), (Laws.toString_value _ _ Hy); reflexivity |].
  split; [apply Laws.static_toString_value; assumption |].
  unfold Static.toJSON; cbn [Static.real Static.imaginary].
  rewrite (Laws.toString_value _ _ Hx), (Laws.toString_value _ _ Hy). reflexivity.
Qed.

(** An instance of X8's hypothesis: [-0 + 5i] and [0 + 5i] both print
    as [5i]. *)
Lemma eq_prints_equal_witness :
  Instance.toString (Instance.mk (Zero Negative) (Dec.of_Z 5))
  = Instance.toString (Instance.mk (Zero Positive) (Dec.of_Z 5))
  /\ Instance.toJSON (Instance.mk (Zero Negative) (Dec.of_Z 5))
     = Instance.toJSON (Instance.mk (Zero Positive) (Dec.of_Z 5))
  /\ Static.toString (lift (Instance.mk (Zero Negative) (Dec.of_Z 5)))
     = Static.toString (lift (Instance.mk (Zero Positive) (Dec.of_Z 5)))
  /\ Static.toJSON (lift (Instance.mk (Zero Negative) (Dec.of_Z 5)))
     = Static.toJSON (lift (Instance.mk (Zero Positive) (Dec.of_Z 5))).
Proof.
  apply (eq_prints_equal (Instance.mk (Zero Negative) (Dec.of_Z 5))
                         (Instance.mk (Zero Positive) (Dec.of_Z 5))).
  reflexivity.
Defined.

(** X9.  [Complex.approxEquals] is symmetric on all inputs: the two
    differences [c1 - c2] and [c2 - c1] round to the same magnitude. *)
Theorem approxEquals_symmetric {eng : Dec.Engine} (c1 c2 : Static.Complex) :
  Static.approxEquals c1 c2 = Static.approxEquals c2 c1.
Proof.
  unfold Static.approxEquals.
  rewrite (Laws.abs_sub_swap (Static.real c1)), (Laws.abs_sub_swap (Static.imaginary c1)).
  reflexivity.
Qed.

(** X10.  [Complex.approxEquals] holds between finite values only: when
    it returns true all four components are finite.  On finite values it
    follows from [Complex.equals]; on the infinities it does not:
    [Complex.infinity] equals itself and is not approximately equal to
    itself, the difference of two infinities being NaN. *)
Theorem approxEquals_finite_only {eng : Dec.Engine} (c1 c2 : Static.Complex) :
  (Static.approxEquals c1 c2 = true ->
   Dec.isFinite (Static.real c1) = true /\ Dec.isFinite (Static.imaginary c1) = true
   /\ Dec.isFinite (Static.real c2) = true /\ Dec.isFinite (Static.imaginary c2) = true)
  /\ (Static.equals c1 c2 = true ->
      Dec.isFinite (Static.real c1) = true -> Dec.isFinite (Static.imaginary c1) = true ->
      Static.approxEquals c1 c2 = true)
  /\ Static.equals Static.infinity Static.infinity = true
  /\ Static.approxEquals Static.infinity Static.infinity = false.
Proof.
  unfold Static.approxEquals, Static.equals.
  split; [| split; [| split; reflexivity]].
  - rewrite andb_true_iff. intros [H1 H2].
    apply Laws.lt_abs_sub_finite in H1, H2. tauto.
  - rewrite andb_true_iff. intros [H1 H2] F1 F2.
    rewrite !Laws.zero_below by (apply Laws.eq_sub_zero; assumption).
    reflexivity.
Qed.

(** X11.  [lerp] returns its end points: for finite [a] and [b] whose
    components fit the precision, [a.lerp(b, 0)] equals [a] and
    [a.lerp(b, 1)] equals [b] by [eq], and likewise [Complex.lerp]. *)
Theorem lerp_endpoints {eng : Dec.Engine} (a b : Instance.Complex) :
  Dec.isFinite (Instance.re a) = true ->
  Dec.isFinite (Instance.im a) = true ->
  Dec.isFinite (Instance.re b) = true ->
  Dec.isFinite (Instance.im b) = true ->
  Dec.representable (Instance.re a) ->
  Dec.representable (Instance.im a) ->
  Dec.representable (Instance.re b) ->
  Dec.representable (Instance.im b) ->
  Instance.eq (Instance.lerp a b Instance.ZERO) a = true
  /\ Instance.eq (Instance.lerp a b Instance.ONE) b = true
  /\ Static.equals
       (Static.lerp (Static.VComplex (lift a)) (Static.VComplex (lift b)) Static.ZERO)
       (lift a) = true
  /\ Static.equals
       (Static.lerp (Static.VComplex (lift a)) (Static.VComplex (lift b)) Static.ONE)
       (lift b) = true.
Proof.
  intros F1 F2 F3 F4 R1 R2 R3 R4.
  destruct a as [x y], b as [x' y']. cbn [Instance.re Instance.im] in *.
  unfold Instance.eq, Instance.lerp, Static.equals, Static.lerp, lift.
  cbn [Static.convertToComplex Instance.re Instance.im Static.real Static.imaginary].
  unfold Instance.ZERO, Instance.ONE, Static.ZERO, Static.ONE.
  rewrite !Laws.lerp_component_zero, !Laws.lerp_component_one by assumption.
  repeat split.
Qed.

(** An instance of X11's hypotheses: [a = 1.5 - 2i], [b = 0.25 + 7i]
    at 20 digits. *)
Lemma lerp_endpoints_witness :
  Instance.eq
    (Instance.lerp (eng := Readme.engine)
       (Instance.mk (Num Positive 15 (-1)) (Dec.of_Z (-2)))
       (Instance.mk (Num Positive 25 (-2)) (Dec.of_Z 7)) Instance.ZERO)
    (Instance.mk (Num Positive 15 (-1)) (Dec.of_Z (-2))) = true
  /\ Instance.eq
       (Instance.lerp (eng := Readme.engine)
          (Instance.mk (Num Positive 15 (-1)) (Dec.of_Z (-2)))
          (Instance.mk (Num Positive 25 (-2)) (Dec.of_Z 7)) Instance.ONE)
       (Instance.mk (Num Positive 25 (-2)) (Dec.of_Z 7)) = true
  /\ Static.equals
       (Static.lerp (eng := Readme.engine)
          (Static.VComplex (lift (Instance.mk (Num Positive 15 (-1)) (Dec.of_Z (-2)))))
          (Static.VComplex (lift (Instance.mk (Num Positive 25 (-2)) (Dec.of_Z 7))))
          Static.ZERO)
       (lift (Instance.mk (Num Positive 15 (-1)) (Dec.of_Z (-2)))) = true
  /\ Static.equals
       (Static.lerp (eng := Readme.engine)
          (Static.VComplex (lift (Instance.mk (Num Positive 15 (-1)) (Dec.of_Z (-2)))))
          (Static.VComplex (lift (Instance.mk (Num Positive 25 (-2)) (Dec.of_Z 7))))
          Static.ONE)
       (lift (Instance.mk (Num Positive 25 (-2)) (Dec.of_Z 7))) = true.
Proof.
  apply (lerp_endpoints (eng := Readme.engine)
           (Instance.mk (Num Positive 15 (-1)) (Dec.of_Z (-2)))
           (Instance.mk (Num Positive 25 (-2)) (Dec.of_Z 7)));
    reflexivity.
Defined.

(** X12.  A base on the imaginary axis raised to the exponent zero is
    exactly [1 + 0i], whatever its imaginary part: zero, an infinity and
    NaN included, so [pow] gives 0^0 = 1.  [Complex.exponent] returns the
    same. *)
Theorem pow_zero_exponent {eng : Dec.Engine} (base : Instance.Complex) (s1 s2 : sign) :
  Dec.eq (Instance.re base) Instance.ZERO = true ->
  Instance.pow base (Instance.mk (Zero s1) (Zero s2))
  = Instance.mk Instance.ONE Instance.ZERO
  /\ Static.exponent (Static.VComplex (lift base))
       (Static.VComplex (Static.mk (Zero s1) (Zero s2)))
     = Static.mk Static.ONE Static.ZERO.
Proof.
  intros H.
  assert (E : Instance.pow base (Instance.mk (Zero s1) (Zero s2))
              = Instance.mk Instance.ONE Instance.ZERO).
  { unfold Instance.pow. rewrite H. destruct s1, s2; reflexivity. }
  split; [exact E |].
  unfold Static.exponent.
  cbn [Static.convertToComplex Static.real Static.imaginary lift].
  change Static.ZERO with Instance.ZERO. rewrite H. destruct s1, s2; reflexivity.
Qed.

(** An instance of X12's hypothesis: the base [0 + NaN i]. *)
Lemma pow_zero_exponent_witness :
  Instance.pow (eng := Readme.engine) (Instance.mk Instance.ZERO NaN)
    (Instance.mk (Zero Positive) (Zero Positive))
  = Instance.mk Instance.ONE Instance.ZERO
  /\ Static.exponent (eng := Readme.engine)
       (Static.VComplex (lift (Instance.mk Instance.ZERO NaN)))
       (Static.VComplex (Static.mk (Zero Positive) (Zero Positive)))
     = Static.mk Static.ONE Static.ZERO.
Proof.
  apply (pow_zero_exponent (eng := Readme.engine) (Instance.mk Instance.ZERO NaN)).
  reflexivity.
Defined.

(** X14.  [sqrt] is exact on squares.  For a finite non-zero [d], the
    square root of the real number [d * d] (held exactly) is [|d|]
    rounded to the precision, with imaginary part 0; the square root of
    [-(d * d)] is that value on the imaginary axis.  [Complex.sqrt]
    returns the same. *)
Theorem sqrt_exact_on_squares {eng : Dec.Engine} (s : sign) (c : positive) (e : Z) :
  Instance.sqrt (Instance.mk (Dec.mul_exact (Num s c e) (Num s c e)) Instance.ZERO)
  = Instance.mk (Dec.finalise Dec.pr (Dec.abs (Num s c e))) Instance.ZERO
  /\ Instance.sqrt
       (Instance.mk (Dec.neg (Dec.mul_exact (Num s c e) (Num s c e))) Instance.ZERO)
     = Instance.mk Instance.ZERO (Dec.finalise Dec.pr (Dec.abs (Num s c e)))
  /\ Static.sqrt
       (Static.VComplex (Static.mk (Dec.mul_exact (Num s c e) (Num s c e)) Static.ZERO))
     = Static.mk (Dec.finalise Dec.pr (Dec.abs (Num s c e))) Static.ZERO.
Proof.
  cbn [Dec.mul_exact Dec.neg Dec.abs Dec.finalise]. rewrite Laws.sign_mul_diag.
  cbn [sign_neg].
  assert (A : Instance.sqrt (Instance.mk (Num Positive (c * c) (e + e)) Instance.ZERO)
              = Instance.mk (Dec.finalise_num Dec.pr Positive c e) Instance.ZERO).
  { unfold Instance.sqrt. cbn [Instance.re Instance.im].
    change (Dec.eq Instance.ZERO Instance.ZERO) with true.
    change (Dec.gte (Num Positive (c * c) (e + e)) Instance.ZERO) with true.
    cbv iota. rewrite Laws.sqrt_exact_square. reflexivity. }
  split; [exact A |]. split.
  - unfold Instance.sqrt. cbn [Instance.re Instance.im].
    change (Dec.eq Instance.ZERO Instance.ZERO) with true.
    change (Dec.gte (Num Negative (c * c) (e + e)) Instance.ZERO) with false.
    cbv iota. cbn [Dec.abs]. rewrite Laws.sqrt_exact_square. reflexivity.
  - change (Static.mk (Num Positive (c * c) (e + e)) Static.ZERO)
      with (lift (Instance.mk (Num Positive (c * c) (e + e)) Instance.ZERO)).
    rewrite Agreement.sqrt_lift_real_axis by reflexivity. rewrite A. reflexivity.
Qed.

(** X15.  On the real axis [sqrt] returns the principal root: when the
    imaginary part of [z] equals zero, neither component of [z.sqrt()]
    is below zero, whatever the real part. *)
Theorem sqrt_real_axis_principal {eng : Dec.Engine} (z : Instance.Complex) :
  Dec.eq (Instance.im z) Instance.ZERO = true ->
  Dec.lt (Instance.re (Instance.sqrt z)) Instance.ZERO = false
  /\ Dec.lt (Instance.im (Instance.sqrt z)) Instance.ZERO = false
  /\ Dec.lt (Static.real (Static.sqrt (Static.VComplex (lift z)))) Static.ZERO = false
  /\ Dec.lt (Static.imaginary (Static.sqrt (Static.VComplex (lift z)))) Static.ZERO = false.
Proof.
  intros H. rewrite (Agreement.sqrt_lift_real_axis z H).
  change (Static.real (lift (Instance.sqrt z))) with (Instance.re (Instance.sqrt z)).
  change (Static.imaginary (lift (Instance.sqrt z))) with (Instance.im (Instance.sqrt z)).
  change Static.ZERO with Instance.ZERO.
  assert (G : Dec.lt (Instance.re (Instance.sqrt z)) Instance.ZERO = false
              /\ Dec.lt (Instance.im (Instance.sqrt z)) Instance.ZERO = false).
  { unfold Instance.sqrt. rewrite H.
    destruct (Dec.gte (Instance.re z) Instance.ZERO); cbn [Instance.re Instance.im];
      change Instance.ZERO with (Zero Positive);
      rewrite Laws.sqrt_not_negative; split; reflexivity. }
  tauto.
Qed.

(** An instance of X15's hypothesis: [z = -2 + 0i] at 20 digits. *)
Lemma sqrt_real_axis_principal_witness :
  Dec.lt (Instance.re (Instance.sqrt (eng := Readme.engine)
                         (Instance.mk (Dec.of_Z (-2)) Instance.ZERO))) Instance.ZERO = false
  /\ Dec.lt (Instance.im (Instance.sqrt (eng := Readme.engine)
                            (Instance.mk (Dec.of_Z (-2)) Instance.ZERO))) Instance.ZERO = false
  /\ Dec.lt (Static.real (Static.sqrt (eng := Readme.engine)
                            (Static.VComplex (lift (Instance.mk (Dec.of_Z (-2)) Instance.ZERO)))))
            Static.ZERO = false
  /\ Dec.lt (Static.imaginary (Static.sqrt (eng := Readme.engine)
                            (Static.VComplex (lift (Instance.mk (Dec.of_Z (-2)) Instance.ZERO)))))
            Static.ZERO = false.
Proof.
  apply (sqrt_real_axis_principal (eng := Readme.engine)
           (Instance.mk (Dec.of_Z (-2)) Instance.ZERO)).
  reflexivity.
Defined.

(** X16.  Subtracting and adding back: for finite [a] and [b], when
    the components of [a] fit the precision and both componentwise
    differences [a - b] are exact at the precision, [a.sub(b).add(b)]
    equals [a] by [eq], and likewise in the static class. *)
Theorem sub_add_roundtrip {eng : Dec.Engine} (a b : Instance.Complex) :
  Dec.isFinite (Instance.re a) = true ->
  Dec.isFinite (Instance.im a) = true ->
  Dec.isFinite (Instance.re b) = true ->
  Dec.isFinite (Instance.im b) = true ->
  Dec.representable (Instance.re a) ->
  Dec.representable (Instance.im a) ->
  Dec.representable (Dec.sub_exact (Instance.re a) (Instance.re b)) ->
  Dec.representable (Dec.sub_exact (Instance.im a) (Instance.im b)) ->
  Instance.eq (Instance.add (Instance.sub a b) b) a = true
  /\ Static.equals
       (Static.add
          (Static.VComplex (Static.subtract (Static.VComplex (lift a)) (Static.VComplex (lift b))))
          (Static.VComplex (lift b)))
       (lift a) = true.
Proof.
  intros F1 F2 F3 F4 R1 R2 R3 R4.
  assert (H : Dec.eq (Dec.add (Dec.sub (Instance.re a) (Instance.re b)) (Instance.re b))
                     (Instance.re a)
              && Dec.eq (Dec.add (Dec.sub (Instance.im a) (Instance.im b)) (Instance.im b))
                        (Instance.im a) = true).
  { rewrite !Laws.sub_add_component by assumption. reflexivity. }
  split; exact H.
Qed.

(** An instance of X16's hypotheses: [a = 1.5 - 2i], [b = 0.25 + 7i]. *)
Lemma sub_add_roundtrip_witness :
  Instance.eq
    (Instance.add (eng := Readme.engine)
       (Instance.sub (eng := Readme.engine)
          (Instance.mk (Num Positive 15 (-1)) (Dec.of_Z (-2)))
          (Instance.mk (Num Positive 25 (-2)) (Dec.of_Z 7)))
       (Instance.mk (Num Positive 25 (-2)) (Dec.of_Z 7)))
    (Instance.mk (Num Positive 15 (-1)) (Dec.of_Z (-2))) = true
  /\ Static.equals
       (Static.add (eng := Readme.engine)
          (Static.VComplex
             (Static.subtract (eng := Readme.engine)
                (Static.VComplex (lift (Instance.mk (Num Positive 15 (-1)) (Dec.of_Z (-2)))))
                (Static.VComplex (lift (Instance.mk (Num Positive 25 (-2)) (Dec.of_Z 7))))))
          (Static.VComplex (lift (Instance.mk (Num Positive 25 (-2)) (Dec.of_Z 7)))))
       (lift (Instance.mk (Num Positive 15 (-1)) (Dec.of_Z (-2)))) = true.
Proof.
  apply (sub_add_roundtrip (eng := Readme.engine)
           (Instance.mk (Num Positive 15 (-1)) (Dec.of_Z (-2)))
           (Instance.mk (Num Positive 25 (-2)) (Dec.of_Z 7)));
    reflexivity.
Defined.

(** X17.  A value minus itself: each component of [a.sub(a)] is exactly
    +0 where the component of [a] is finite, and NaN where it is NaN or
    an infinity.  [Complex.subtract] returns the same. *)
Theorem sub_self_is_zero {eng : Dec.Engine} (a : Instance.Complex) :
  Instance.sub a a
  = Instance.mk (if Dec.isFinite (Instance.re a) then Zero Positive else NaN)
                (if Dec.isFinite (Instance.im a) then Zero Positive else NaN)
  /\ Static.subtract (Static.VComplex (lift a)) (Static.VComplex (lift a))
     = lift (Instance.sub a a).
Proof.
  split; [| reflexivity].
  unfold Instance.sub. rewrite !Laws.sub_self. reflexivity.
Qed.

(** X18.  [asinh] copies the signs of its argument onto its result: the
    imaginary component of [z.asinh()] has the sign field of [z.im], and
    the real component has that of [z.re], or -1 when [z.re] is zero and
    [z.im] is negative.  So a result component is NaN exactly when the
    sign it takes is NaN: a NaN computed from an argument that is not
    NaN is returned as an infinity.  [Complex.asinh] returns the same. *)
Theorem asinh_copies_signs {eng : Dec.Engine} (z : Instance.Complex) :
  Dec.sign_of (Instance.im (Instance.asinh z)) = Dec.sign_of (Instance.im z)
  /\ Dec.sign_of (Instance.re (Instance.asinh z))
     = (if Dec.eq (Instance.re z) Instance.ZERO && Dec.lt (Instance.im z) Instance.ZERO
        then Some Negative else Dec.sign_of (Instance.re z))
  /\ Dec.isNaN (Instance.im (Instance.asinh z)) = Dec.isNaN (Instance.im z)
  /\ Static.asinh (Static.VComplex (lift z)) = lift (Instance.asinh z).
Proof.
  assert (I : Dec.sign_of (Instance.im (Instance.asinh z)) = Dec.sign_of (Instance.im z)).
  { unfold Instance.asinh. cbn [Instance.im]. apply Laws.sign_of_assign_sign. }
  split; [exact I |]. split; [| split; [| apply Agreement.asinh_lift]].
  - unfold Instance.asinh. cbn [Instance.re].
    destruct (Dec.eq (Instance.re z) Instance.ZERO && Dec.lt (Instance.im z) Instance.ZERO).
    + apply Laws.sign_of_set_sign.
    + apply Laws.sign_of_assign_sign.
  - rewrite !Laws.isNaN_sign_of, I. reflexivity.
Qed.

(** X19.  Conjugation commutes with addition and with multiplication:
    [a.add(b).conj()] equals [a.conj().add(b.conj())] by [eq] exactly
    when the sum has no NaN component, and [a.mul(b).conj()] equals
    [a.conj().mul(b.conj())] by [eq] exactly when the product has none. *)
Theorem conj_commutes_with_add_and_mul {eng : Dec.Engine} (a b : Instance.Complex) :
  (Instance.eq (Instance.add (Instance.conj a) (Instance.conj b))
               (Instance.conj (Instance.add a b)) = true
   <-> Dec.isNaN (Instance.re (Instance.add a b)) = false
       /\ Dec.isNaN (Instance.im (Instance.add a b)) = false)
  /\ (Instance.eq (Instance.mul (Instance.conj a) (Instance.conj b))
                  (Instance.conj (Instance.mul a b)) = true
      <-> Dec.isNaN (Instance.re (Instance.mul a b)) = false
          /\ Dec.isNaN (Instance.im (Instance.mul a b)) = false).
Proof.
  destruct a as [x y], b as [x' y'].
  unfold Instance.eq, Instance.add, Instance.mul, Instance.conj.
  cbn [Instance.re Instance.im].
  rewrite Laws.mul_neg_neg, Laws.mul_neg_r, Laws.mul_neg_l.
  rewrite !andb_true_iff, !Laws.add_neg_neg_eq, !DecFacts.eq_refl_iff, !negb_true_iff.
  tauto.
Qed.

(** X20.  Multiplying by one and by i.  For a finite [z] whose
    components fit the precision, [z.mul(1)] equals [z] and [z.mul(i)]
    equals [(-z.im, z.re)] by [eq]: the product by the constant [I] that
    [asinh] and [atanh] form is the quarter turn. *)
Theorem mul_by_one_and_i {eng : Dec.Engine} (z : Instance.Complex) :
  Dec.isFinite (Instance.re z) = true ->
  Dec.isFinite (Instance.im z) = true ->
  Dec.representable (Instance.re z) ->
  Dec.representable (Instance.im z) ->
  Instance.eq (Instance.mul z (Instance.mk Instance.ONE Instance.ZERO)) z = true
  /\ Instance.eq (Instance.mul z Instance.I)
                 (Instance.mk (Dec.neg (Instance.im z)) (Instance.re z)) = true.
Proof.
  destruct z as [x y]. cbn [Instance.re Instance.im]. intros Fx Fy Rx Ry.
  pose proof (Laws.finite_not_nan _ Fx) as Nx.
  pose proof (Laws.finite_not_nan _ Fy) as Ny.
  unfold Instance.eq, Instance.mul, Instance.I.
  cbn [Instance.re Instance.im].
  unfold Instance.ONE, Instance.ZERO.
  rewrite !(DecFacts.mul_comm _ (Dec.of_Z 1)), !Laws.mul_one_l.
  rewrite !(DecFacts.mul_comm _ (Dec.of_Z 0)).
  change (Dec.of_Z 0) with (Zero Positive).
  rewrite (Laws.sub_zero_r_eq x), (Laws.zero_sub_eq y)
    by (try assumption; apply Laws.mul_zero_l; assumption).
  rewrite (DecFacts.add_comm (Dec.mul (Zero Positive) x)).
  rewrite (Laws.add_zero_r_eq x), (Laws.add_zero_r_eq y)
    by (try assumption; apply Laws.mul_zero_l; assumption).
  split; reflexivity.
Qed.

(** An instance of X20's hypotheses: [z = 1.5 - 2i] at 20 digits. *)
Lemma mul_by_one_and_i_witness :
  Instance.eq
    (Instance.mul (eng := Readme.engine)
       (Instance.mk (Num Positive 15 (-1)) (Dec.of_Z (-2)))
       (Instance.mk Instance.ONE Instance.ZERO))
    (Instance.mk (Num Positive 15 (-1)) (Dec.of_Z (-2))) = true
  /\ Instance.eq
       (Instance.mul (eng := Readme.engine)
          (Instance.mk (Num Positive 15 (-1)) (Dec.of_Z (-2))) Instance.I)
       (Instance.mk (Dec.neg (Dec.of_Z (-2))) (Num Positive 15 (-1))) = true.
Proof.
  apply (mul_by_one_and_i (eng := Readme.engine)
           (Instance.mk (Num Positive 15 (-1)) (Dec.of_Z (-2))));
    reflexivity.
Defined.

(** X21.  The arithmetic methods return rounded values: the components
    of [add], [sub], [mul], [div] and [recip] already have at most
    [precision] significant digits, so [toSignificantDigits()] called
    without an argument returns each of these results unchanged. *)
Theorem arithmetic_results_are_rounded {eng : Dec.Engine} (a b : Instance.Complex) :
  Instance.toSignificantDigits (Instance.add a b) None = Some (Instance.add a b)
  /\ Instance.toSignificantDigits (Instance.sub a b) None = Some (Instance.sub a b)
  /\ Instance.toSignificantDigits (Instance.mul a b) None = Some (Instance.mul a b)
  /\ Instance.toSignificantDigits (Instance.div a b) None = Some (Instance.div a b)
  /\ Instance.toSignificantDigits (Instance.recip a) None = Some (Instance.recip a).
Proof.
  unfold Instance.toSignificantDigits, Dec.toSignificantDigits,
    Instance.add, Instance.sub, Instance.mul, Instance.div, Instance.recip.
  cbn [Instance.re Instance.im].
  rewrite !Laws.add_fixed, !Laws.sub_fixed, !Laws.div_fixed.
  repeat split.
Qed.

(** X22.  [toSignificantDigits] rounds once: when [z.toSignificantDigits(d)]
    returns [w], rounding [w] again to [d] or to any larger number of
    digits up to 1e9 returns [w] itself. *)
Theorem toSignificantDigits_rounds_once {eng : Dec.Engine}
    (z w : Instance.Complex) (d d' : Z) :
  Instance.toSignificantDigits z (Some d) = Some w ->
  d <= d' -> d' <= 1000000000 ->
  Instance.toSignificantDigits w (Some d') = Some w.
Proof.
  unfold Instance.toSignificantDigits, Dec.toSignificantDigits.
  destruct ((1 <=? d) && (d <=? 1000000000)) eqn:R; [| discriminate].
  apply andb_true_iff in R. destruct R as [R1 R2]. apply Z.leb_le in R1.
  intros H L U. inversion H; subst; clear H.
  cbn [Instance.re Instance.im].
  assert (R' : (1 <=? d') && (d' <=? 1000000000) = true).
  { apply andb_true_iff. split; apply Z.leb_le; [exact (Z.le_trans _ _ _ R1 L) | exact U]. }
  rewrite R', !Laws.finalise_fixed by assumption. reflexivity.
Qed.

(** An instance of X22's hypotheses: [1.2345 - 0.00678i] rounded to 3
    digits is [1.23 - 0.00678i], which rounding to 5 digits returns. *)
Lemma toSignificantDigits_rounds_once_witness :
  Instance.toSignificantDigits (eng := Readme.engine)
    (Instance.mk (Num Positive 123 (-2)) (Num Negative 678 (-5))) (Some 5)
  = Some (Instance.mk (Num Positive 123 (-2)) (Num Negative 678 (-5))).
Proof.
  apply (toSignificantDigits_rounds_once (eng := Readme.engine)
           (Instance.mk (Num Positive 12345 (-4)) (Num Negative 678 (-5)))
           (Instance.mk (Num Positive 123 (-2)) (Num Negative 678 (-5))) 3 5);
    [vm_compute; reflexivity | lia | lia].
Defined.

(** X23.  The inverse reciprocal hyperbolic functions of the two classes
    meet away from the static class's special cases.  The reciprocal the
    static functions build is the instance [recip], component for
    component; so [Complex.acoth] returns what [acoth] returns unless
    both components of the argument equal zero, and [Complex.acsch]
    returns what [acsch] returns whenever the imaginary part of the
    argument does not equal zero. *)
Theorem inverse_reciprocal_hyperbolic_agreement {eng : Dec.Engine} (z : Instance.Complex) :
  Static.reciprocal_of (lift z) = lift (Instance.recip z)
  /\ (Dec.eq (Instance.re z) Instance.ZERO && Dec.eq (Instance.im z) Instance.ZERO = false ->
      Static.acoth (Static.VComplex (lift z)) = lift (Instance.acoth z))
  /\ (Dec.eq (Instance.im z) Instance.ZERO = false ->
      Static.acsch (Static.VComplex (lift z)) = Returned (lift (Instance.acsch z))).
Proof.
  assert (R : Static.reciprocal_of (lift z) = lift (Instance.recip z)).
  { unfold Static.reciprocal_of, Instance.recip, lift.
    cbn [Static.real Static.imaginary Instance.re Instance.im].
    rewrite Laws.div_neg_l. reflexivity. }
  split; [exact R |]. split.
  - intros H. unfold Static.acoth, Instance.acoth. cbn [Static.convertToComplex].
    change (Static.real (lift z)) with (Instance.re z).
    change (Static.imaginary (lift z)) with (Instance.im z).
    change Static.ZERO with Instance.ZERO.
    rewrite H, R. apply Agreement.atanh_lift.
  - intros H. unfold Static.acsch, Instance.acsch. cbn [Static.convertToComplex].
    change (Static.imaginary (lift z)) with (Instance.im z).
    change Static.ZERO with Instance.ZERO.
    rewrite H, R, Agreement.asinh_lift. reflexivity.
Qed.

(** X24.  [recip] is one over the value.  For a finite [z] whose
    components are rounded values (rounding to the precision returns
    them), [z.recip()] and [new Complex(ONE).div(z)] hold the same value
    in each component, the sign of a zero apart, or are NaN together;
    and so does [Complex.divide(ONE, z)], the form the static class
    gives the reciprocal in [csc], [sec], [cot], [csch], [sech] and
    [coth]. *)
Theorem recip_is_one_over {eng : Dec.Engine} (z : Instance.Complex) :
  Dec.isFinite (Instance.re z) = true ->
  Dec.isFinite (Instance.im z) = true ->
  Dec.finalise Dec.pr (Instance.re z) = Instance.re z ->
  Dec.finalise Dec.pr (Instance.im z) = Instance.im z ->
  canon (Instance.re (Instance.div (Instance.mk Instance.ONE Instance.ZERO) z))
  = canon (Instance.re (Instance.recip z))
  /\ canon (Instance.im (Instance.div (Instance.mk Instance.ONE Instance.ZERO) z))
     = canon (Instance.im (Instance.recip z))
  /\ Static.divide (Static.VDecimal Static.ONE) (Static.VComplex (lift z))
     = lift (Instance.div (Instance.mk Instance.ONE Instance.ZERO) z).
Proof.
  destruct z as [x y]. cbn [Instance.re Instance.im]. intros Fx Fy Rx Ry.
  split; [| split; [| reflexivity]];
    unfold Instance.div, Instance.recip; cbn [Instance.re Instance.im];
    unfold Instance.ONE, Instance.ZERO; rewrite Laws.mul_one_l;
    change (Dec.of_Z 0) with (Zero Positive).
  - rewrite Rx.
    destruct (Laws.add_zero_fixed x (Dec.mul (Zero Positive) y) Rx
                (Laws.mul_zero_l _ _ Fy)) as [-> | [Z1 Z2]]; [reflexivity |].
    apply Laws.div_zero_canon; assumption.
  - rewrite Ry.
    destruct (Laws.zero_sub_fixed y (Dec.mul (Zero Positive) x) Ry
                (Laws.mul_zero_l _ _ Fx)) as [-> | [Z1 Z2]]; [reflexivity |].
    apply Laws.div_zero_canon; assumption.
Qed.

(** An instance of X24's hypotheses: [z = 4 + 7i] at 20 digits. *)
Lemma recip_is_one_over_witness :
  canon (Instance.re (Instance.div (eng := Readme.engine)
                        (Instance.mk Instance.ONE Instance.ZERO)
                        (Instance.mk (Dec.of_Z 4) (Dec.of_Z 7))))
  = canon (Instance.re (Instance.recip (eng := Readme.engine)
                          (Instance.mk (Dec.of_Z 4) (Dec.of_Z 7))))
  /\ canon (Instance.im (Instance.div (eng := Readme.engine)
                           (Instance.mk Instance.ONE Instance.ZERO)
                           (Instance.mk (Dec.of_Z 4) (Dec.of_Z 7))))
     = canon (Instance.im (Instance.recip (eng := Readme.engine)
                             (Instance.mk (Dec.of_Z 4) (Dec.of_Z 7))))
  /\ Static.divide (eng := Readme.engine) (Static.VDecimal Static.ONE)
       (Static.VComplex (lift (Instance.mk (Dec.of_Z 4) (Dec.of_Z 7))))
     = lift (Instance.div (eng := Readme.engine)
               (Instance.mk Instance.ONE Instance.ZERO)
               (Instance.mk (Dec.of_Z 4) (Dec.of_Z 7))).
Proof.
  apply (recip_is_one_over (eng := Readme.engine) (Instance.mk (Dec.of_Z 4) (Dec.of_Z 7)));
    reflexivity.
Defined.

(** X25.  Squaring the root of an exact square returns the square.  For
    a positive finite [d = c * 10^e] such that [d] and its exact square
    both fit the precision, the root of the real number [d * d]
    multiplied by itself equals that number by [eq]. *)
Theorem sqrt_then_square {eng : Dec.Engine} (c : positive) (e : Z) :
  Dec.representable (Num Positive c e) ->
  Dec.representable (Num Positive (c * c) (e + e)) ->
  Instance.eq
    (Instance.mul (Instance.sqrt (Instance.mk (Num Positive (c * c) (e + e)) Instance.ZERO))
                  (Instance.sqrt (Instance.mk (Num Positive (c * c) (e + e)) Instance.ZERO)))
    (Instance.mk (Num Positive (c * c) (e + e)) Instance.ZERO) = true.
Proof.
  intros Rd Rs.
  assert (A : Instance.sqrt (Instance.mk (Num Positive (c * c) (e + e)) Instance.ZERO)
              = Instance.mk (Dec.normal (Num Positive c e)) Instance.ZERO).
  { unfold Instance.sqrt. cbn [Instance.re Instance.im].
    change (Dec.eq Instance.ZERO Instance.ZERO) with true.
    change (Dec.gte (Num Positive (c * c) (e + e)) Instance.ZERO) with true.
    cbv iota. rewrite Laws.sqrt_exact_square. f_equal. exact Rd. }
  rewrite A. cbn [Dec.normal]. destruct (Dec.strip c e) as [c0 e0] eqn:S.
  unfold Instance.eq, Instance.mul. cbn [Instance.re Instance.im].
  change Instance.ZERO with (Zero Positive).
  assert (M : Dec.mul (Num Positive c0 e0) (Num Positive c0 e0)
              = Dec.finalise Dec.pr (Num Positive (c * c) (e + e))).
  { unfold Dec.mul. cbn [Dec.mul_exact Dec.finalise].
    change (sign_mul Positive Positive) with Positive.
    apply Laws.square_of_normal, S. }
  rewrite M.
  change (Dec.mul (Zero Positive) (Zero Positive)) with (Zero Positive).
  rewrite Laws.sub_zero_r_eq by (exact Rs || reflexivity).
  assert (Z : Dec.isZero (Dec.mul (Num Positive c0 e0) (Zero Positive)) = true) by reflexivity.
  assert (Z' : Dec.isZero (Dec.mul (Zero Positive) (Num Positive c0 e0)) = true) by reflexivity.
  destruct (Dec.mul (Num Positive c0 e0) (Zero Positive)) as [| | t |]; try discriminate Z.
  destruct (Dec.mul (Zero Positive) (Num Positive c0 e0)) as [| | t' |]; try discriminate Z'.
  destruct t, t'; reflexivity.
Qed.

(** An instance of X25's hypotheses: [d = 1.5], [d * d = 2.25] at 20
    digits. *)
Lemma sqrt_then_square_witness :
  Instance.eq
    (Instance.mul (eng := Readme.engine)
       (Instance.sqrt (eng := Readme.engine)
          (Instance.mk (Num Positive 225 (-2)) Instance.ZERO))
       (Instance.sqrt (eng := Readme.engine)
          (Instance.mk (Num Positive 225 (-2)) Instance.ZERO)))
    (Instance.mk (Num Positive 225 (-2)) Instance.ZERO) = true.
Proof.
  apply (sqrt_then_square (eng := Readme.engine) 15 (-1)); reflexivity.
Defined.

(** X26.  Dividing by one returns the dividend: for a finite [z] whose
    components fit the precision, [z.div(1)] equals [z] by [eq], and
    [Complex.divide(z, ONE)] returns the same components. *)
Theorem div_by_one {eng : Dec.Engine} (z : Instance.Complex) :
  Dec.isFinite (Instance.re z) = true ->
  Dec.isFinite (Instance.im z) = true ->
  Dec.representable (Instance.re z) ->
  Dec.representable (Instance.im z) ->
  Instance.eq (Instance.div z (Instance.mk Instance.ONE Instance.ZERO)) z = true
  /\ Static.divide (Static.VComplex (lift z)) (Static.VDecimal Static.ONE)
     = lift (Instance.div z (Instance.mk Instance.ONE Instance.ZERO)).
Proof.
  destruct z as [x y]. cbn [Instance.re Instance.im]. intros Fx Fy Rx Ry.
  split; [| reflexivity].
  pose proof (Laws.finite_not_nan _ Fx) as Nx.
  pose proof (Laws.finite_not_nan _ Fy) as Ny.
  unfold Instance.eq, Instance.div. cbn [Instance.re Instance.im].
  unfold Instance.ONE, Instance.ZERO, Instance.TWO.
  rewrite Laws.one_denominator, !Laws.div_one_r, Laws.add_fixed, Laws.sub_fixed.
  rewrite !(DecFacts.mul_comm _ (Dec.of_Z 1)), !Laws.mul_one_l.
  rewrite !(DecFacts.mul_comm _ (Dec.of_Z 0)).
  change (Dec.of_Z 0) with (Zero Positive).
  rewrite (Laws.add_zero_r_eq x), (Laws.sub_zero_r_eq y)
    by (try assumption; apply Laws.mul_zero_l; assumption).
  reflexivity.
Qed.

(** An instance of X26's hypotheses: [z = 1.5 - 2i] at 20 digits. *)
Lemma div_by_one_witness :
  Instance.eq
    (Instance.div (eng := Readme.engine)
       (Instance.mk (Num Positive 15 (-1)) (Dec.of_Z (-2)))
       (Instance.mk Instance.ONE Instance.ZERO))
    (Instance.mk (Num Positive 15 (-1)) (Dec.of_Z (-2))) = true
  /\ Static.divide (eng := Readme.engine)
       (Static.VComplex (lift (Instance.mk (Num Positive 15 (-1)) (Dec.of_Z (-2)))))
       (Static.VDecimal Static.ONE)
     = lift (Instance.div (eng := Readme.engine)
               (Instance.mk (Num Positive 15 (-1)) (Dec.of_Z (-2)))
               (Instance.mk Instance.ONE Instance.ZERO)).
Proof.
  apply (div_by_one (eng := Readme.engine)
           (Instance.mk (Num Positive 15 (-1)) (Dec.of_Z (-2))));
    reflexivity.
Defined.

(** X28.  The static functions take bare Decimals as real numbers:
    [Complex.add(x, y)] and [Complex.subtract(x, y)] of two Decimals are
    the engine's sum and difference with imaginary part +0, and the real
    part of [Complex.multiply(x, y)] is the engine's product [x * y],
    the sign of a zero product included; its imaginary part is a zero
    when [x] and [y] are finite. *)
Theorem static_functions_on_decimals {eng : Dec.Engine} (x y : Decimal) :
  Static.add (Static.VDecimal x) (Static.VDecimal y)
  = Static.mk (Dec.add x y) (Zero Positive)
  /\ Static.subtract (Static.VDecimal x) (Static.VDecimal y)
     = Static.mk (Dec.sub x y) (Zero Positive)
  /\ Static.real (Static.multiply (Static.VDecimal x) (Static.VDecimal y)) = Dec.mul x y
  /\ (Dec.isFinite x = true -> Dec.isFinite y = true ->
      Dec.isZero (Static.imaginary (Static.multiply (Static.VDecimal x) (Static.VDecimal y)))
      = true).
Proof.
  split; [reflexivity |]. split; [reflexivity |].
  unfold Static.multiply.
  cbn [Static.convertToComplex Static.real Static.imaginary].
  split.
  - change (Dec.neg (Dec.mul Static.ZERO Static.ZERO)) with (Zero Negative).
    apply Laws.neg_zero_add_fixed, Laws.mul_fixed.
  - intros Fx Fy. change Static.ZERO with (Zero Positive).
    pose proof (Laws.mul_zero_l Positive y Fy) as A.
    rewrite (DecFacts.mul_comm x (Zero Positive)).
    pose proof (Laws.mul_zero_l Positive x Fx) as B.
    destruct (Dec.mul (Zero Positive) y) as [| | s |]; try discriminate A.
    destruct (Dec.mul (Zero Positive) x) as [| | t |]; try discriminate B.
    destruct s, t; reflexivity.
Qed.

(* ================================================================== *)
(** ** The README's arithmetic examples

    [a = 4 + 7i], [b = -1 + 5i] at the default precision. *)

Example readme_add :
  Instance.add (eng := Readme.engine)
    (Instance.mk (Dec.of_Z 4) (Dec.of_Z 7)) (Instance.mk (Dec.of_Z (-1)) (Dec.of_Z 5))
  = Instance.mk (Dec.of_Z 3) (Dec.of_Z 12).
Proof. vm_compute. reflexivity. Qed.

Example readme_div :
  Instance.toJSON
    (Instance.div (eng := Readme.engine)
       (Instance.mk (Dec.of_Z (-1)) (Dec.of_Z 5)) (Instance.mk (Dec.of_Z 4) (Dec.of_Z 7)))
  = ("0.47692307692307692308"%string, "0.41538461538461538462"%string).
Proof. vm_compute. reflexivity. Qed.

Example readme_recip :
  Instance.toJSON
    (Instance.recip (eng := Readme.engine) (Instance.mk (Dec.of_Z 4) (Dec.of_Z 7)))
  = ("0.061538461538461538462"%string, "-0.10769230769230769231"%string).
Proof. vm_compute. reflexivity. Qed.
